(** * MoonTVPlus private library: listing endpoint and listing session

    A shallow embedding of

    - the Emby listing endpoint ([GET], the route handler that serves
      [/api/emby/list]), and
    - the listing session of [src/app/private-library/page.tsx]
      (the reset effects, [fetchVideos] and the scroll observer),

    followed by the properties of the listing orchestration that the
    specification states about them. *)

From Stdlib Require Import ZArith String Ascii List Lia Bool Qcanon.
From stdpp Require Import base option list strings gmap pretty.

Local Open Scope string_scope.
Local Open Scope Z_scope.

(** ** JavaScript values used by the two files *)

Module Js.

(** The numbers that flow through [page], [pageSize], [StartIndex],
    [totalPages]: results of [parseInt], of integer arithmetic on them
    and of [Math.ceil].  They are integral or one of the three
    non-finite doubles (rounding of integers beyond 2^53 is not
    modelled). *)
Inductive number : Type :=
| NaN
| Int (z : Z)
| PosInf
| NegInf.

Definition number_eq_dec (a b : number) : {a = b} + {a <> b}.
Proof. decide equality; apply Z.eq_dec. Defined.

(** [a - b] for a finite [b]. *)
Definition sub (a : number) (b : Z) : number :=
  match a with
  | Int x => Int (x - b)
  | other => other
  end.

(** [a * b]. *)
Definition mul (a b : number) : number :=
  match a, b with
  | NaN, _ | _, NaN => NaN
  | Int x, Int y => Int (x * y)
  | Int x, PosInf | PosInf, Int x =>
      if x =? 0 then NaN else if 0 <? x then PosInf else NegInf
  | Int x, NegInf | NegInf, Int x =>
      if x =? 0 then NaN else if 0 <? x then NegInf else PosInf
  | PosInf, PosInf | NegInf, NegInf => PosInf
  | PosInf, NegInf | NegInf, PosInf => NaN
  end.

(** The least integer that is not below the quotient [a / b], [b <> 0]. *)
Definition ceil_quot (a b : Z) : Z := - ((- a) / b).

(** [Math.ceil(a / b)] for an integer [a]: the quotient itself is the
    only non-integral value of the endpoint and it is rounded up at
    once. *)
Definition ceil_div (a : Z) (b : number) : number :=
  match b with
  | NaN => NaN
  | Int 0 => if a =? 0 then NaN else if 0 <? a then PosInf else NegInf
  | Int y => Int (ceil_quot a y)
  | PosInf | NegInf => Int 0
  end.

(** [StrWhiteSpaceChar], for the code points below 128: TAB, LF, VT,
    FF, CR and the space. *)
Definition is_white_space (c : ascii) : bool :=
  let n := nat_of_ascii c in
  ((n =? 9) || (n =? 10) || (n =? 11) || (n =? 12) || (n =? 13) || (n =? 32))%nat.

(** [StrWhiteSpaceChar], for the code points above 127.  A string is
    the UTF-8 encoding of the text, so these take two or three
    characters: U+00A0 is [C2 A0]. *)
Definition is_white_space2 (a b : ascii) : bool :=
  ((nat_of_ascii a =? 194) && (nat_of_ascii b =? 160))%nat.

(** U+1680 is [E1 9A 80]; U+2000 to U+200A, U+2028, U+2029 and U+202F
    are [E2 80 80] to [E2 80 8A], [E2 80 A8], [E2 80 A9] and
    [E2 80 AF]; U+205F is [E2 81 9F]; U+3000 is [E3 80 80]; U+FEFF is
    [EF BB BF]. *)
Definition is_white_space3 (a b c : ascii) : bool :=
  let x := nat_of_ascii a in
  let y := nat_of_ascii b in
  let z := nat_of_ascii c in
  (((x =? 225) && ((y =? 154) && (z =? 128)))
   || ((x =? 226)
       && (((y =? 128)
            && (((128 <=? z) && (z <=? 138)) || (z =? 168) || (z =? 169) || (z =? 175)))
           || ((y =? 129) && (z =? 159))))
   || ((x =? 227) && ((y =? 128) && (z =? 128)))
   || ((x =? 239) && ((y =? 187) && (z =? 191))))%nat.

(** The string without its leading white space. *)
Fixpoint trim_start (s : string) : string :=
  match s with
  | String a rest =>
      if is_white_space a then trim_start rest
      else
        match rest with
        | String b rest2 =>
            if is_white_space2 a b then trim_start rest2
            else
              match rest2 with
              | String c rest3 =>
                  if is_white_space3 a b c then trim_start rest3 else s
              | EmptyString => s
              end
        | EmptyString => s
        end
  | EmptyString => s
  end.

(** Value of a digit in radix up to 36. *)
Definition digit_value (c : ascii) : option Z :=
  let n := Z.of_nat (nat_of_ascii c) in
  if (48 <=? n) && (n <=? 57) then Some (n - 48)
  else if (97 <=? n) && (n <=? 122) then Some (n - 97 + 10)
  else if (65 <=? n) && (n <=? 90) then Some (n - 65 + 10)
  else None.

(** The longest prefix of radix-[r] digits, read as an integer; [acc]
    is [None] as long as no digit was read. *)
Fixpoint read_digits (r : Z) (s : string) (acc : option Z) : option Z :=
  match s with
  | String c rest =>
      match digit_value c with
      | Some d =>
          if d <? r
          then read_digits r rest (Some (match acc with Some a => a | None => 0 end * r + d))
          else acc
      | None => acc
      end
  | EmptyString => acc
  end.

Definition strip_sign (s : string) : Z * string :=
  match s with
  | String "-" rest => (-1, rest)
  | String "+" rest => (1, rest)
  | _ => (1, s)
  end.

Definition strip_hex_prefix (s : string) : Z * string :=
  match s with
  | String "0" (String "x" rest) => (16, rest)
  | String "0" (String "X" rest) => (16, rest)
  | _ => (10, s)
  end.

(** [parseInt(s)] with no radix argument.  The digits are read as the
    integer they write: this is the value of [parseInt] as long as that
    integer is below 2^53 in size, the range in which every integer is
    a double.  A longer numeral is rounded by [parseInt], and one of
    more than 308 digits is read as [Infinity]; [safe_integer] is that
    range. *)
Definition parseInt (s : string) : number :=
  let '(sign, s1) := strip_sign (trim_start s) in
  let '(radix, s2) := strip_hex_prefix s1 in
  match read_digits radix s2 None with
  | Some v => Int (sign * v)
  | None => NaN
  end.

(** [v || d] on an optional string: [null] and the empty string are
    falsy. *)
Definition or_string (v : option string) (d : string) : string :=
  match v with
  | Some s => if String.eqb s "" then d else s
  | None => d
  end.

(** [v || undefined] on an optional string. *)
Definition or_undefined (v : option string) : option string :=
  match v with
  | Some s => if String.eqb s "" then None else Some s
  | None => None
  end.

(** The integers that a number holds exactly, with their
    neighbours: those below 2^53 in size. *)
Definition safe_integer (z : Z) : Prop := - 2 ^ 53 < z < 2 ^ 53.

(** A thrown [Error]: the handlers below read its [name] and its
    [message]. *)
Record Error : Type := mkError { name : string; message : string }.

End Js.

(** ** The query of an address

    [new URL(request.url).searchParams], on the bytes of the address:
    the URL parser drops tabs and newlines, ends the query at the
    first [#] and percent-encodes it; the parameters are the sequences
    between [&], each cut at its first [=], with [+] read as a space
    and percent-decoded.  (The parser also trims control characters
    and spaces at the two ends of an address, and replaces decoded
    bytes that are not UTF-8; no address below starts or ends with
    such a character.) *)

Module Url.

(** ASCII tab or newline: the URL parser removes them from its input. *)
Definition is_tab_or_newline (c : ascii) : bool :=
  let n := nat_of_ascii c in
  (n =? 9)%nat || (n =? 10)%nat || (n =? 13)%nat.

Fixpoint remove_tab_newline (s : string) : string :=
  match s with
  | EmptyString => EmptyString
  | String c rest =>
      if is_tab_or_newline c then remove_tab_newline rest
      else String c (remove_tab_newline rest)
  end.

(** The input up to its first [#], where the fragment starts. *)
Fixpoint before_hash (s : string) : string :=
  match s with
  | EmptyString => EmptyString
  | String c rest => if Ascii.eqb c "#" then EmptyString else String c (before_hash rest)
  end.

(** The input after its first [?], where the query starts. *)
Fixpoint after_question (s : string) : option string :=
  match s with
  | EmptyString => None
  | String c rest => if Ascii.eqb c "?" then Some rest else after_question rest
  end.

(** The special-query percent-encode set on the bytes of UTF-8: the C0
    controls, the space, every byte above 0x7E, and the characters
    0x22, [#], [<], [>] and 0x27. *)
Definition in_query_encode_set (c : ascii) : bool :=
  let n := nat_of_ascii c in
  (n <? 33)%nat || (126 <? n)%nat || (n =? 34)%nat || (n =? 35)%nat
  || (n =? 60)%nat || (n =? 62)%nat || (n =? 39)%nat.

Definition hex_char (n : nat) : ascii :=
  if (n <? 10)%nat then ascii_of_nat (48 + n) else ascii_of_nat (55 + n).

Definition percent_encode_byte (c : ascii) : string :=
  let n := nat_of_ascii c in
  String "%" (String (hex_char (n / 16)) (String (hex_char (n mod 16)) EmptyString)).

(** What the parser writes for one byte of the query. *)
Definition encode_char (c : ascii) : string :=
  if in_query_encode_set c then percent_encode_byte c else String c EmptyString.

Fixpoint percent_encode_query (s : string) : string :=
  match s with
  | EmptyString => EmptyString
  | String c rest => encode_char c +:+ percent_encode_query rest
  end.

(** The query of a URL as the parser keeps it. *)
Definition query_of (url : string) : option string :=
  percent_encode_query <$> after_question (before_hash (remove_tab_newline url)).

(** [s.split(sep)] for a separator of one character. *)
Fixpoint split_on (sep : ascii) (s : string) : list string :=
  match s with
  | EmptyString => [EmptyString]
  | String c rest =>
      if Ascii.eqb c sep then EmptyString :: split_on sep rest
      else match split_on sep rest with
           | first :: others => String c first :: others
           | [] => [String c EmptyString]
           end
  end.

(** A sequence cut at its first [=]: the name and the value, which is
    empty when there is no [=]. *)
Fixpoint name_and_value (s : string) : string * string :=
  match s with
  | EmptyString => (EmptyString, EmptyString)
  | String c rest =>
      if Ascii.eqb c "=" then (EmptyString, rest)
      else let (name, value) := name_and_value rest in (String c name, value)
  end.

Fixpoint plus_to_space (s : string) : string :=
  match s with
  | EmptyString => EmptyString
  | String c rest => String (if Ascii.eqb c "+" then " "%char else c) (plus_to_space rest)
  end.

Definition hex_value (c : ascii) : option nat :=
  let n := nat_of_ascii c in
  if (48 <=? n)%nat && (n <=? 57)%nat then Some (n - 48)%nat
  else if (65 <=? n)%nat && (n <=? 70)%nat then Some (n - 55)%nat
  else if (97 <=? n)%nat && (n <=? 102)%nat then Some (n - 87)%nat
  else None.

(** The byte of two hex digits at the start of [s]. *)
Definition hex_pair (s : string) : option ascii :=
  match s with
  | String h (String l _) =>
      match hex_value h, hex_value l with
      | Some a, Some b => Some (ascii_of_nat (16 * a + b))
      | _, _ => None
      end
  | _ => None
  end.

(** Percent-decoding; [skip] characters at the start of [s] have been
    decoded already. *)
Fixpoint percent_decode_from (skip : nat) (s : string) : string :=
  match s with
  | EmptyString => EmptyString
  | String c rest =>
      match skip with
      | S k => percent_decode_from k rest
      | O =>
          match (if Ascii.eqb c "%" then hex_pair rest else None) with
          | Some byte => String byte (percent_decode_from 2 rest)
          | None => String c (percent_decode_from 0 rest)
          end
      end
  end.

Definition percent_decode (s : string) : string := percent_decode_from 0 s.

Definition is_empty (s : string) : bool :=
  match s with EmptyString => true | _ => false end.

(** The name and the value of a sequence, decoded. *)
Definition read_sequence (sequence : string) : string * string :=
  let (name, value) := name_and_value sequence in
  (percent_decode (plus_to_space name), percent_decode (plus_to_space value)).

(** The application/x-www-form-urlencoded parser. *)
Definition parse_urlencoded (query : string) : list (string * string) :=
  map read_sequence
      (List.filter (fun sequence => negb (is_empty sequence)) (split_on "&" query)).

(** [new URL(url).searchParams] *)
Definition searchParams (url : string) : list (string * string) :=
  match query_of url with
  | Some query => parse_urlencoded query
  | None => []
  end.

(** [searchParams.get(name)] *)
Fixpoint get (name : string) (params : list (string * string)) : option string :=
  match params with
  | [] => None
  | (n, v) :: rest => if String.eqb n name then Some v else get name rest
  end.

(** No character of [s] is [&], [#], [+], [%], a tab or a newline. *)
Definition is_plain_char (c : ascii) : bool :=
  negb (Ascii.eqb c "&" || Ascii.eqb c "#" || Ascii.eqb c "+" || Ascii.eqb c "%"
        || is_tab_or_newline c).

Fixpoint is_plain (s : string) : bool :=
  match s with
  | EmptyString => true
  | String c rest => is_plain_char c && is_plain rest
  end.

(** Sequences joined by [&]. *)
Fixpoint join_amp (sequences : list string) : string :=
  match sequences with
  | [] => EmptyString
  | [s] => s
  | s :: rest => s +:+ String "&" (join_amp rest)
  end.

End Url.

(** ** The listing endpoint *)

Module Api.

(** An item as the media server returns it ([Fields:
    'Overview,ProductionYear']); the year and the rating may be
    missing. *)
Record EmbyItem : Type := mkEmbyItem {
  Id : string;
  Name : string;
  ProductionYear : option Z;
  CommunityRating : option Qc;
  Type_ : string;
}.

(** The common item shape of the endpoints. *)
Record Item : Type := mkItem {
  id : string;
  title : string;
  poster : string;
  year : string;
  rating : Qc;
  mediaType : string;
}.

(** The argument of [client.getItems]. *)
Record ItemsQuery : Type := mkItemsQuery {
  ParentId : option string;
  IncludeItemTypes : string;
  Recursive : bool;
  Fields : string;
  SortBy : string;
  SortOrder : string;
  StartIndex : Js.number;
  Limit : Js.number;
}.

Record ItemsResult : Type := mkItemsResult {
  Items : list EmbyItem;
  TotalRecordCount : Z;
}.

(** Values of the fields of a response object. *)
Inductive JsonValue : Type :=
| JNull
| JBool (b : bool)
| JNumber (n : Js.number)
| JString (s : string)
| JList (l : list Item).

(** A response object: its fields in the order of the object literal. *)
Definition Response : Type := list (string * JsonValue).

Fixpoint field (k : string) (o : Response) : option JsonValue :=
  match o with
  | (k', v) :: rest => if String.eqb k k' then Some v else field k rest
  | [] => None
  end.

Definition keys (o : Response) : list string := map fst o.

(** The query string of a request: what [searchParams.get] returns for
    each name ([None] for [null]). *)
Record SearchParams : Type := mkSearchParams {
  q_page : option string;
  q_pageSize : option string;
  q_parentId : option string;
  q_embyKey : option string;
  q_sortBy : option string;
  q_sortOrder : option string;
}.

(** What a call of the handler does outside itself, in order. *)
Inductive Event : Type :=
| CacheRead (page pageSize : Js.number) (parentId embyKey : option string)
| GetClient (embyKey : option string)
| GetItems (q : ItemsQuery)
| CacheWrite (page pageSize : Js.number) (r : Response) (parentId embyKey : option string)
| LogError (msg : string).

(** The collaborators of the handler: [@/lib/emby-cache] and
    [@/lib/emby-manager] are not part of the two files, so the handler
    is embedded over any implementation of them.  The cache never
    raises; [getClient] and [getItems] may reject. *)
Class Collaborators : Type := {
  Cache : Type;
  getCachedEmbyList :
    Cache -> Js.number -> Js.number -> option string -> option string -> option Response;
  setCachedEmbyList :
    Cache -> Js.number -> Js.number -> Response -> option string -> option string -> Cache;
  Client : Type;
  getClient : option string -> Js.Error + Client;
  getItems : Client -> ItemsQuery -> Js.Error + ItemsResult;
  getImageUrl : Client -> string -> string -> string;
}.

(** *** A monad for the handler: cache state, event log, exceptions *)

Section Handler.
Context `{C : Collaborators}.

Record World : Type := mkWorld { cache : Cache; log : list Event }.

Inductive Completion (A : Type) : Type :=
| Returned (a : A)
| Thrown (e : Js.Error).
Arguments Returned {A} a.
Arguments Thrown {A} e.

Definition M (A : Type) : Type := World -> Completion A * World.

Definition ret {A} (a : A) : M A := fun w => (Returned a, w).
Definition throw {A} (e : Js.Error) : M A := fun w => (Thrown e, w).
Definition bind {A B} (m : M A) (k : A -> M B) : M B :=
  fun w =>
    match m w with
    | (Returned a, w') => k a w'
    | (Thrown e, w') => (Thrown e, w')
    end.
Definition try_catch {A} (body : M A) (handler : Js.Error -> M A) : M A :=
  fun w =>
    match body w with
    | (Returned a, w') => (Returned a, w')
    | (Thrown e, w') => handler e w'
    end.
Definition emit (e : Event) : M unit :=
  fun w => (Returned tt, mkWorld (cache w) (log w ++ [e])).
Definition lift {A} (r : Js.Error + A) : M A :=
  match r with
  | inl e => throw e
  | inr a => ret a
  end.

Notation "'let*' x ':=' m 'in' k" := (bind m (fun x => k))
  (at level 10, x name, m at level 100, k at level 200).
Notation "'run' m 'in' k" := (bind m (fun _ => k))
  (at level 10, m at level 100, k at level 200).

Definition cache_get (page pageSize : Js.number) (parentId embyKey : option string)
  : M (option Response) :=
  run emit (CacheRead page pageSize parentId embyKey) in
  fun w => (Returned (getCachedEmbyList (cache w) page pageSize parentId embyKey), w).

Definition cache_set (page pageSize : Js.number) (r : Response)
    (parentId embyKey : option string) : M unit :=
  run emit (CacheWrite page pageSize r parentId embyKey) in
  fun w => (Returned tt,
            mkWorld (setCachedEmbyList (cache w) page pageSize r parentId embyKey) (log w)).

Definition manager_getClient (embyKey : option string) : M Client :=
  run emit (GetClient embyKey) in lift (getClient embyKey).

Definition client_getItems (c : Client) (q : ItemsQuery) : M ItemsResult :=
  run emit (GetItems q) in lift (getItems c q).

(** [item.ProductionYear?.toString() || ''] *)
Definition year_of (item : EmbyItem) : string :=
  Js.or_string (pretty <$> ProductionYear item) "".

(** [item.CommunityRating || 0] *)
Definition rating_of (item : EmbyItem) : Qc :=
  match CommunityRating item with
  | Some r => if Qc_eq_dec r 0%Qc then 0%Qc else r
  | None => 0%Qc
  end.

(** [item.Type === 'Movie' ? 'movie' : 'tv'] *)
Definition mediaType_of (item : EmbyItem) : string :=
  if String.eqb (Type_ item) "Movie" then "movie" else "tv".

(** The callback of [result.Items.map]. *)
Definition normalize (c : Client) (item : EmbyItem) : Item :=
  {| id := Id item;
     title := Name item;
     poster := getImageUrl c (Id item) "Primary";
     year := year_of item;
     rating := rating_of item;
     mediaType := mediaType_of item |}.

Definition isDefaultSort (sortBy sortOrder : string) : bool :=
  String.eqb sortBy "SortName" && String.eqb sortOrder "Ascending".

Definition success_response (list : list Item) (totalPages page : Js.number)
    (total : Z) : Response :=
  [ ("success", JBool true);
    ("list", JList list);
    ("totalPages", JNumber totalPages);
    ("currentPage", JNumber page);
    ("total", JNumber (Js.Int total)) ].

Definition failure_response (e : Js.Error) (page : Js.number) : Response :=
  [ ("error", JString ("获取 Emby 列表失败: " +:+ Js.message e));
    ("list", JList []);
    ("totalPages", JNumber (Js.Int 0));
    ("currentPage", JNumber page);
    ("total", JNumber (Js.Int 0)) ].

(** The values the handler reads from the query string. *)
Definition page_of (searchParams : SearchParams) : Js.number :=
  Js.parseInt (Js.or_string (q_page searchParams) "1").
Definition pageSize_of (searchParams : SearchParams) : Js.number :=
  Js.parseInt (Js.or_string (q_pageSize searchParams) "20").
Definition parentId_of (searchParams : SearchParams) : option string :=
  Js.or_undefined (q_parentId searchParams).
Definition embyKey_of (searchParams : SearchParams) : option string :=
  Js.or_undefined (q_embyKey searchParams).
Definition sortBy_of (searchParams : SearchParams) : string :=
  Js.or_string (q_sortBy searchParams) "SortName".
Definition sortOrder_of (searchParams : SearchParams) : string :=
  Js.or_string (q_sortOrder searchParams) "Ascending".

(** The names of the parameters the handler reads. *)
Definition parameter_names : list string :=
  ["page"; "pageSize"; "parentId"; "embyKey"; "sortBy"; "sortOrder"].

(** [const { searchParams } = new URL(request.url)] and its six
    [searchParams.get(name)]. *)
Definition searchParams_of (url : string) : SearchParams :=
  let params := Url.searchParams url in
  {| q_page := Url.get "page" params;
     q_pageSize := Url.get "pageSize" params;
     q_parentId := Url.get "parentId" params;
     q_embyKey := Url.get "embyKey" params;
     q_sortBy := Url.get "sortBy" params;
     q_sortOrder := Url.get "sortOrder" params |}.

(** The argument of [client.getItems] for a request. *)
Definition itemsQuery_of (searchParams : SearchParams) : ItemsQuery :=
  {| ParentId := parentId_of searchParams;
     IncludeItemTypes := "Movie,Series";
     Recursive := true;
     Fields := "Overview,ProductionYear";
     SortBy := sortBy_of searchParams;
     SortOrder := sortOrder_of searchParams;
     StartIndex := Js.mul (Js.sub (page_of searchParams) 1) (pageSize_of searchParams);
     Limit := pageSize_of searchParams |}.

(** [export async function GET(request)] *)
Definition GET (searchParams : SearchParams) : M Response :=
  let page := page_of searchParams in
  let pageSize := pageSize_of searchParams in
  let parentId := parentId_of searchParams in
  let embyKey := embyKey_of searchParams in
  let sortBy := sortBy_of searchParams in
  let sortOrder := sortOrder_of searchParams in
  try_catch
    (let isDefault := isDefaultSort sortBy sortOrder in
     let* cached := (if isDefault
                     then cache_get page pageSize parentId embyKey
                     else ret None) in
     match cached with
     | Some hit => ret hit
     | None =>
         let* client := manager_getClient embyKey in
         let* result := client_getItems client (itemsQuery_of searchParams) in
         let list := map (normalize client) (Items result) in
         let totalPages := Js.ceil_div (TotalRecordCount result) pageSize in
         let response :=
           success_response list totalPages page (TotalRecordCount result) in
         run (if isDefault
              then cache_set page pageSize response parentId embyKey
              else ret tt) in
         ret response
     end)
    (fun error =>
       run emit (LogError "获取 Emby 列表失败:") in
       ret (failure_response error page)).

(** Running the handler on a cache, with an empty log. *)
Definition serve (c : Cache) (searchParams : SearchParams)
  : Completion Response * World :=
  GET searchParams (mkWorld c []).

(** The response of a live fetch that succeeds. *)
Definition live_response (searchParams : SearchParams) (client : Client)
    (result : ItemsResult) : Response :=
  success_response (map (normalize client) (Items result))
    (Js.ceil_div (TotalRecordCount result) (pageSize_of searchParams))
    (page_of searchParams) (TotalRecordCount result).

(** The handler misses the cache: the sort is not the default or the
    cache has no entry for the request. *)
Definition cache_miss (store : Cache) (searchParams : SearchParams) : Prop :=
  isDefaultSort (sortBy_of searchParams) (sortOrder_of searchParams) = false \/
  getCachedEmbyList store (page_of searchParams) (pageSize_of searchParams)
    (parentId_of searchParams) (embyKey_of searchParams) = None.

End Handler.

(** The kind of a field value, and the fields a caller renders from. *)
Inductive Kind : Type := KNull | KBool | KNumber | KString | KList.

Definition kind (v : JsonValue) : Kind :=
  match v with
  | JNull => KNull
  | JBool _ => KBool
  | JNumber _ => KNumber
  | JString _ => KString
  | JList _ => KList
  end.

Definition rendering_fields : list string :=
  ["list"; "totalPages"; "currentPage"; "total"].

Definition rendering_shape (o : Response) : list (option Kind) :=
  map (fun k => kind <$> field k o) rendering_fields.

Definition is_cache_read (e : Event) : bool :=
  match e with CacheRead _ _ _ _ => true | _ => false end.

Definition is_cache_write (e : Event) : bool :=
  match e with CacheWrite _ _ _ _ _ => true | _ => false end.

Arguments Returned {A} a.
Arguments Thrown {A} e.

End Api.

(** ** The listing session of the private library page *)

Module Page.

(** [interface Video] *)
Record Video : Type := mkVideo {
  id : string;
  folder : option string;
  tmdbId : option Z;
  title : string;
  poster : string;
  releaseDate : option string;
  year : option string;
  overview : option string;
  voteAverage : option Qc;
  rating : option Qc;
  mediaType : string;
}.

(** An entry of [xiaoyaFolders] and [xiaoyaFiles]. *)
Record Entry : Type := mkEntry { entry_name : string; entry_path : string }.

Inductive SortOrder : Type := Ascending | Descending.

Definition SortOrder_text (o : SortOrder) : string :=
  match o with
  | Ascending => "Ascending"
  | Descending => "Descending"
  end.

(** [window.RUNTIME_CONFIG], as the three flags the page reads. *)
Record RuntimeConfig : Type := mkRuntimeConfig {
  OPENLIST_ENABLED : bool;
  EMBY_ENABLED : bool;
  XIAOYA_ENABLED : bool;
}.

(** The [useState] cells of the listing. *)
Record State : Type := mkState {
  sourceType : string;
  embyKey : option string;
  videos : list Video;
  loading : bool;
  loadingMore : bool;
  error : string;
  page : Z;
  hasMore : bool;
  selectedView : string;
  sortBy : string;
  sortOrder : SortOrder;
  xiaoyaPath : string;
  xiaoyaFolders : list Entry;
  xiaoyaFiles : list Entry;
}.

Definition set_sourceType (v : string) (st : State) : State :=
  {| sourceType := v; embyKey := embyKey st; videos := videos st;
     loading := loading st; loadingMore := loadingMore st;
     error := error st; page := page st; hasMore := hasMore st;
     selectedView := selectedView st; sortBy := sortBy st;
     sortOrder := sortOrder st; xiaoyaPath := xiaoyaPath st;
     xiaoyaFolders := xiaoyaFolders st; xiaoyaFiles := xiaoyaFiles st |}.

Definition set_embyKey (v : option string) (st : State) : State :=
  {| sourceType := sourceType st; embyKey := v; videos := videos st;
     loading := loading st; loadingMore := loadingMore st;
     error := error st; page := page st; hasMore := hasMore st;
     selectedView := selectedView st; sortBy := sortBy st;
     sortOrder := sortOrder st; xiaoyaPath := xiaoyaPath st;
     xiaoyaFolders := xiaoyaFolders st; xiaoyaFiles := xiaoyaFiles st |}.

Definition set_videos (v : list Video) (st : State) : State :=
  {| sourceType := sourceType st; embyKey := embyKey st; videos := v;
     loading := loading st; loadingMore := loadingMore st;
     error := error st; page := page st; hasMore := hasMore st;
     selectedView := selectedView st; sortBy := sortBy st;
     sortOrder := sortOrder st; xiaoyaPath := xiaoyaPath st;
     xiaoyaFolders := xiaoyaFolders st; xiaoyaFiles := xiaoyaFiles st |}.

Definition set_loading (v : bool) (st : State) : State :=
  {| sourceType := sourceType st; embyKey := embyKey st;
     videos := videos st; loading := v; loadingMore := loadingMore st;
     error := error st; page := page st; hasMore := hasMore st;
     selectedView := selectedView st; sortBy := sortBy st;
     sortOrder := sortOrder st; xiaoyaPath := xiaoyaPath st;
     xiaoyaFolders := xiaoyaFolders st; xiaoyaFiles := xiaoyaFiles st |}.

Definition set_loadingMore (v : bool) (st : State) : State :=
  {| sourceType := sourceType st; embyKey := embyKey st;
     videos := videos st; loading := loading st; loadingMore := v;
     error := error st; page := page st; hasMore := hasMore st;
     selectedView := selectedView st; sortBy := sortBy st;
     sortOrder := sortOrder st; xiaoyaPath := xiaoyaPath st;
     xiaoyaFolders := xiaoyaFolders st; xiaoyaFiles := xiaoyaFiles st |}.

Definition set_error (v : string) (st : State) : State :=
  {| sourceType := sourceType st; embyKey := embyKey st;
     videos := videos st; loading := loading st;
     loadingMore := loadingMore st; error := v; page := page st;
     hasMore := hasMore st; selectedView := selectedView st;
     sortBy := sortBy st; sortOrder := sortOrder st;
     xiaoyaPath := xiaoyaPath st; xiaoyaFolders := xiaoyaFolders st;
     xiaoyaFiles := xiaoyaFiles st |}.

Definition set_page (v : Z) (st : State) : State :=
  {| sourceType := sourceType st; embyKey := embyKey st;
     videos := videos st; loading := loading st;
     loadingMore := loadingMore st; error := error st; page := v;
     hasMore := hasMore st; selectedView := selectedView st;
     sortBy := sortBy st; sortOrder := sortOrder st;
     xiaoyaPath := xiaoyaPath st; xiaoyaFolders := xiaoyaFolders st;
     xiaoyaFiles := xiaoyaFiles st |}.

Definition set_hasMore (v : bool) (st : State) : State :=
  {| sourceType := sourceType st; embyKey := embyKey st;
     videos := videos st; loading := loading st;
     loadingMore := loadingMore st; error := error st; page := page st;
     hasMore := v; selectedView := selectedView st; sortBy := sortBy st;
     sortOrder := sortOrder st; xiaoyaPath := xiaoyaPath st;
     xiaoyaFolders := xiaoyaFolders st; xiaoyaFiles := xiaoyaFiles st |}.

Definition set_selectedView (v : string) (st : State) : State :=
  {| sourceType := sourceType st; embyKey := embyKey st;
     videos := videos st; loading := loading st;
     loadingMore := loadingMore st; error := error st; page := page st;
     hasMore := hasMore st; selectedView := v; sortBy := sortBy st;
     sortOrder := sortOrder st; xiaoyaPath := xiaoyaPath st;
     xiaoyaFolders := xiaoyaFolders st; xiaoyaFiles := xiaoyaFiles st |}.

Definition set_sortBy (v : string) (st : State) : State :=
  {| sourceType := sourceType st; embyKey := embyKey st;
     videos := videos st; loading := loading st;
     loadingMore := loadingMore st; error := error st; page := page st;
     hasMore := hasMore st; selectedView := selectedView st; sortBy := v;
     sortOrder := sortOrder st; xiaoyaPath := xiaoyaPath st;
     xiaoyaFolders := xiaoyaFolders st; xiaoyaFiles := xiaoyaFiles st |}.

Definition set_sortOrder (v : SortOrder) (st : State) : State :=
  {| sourceType := sourceType st; embyKey := embyKey st;
     videos := videos st; loading := loading st;
     loadingMore := loadingMore st; error := error st; page := page st;
     hasMore := hasMore st; selectedView := selectedView st;
     sortBy := sortBy st; sortOrder := v; xiaoyaPath := xiaoyaPath st;
     xiaoyaFolders := xiaoyaFolders st; xiaoyaFiles := xiaoyaFiles st |}.

Definition set_xiaoyaPath (v : string) (st : State) : State :=
  {| sourceType := sourceType st; embyKey := embyKey st;
     videos := videos st; loading := loading st;
     loadingMore := loadingMore st; error := error st; page := page st;
     hasMore := hasMore st; selectedView := selectedView st;
     sortBy := sortBy st; sortOrder := sortOrder st; xiaoyaPath := v;
     xiaoyaFolders := xiaoyaFolders st; xiaoyaFiles := xiaoyaFiles st |}.

Definition set_xiaoyaFolders (v : list Entry) (st : State) : State :=
  {| sourceType := sourceType st; embyKey := embyKey st;
     videos := videos st; loading := loading st;
     loadingMore := loadingMore st; error := error st; page := page st;
     hasMore := hasMore st; selectedView := selectedView st;
     sortBy := sortBy st; sortOrder := sortOrder st;
     xiaoyaPath := xiaoyaPath st; xiaoyaFolders := v;
     xiaoyaFiles := xiaoyaFiles st |}.

Definition set_xiaoyaFiles (v : list Entry) (st : State) : State :=
  {| sourceType := sourceType st; embyKey := embyKey st;
     videos := videos st; loading := loading st;
     loadingMore := loadingMore st; error := error st; page := page st;
     hasMore := hasMore st; selectedView := selectedView st;
     sortBy := sortBy st; sortOrder := sortOrder st;
     xiaoyaPath := xiaoyaPath st; xiaoyaFolders := xiaoyaFolders st;
     xiaoyaFiles := v |}.

(** [const pageSize = 20] *)
Definition pageSize : Z := 20.

(** The address [fetchVideos] requests, by its parameters; the text of
    the emby address is [emby_address] below. *)
Inductive Endpoint : Type :=
| OpenlistList (page pageSize : Z)
| XiaoyaBrowse (path : string)
| EmbyList (searchParams : Api.SearchParams).

(** What a call of [fetchVideos] keeps in its closure across its
    [await]s: the controller it created and the values of the render
    that started it. *)
Record Request : Type := mkRequest {
  controller : nat;
  isInitial : bool;
  req_sourceType : string;
  req_page : Z;
  endpoint : Endpoint;
}.

(** The [await] a call of [fetchVideos] is suspended at. *)
Inductive Phase : Type := AwaitFetch | AwaitJson.

Record Pending : Type := mkPending { request : Request; phase : Phase }.

(** The session: the state cells, the three refs, the browser side of
    the requests (the controllers aborted so far, the suspended calls
    by controller, the requests sent), and the state of the last
    committed render, whose values the dependency arrays are compared
    with. *)
Record Session : Type := mkSession {
  state : State;
  isFetchingRef : bool;
  abortControllerRef : option nat;
  isInitializedRef : bool;
  aborted : gset nat;
  nextController : nat;
  inflight : gmap nat Pending;
  requests : list (nat * Endpoint);
  committed : option State;
}.

Definition with_state (v : State) (s : Session) : Session :=
  {| state := v; isFetchingRef := isFetchingRef s;
     abortControllerRef := abortControllerRef s;
     isInitializedRef := isInitializedRef s; aborted := aborted s;
     nextController := nextController s; inflight := inflight s;
     requests := requests s;
     committed := committed s |}.

Definition with_isFetchingRef (v : bool) (s : Session) : Session :=
  {| state := state s; isFetchingRef := v;
     abortControllerRef := abortControllerRef s;
     isInitializedRef := isInitializedRef s; aborted := aborted s;
     nextController := nextController s; inflight := inflight s;
     requests := requests s;
     committed := committed s |}.

Definition with_abortControllerRef (v : option nat) (s : Session) : Session :=
  {| state := state s; isFetchingRef := isFetchingRef s;
     abortControllerRef := v; isInitializedRef := isInitializedRef s;
     aborted := aborted s; nextController := nextController s;
     inflight := inflight s; requests := requests s;
     committed := committed s |}.

Definition with_isInitializedRef (v : bool) (s : Session) : Session :=
  {| state := state s; isFetchingRef := isFetchingRef s;
     abortControllerRef := abortControllerRef s; isInitializedRef := v;
     aborted := aborted s; nextController := nextController s;
     inflight := inflight s; requests := requests s;
     committed := committed s |}.

Definition with_aborted (v : gset nat) (s : Session) : Session :=
  {| state := state s; isFetchingRef := isFetchingRef s;
     abortControllerRef := abortControllerRef s;
     isInitializedRef := isInitializedRef s; aborted := v;
     nextController := nextController s; inflight := inflight s;
     requests := requests s;
     committed := committed s |}.

Definition with_nextController (v : nat) (s : Session) : Session :=
  {| state := state s; isFetchingRef := isFetchingRef s;
     abortControllerRef := abortControllerRef s;
     isInitializedRef := isInitializedRef s; aborted := aborted s;
     nextController := v; inflight := inflight s; requests := requests s;
     committed := committed s |}.

Definition with_inflight (v : gmap nat Pending) (s : Session) : Session :=
  {| state := state s; isFetchingRef := isFetchingRef s;
     abortControllerRef := abortControllerRef s;
     isInitializedRef := isInitializedRef s; aborted := aborted s;
     nextController := nextController s; inflight := v;
     requests := requests s;
     committed := committed s |}.

Definition with_requests (v : list (nat * Endpoint)) (s : Session) : Session :=
  {| state := state s; isFetchingRef := isFetchingRef s;
     abortControllerRef := abortControllerRef s;
     isInitializedRef := isInitializedRef s; aborted := aborted s;
     nextController := nextController s; inflight := inflight s;
     requests := v;
     committed := committed s |}.

Definition with_committed (v : option State) (s : Session) : Session :=
  {| state := state s; isFetchingRef := isFetchingRef s;
     abortControllerRef := abortControllerRef s;
     isInitializedRef := isInitializedRef s; aborted := aborted s;
     nextController := nextController s; inflight := inflight s;
     requests := requests s; committed := v |}.

(** A state setter called on the session. *)
Definition update (f : State -> State) (s : Session) : Session :=
  with_state (f (state s)) s.

(** *** Values coming from outside *)

(** The body of a response after [response.json()]: the fields
    [fetchVideos] reads, [None] for a field that is missing or
    [null]. *)
Record Data : Type := mkData {
  d_error : option string;
  d_list : option (list Video);
  d_page : option Z;
  d_totalPages : option Z;
  d_folders : option (list Entry);
  d_files : option (list Entry);
}.

(** How a promise settles. *)
Inductive Settled (A : Type) : Type :=
| Fulfilled (a : A)
| Rejected (e : Js.Error).
Arguments Fulfilled {A} a.
Arguments Rejected {A} e.

(** The rejection of a fetch whose signal is aborted. *)
Definition AbortError : Js.Error :=
  Js.mkError "AbortError" "The operation was aborted.".

(** Truthiness of an optional string ([!embyKey], [data.error]). *)
Definition truthy (v : option string) : bool :=
  match v with
  | Some x => negb (String.eqb x "")
  | None => false
  end.

(** [v || d] on an optional number. *)
Definition or_number (v : option Z) (d : Z) : Z :=
  match v with
  | Some x => if x =? 0 then d else x
  | None => d
  end.

(** *** Initialisation from the URL *)

(** [s.split(':')] *)
Fixpoint split_colon (s : string) : list string :=
  match s with
  | EmptyString => [""]
  | String c rest =>
      if Ascii.eqb c ":" then "" :: split_colon rest
      else match split_colon rest with
           | first :: others => String c first :: others
           | [] => [String c ""]
           end
  end.

Definition includes_colon (s : string) : bool :=
  existsb (fun c => Ascii.eqb c ":") (list_ascii_of_string s).

(** [parseSourceParam]: the source type and the emby key of the
    [source] parameter. *)
Definition parseSourceParam (sourceParam : option string) : string * option string :=
  match sourceParam with
  | None => ("openlist", None)
  | Some p =>
      if String.eqb p "" then ("openlist", None)
      else if includes_colon p then
        match split_colon p with
        | type :: key :: _ => (type, Some key)
        | type :: [] => (type, None)
        | [] => ("", None)
        end
      else (p, None)
  end.

(** The effect on [[searchParams, runtimeConfig]]. *)
Definition initEffect (cfg : RuntimeConfig) (urlSource : option string)
    (s : Session) : Session :=
  let parsed := parseSourceParam urlSource in
  let s1 :=
    if negb (OPENLIST_ENABLED cfg) && EMBY_ENABLED cfg
    then update (set_sourceType "emby") s
    else if negb (String.eqb (fst parsed) "")
    then
      let s' := update (set_sourceType (fst parsed)) s in
      if truthy (snd parsed) then update (set_embyKey (snd parsed)) s' else s'
    else s in
  with_isInitializedRef true s1.

(** *** The three reset effects *)

(** The effect on [[sourceType, embyKey]]. *)
Definition resetOnSource (s : Session) : Session :=
  if negb (isInitializedRef s) then s
  else
    let s := update (set_page 1) s in
    let s := update (set_videos []) s in
    let s := update (set_hasMore true) s in
    let s := update (set_error "") s in
    let s := update (set_selectedView "all") s in
    let s := update (set_loading false) s in
    let s := update (set_loadingMore false) s in
    with_isFetchingRef false s.

(** The effect on [[selectedView]]. *)
Definition resetOnView (s : Session) : Session :=
  if negb (isInitializedRef s) then s
  else
    let s := update (set_page 1) s in
    let s := update (set_videos []) s in
    let s := update (set_hasMore true) s in
    let s := update (set_error "") s in
    let s := update (set_loading false) s in
    let s := update (set_loadingMore false) s in
    with_isFetchingRef false s.

(** The effect on [[sortBy, sortOrder, sourceType]]; [r] is the render
    the effect belongs to. *)
Definition resetOnSort (r : State) (s : Session) : Session :=
  if negb (isInitializedRef s) then s
  else if negb (String.eqb (sourceType r) "emby") then s
  else
    let s := update (set_page 1) s in
    let s := update (set_videos []) s in
    let s := update (set_hasMore true) s in
    let s := update (set_error "") s in
    let s := update (set_loading false) s in
    let s := update (set_loadingMore false) s in
    with_isFetchingRef false s.

(** *** [fetchVideos], up to its first [await] *)

Definition is_aborted (s : Session) (c : nat) : bool :=
  bool_decide (c ∈ aborted s).

(** [if (abortControllerRef.current) abortControllerRef.current.abort()] *)
Definition abort_current (s : Session) : Session :=
  match abortControllerRef s with
  | Some c => with_aborted ({[c]} ∪ aborted s) s
  | None => s
  end.

(** The address of the emby listing, as the template literal writes
    it: the key, the view and the sort field go in as they are. *)
Definition emby_address (r : State) : string :=
  "/api/emby/list?page=" +:+ pretty (page r) +:+ "&pageSize=" +:+ pretty pageSize
  +:+ (if negb (String.eqb (selectedView r) "all")
       then "&parentId=" +:+ selectedView r else "")
  +:+ "&embyKey=" +:+ default "undefined" (embyKey r)
  +:+ "&sortBy=" +:+ sortBy r
  +:+ "&sortOrder=" +:+ SortOrder_text (sortOrder r).

(** The sequences of the query of [emby_address]. *)
Definition emby_sequences (r : State) : list string :=
  ["page=" +:+ pretty (page r); "pageSize=" +:+ pretty pageSize]
  ++ (if negb (String.eqb (selectedView r) "all")
      then ["parentId=" +:+ selectedView r] else [])
  ++ ["embyKey=" +:+ default "undefined" (embyKey r);
      "sortBy=" +:+ sortBy r;
      "sortOrder=" +:+ SortOrder_text (sortOrder r)].

(** The parameters of [emby_address] as the endpoint reads them when
    the key, the view and the sort field are plain ([Url.is_plain]:
    [Api.searchParams_of (emby_address r)] is then this record).  A
    value with [&], [#], [+] or [%] is read otherwise. *)
Definition emby_searchParams (r : State) : Api.SearchParams :=
  {| Api.q_page := Some (pretty (page r));
     Api.q_pageSize := Some (pretty pageSize);
     Api.q_parentId :=
       if negb (String.eqb (selectedView r) "all") then Some (selectedView r) else None;
     Api.q_embyKey := Some (default "undefined" (embyKey r));
     Api.q_sortBy := Some (sortBy r);
     Api.q_sortOrder := Some (SortOrder_text (sortOrder r)) |}.

Definition endpoint_of (r : State) : Endpoint :=
  if String.eqb (sourceType r) "openlist" then OpenlistList (page r) pageSize
  else if String.eqb (sourceType r) "xiaoya" then XiaoyaBrowse (xiaoyaPath r)
  else EmbyList (emby_searchParams r).

(** The source of render [r] is switched off, or emby has no key. *)
Definition source_disabled (cfg : RuntimeConfig) (r : State) : bool :=
  (String.eqb (sourceType r) "openlist" && negb (OPENLIST_ENABLED cfg))
  || (String.eqb (sourceType r) "emby"
      && (negb (EMBY_ENABLED cfg) || negb (truthy (embyKey r))))
  || (String.eqb (sourceType r) "xiaoya" && negb (XIAOYA_ENABLED cfg)).

(** [fetchVideos()] from its start to [await fetch(endpoint, ...)]. *)
Definition fetchVideos (cfg : RuntimeConfig) (r : State) (s : Session) : Session :=
  let isInitial := page r =? 1 in
  let s := abort_current s in
  if String.eqb (sourceType r) "openlist" && negb (OPENLIST_ENABLED cfg)
  then update (set_loading false) s
  else if String.eqb (sourceType r) "emby"
          && (negb (EMBY_ENABLED cfg) || negb (truthy (embyKey r)))
  then update (set_loading false) s
  else if String.eqb (sourceType r) "xiaoya" && negb (XIAOYA_ENABLED cfg)
  then update (set_loading false) s
  else
    let c := nextController s in
    let req :=
      {| controller := c; isInitial := isInitial;
         req_sourceType := sourceType r; req_page := page r;
         endpoint := endpoint_of r |} in
    let s := with_nextController (S c) s in
    let s := with_abortControllerRef (Some c) s in
    let s := with_isFetchingRef true s in
    let s := if isInitial
             then update (set_loading true) s
             else update (set_loadingMore true) s in
    let s := update (set_error "") s in
    let s := with_requests (requests s ++ [(c, endpoint_of r)]) s in
    with_inflight (<[c := mkPending req AwaitFetch]> (inflight s)) s.

(** The effect on [[sourceType, embyKey, page, selectedView,
    xiaoyaPath, runtimeConfig, sortBy, sortOrder]]: the cleanup of its
    previous run, then [fetchVideos()]. *)
Definition fetchEffect (cfg : RuntimeConfig) (r : State) (s : Session) : Session :=
  fetchVideos cfg r (abort_current s).


(** *** [fetchVideos], after its [await]s *)

(** The [catch] block. *)
Definition on_catch (req : Request) (err : Js.Error) (s : Session) : Session :=
  if String.eqb (Js.name err) "AbortError" then s
  else
    let s := update (set_error "获取视频列表失败") s in
    if isInitial req then update (set_videos []) s else s.

(** The [finally] block. *)
Definition on_finally (req : Request) (s : Session) : Session :=
  if is_aborted s (controller req) then s
  else
    let s := if isInitial req
             then update (set_loading false) s
             else update (set_loadingMore false) s in
    with_isFetchingRef false s.

(** The [try] block from [const data = await response.json()] on. *)
Definition on_data (req : Request) (data : Data) (s : Session) : Session :=
  if truthy (d_error data) then
    let s := update (set_error (default "" (d_error data))) s in
    if isInitial req then update (set_videos []) s else s
  else if String.eqb (req_sourceType req) "xiaoya" then
    let s := update (set_xiaoyaFolders (default [] (d_folders data))) s in
    let s := update (set_xiaoyaFiles (default [] (d_files data))) s in
    let s := update (set_videos []) s in
    update (set_hasMore false) s
  else
    let newVideos := default [] (d_list data) in
    let s := if isInitial req
             then update (set_videos newVideos) s
             else update (fun st => set_videos (videos st ++ newVideos) st) s in
    let currentPage := or_number (d_page data) (req_page req) in
    let totalPages := or_number (d_totalPages data) 1 in
    let hasMoreData := currentPage <? totalPages in
    update (set_hasMore hasMoreData) s.

(** The call resumes after [await fetch(...)], settled with the [ok]
    flag of the response or rejected; the boolean tells whether the
    call is suspended again, at [await response.json()]. *)
Definition after_fetch (req : Request) (res : Settled bool) (s : Session)
  : Session * bool :=
  match res with
  | Fulfilled true => (s, true)
  | Fulfilled false =>
      (on_finally req (on_catch req (Js.mkError "Error" "获取视频列表失败") s), false)
  | Rejected e => (on_finally req (on_catch req e s), false)
  end.

(** The call resumes after [await response.json()]. *)
Definition after_json (req : Request) (res : Settled Data) (s : Session) : Session :=
  match res with
  | Fulfilled data => on_finally req (on_data req data s)
  | Rejected e => on_finally req (on_catch req e s)
  end.

(** [fetch(endpoint, { signal })]: once the signal of a request is
    aborted, its pending promise (the fetch or the reading of the body)
    rejects with an [AbortError], whatever the network would have
    delivered. *)
Definition under_signal {A : Type} (s : Session) (c : nat) (raw : Settled A)
  : Settled A :=
  if is_aborted s c then Rejected AbortError else raw.

(** The fetch of the call with controller [c] settles. *)
Definition fetch_settles (c : nat) (raw : Settled bool) (s : Session) : Session :=
  match inflight s !! c with
  | Some (mkPending req AwaitFetch) =>
      let '(s', suspended) := after_fetch req (under_signal s c raw) s in
      if suspended
      then with_inflight (<[c := mkPending req AwaitJson]> (inflight s')) s'
      else with_inflight (delete c (inflight s')) s'
  | _ => s
  end.

(** The body of the call with controller [c] settles. *)
Definition json_settles (c : nat) (raw : Settled Data) (s : Session) : Session :=
  match inflight s !! c with
  | Some (mkPending req AwaitJson) =>
      let s' := after_json req (under_signal s c raw) s in
      with_inflight (delete c (inflight s')) s'
  | _ => s
  end.

(** *** The scroll observer *)

(** The callback of the [IntersectionObserver]; [r] is the render that
    installed it. *)
Definition observer_fire (isIntersecting : bool) (r : State) (s : Session) : Session :=
  if isIntersecting && hasMore r && negb (loadingMore r) && negb (loading r)
     && negb (isFetchingRef s)
  then update (fun st => set_page (page st + 1) st) s
  else s.

(** *** Renders and their effects *)

#[global] Instance SortOrder_eq_dec : EqDecision SortOrder.
Proof. solve_decision. Defined.

Inductive Effect : Type :=
| InitEffect
| ResetSourceEffect
| ResetViewEffect
| ResetSortEffect
| FetchEffect.

(** Whether the dependency array of an effect differs between the
    previous committed render and the current one; every effect runs
    after the first render. *)
Definition changed (prev : option State) (cur : State) (e : Effect) : bool :=
  match prev with
  | None => true
  | Some p =>
      match e with
      | InitEffect => false
      | ResetSourceEffect =>
          negb (bool_decide (sourceType p = sourceType cur)
                && bool_decide (embyKey p = embyKey cur))
      | ResetViewEffect =>
          negb (bool_decide (selectedView p = selectedView cur))
      | ResetSortEffect =>
          negb (bool_decide (sortBy p = sortBy cur)
                && bool_decide (sortOrder p = sortOrder cur)
                && bool_decide (sourceType p = sourceType cur))
      | FetchEffect =>
          negb (bool_decide (sourceType p = sourceType cur)
                && bool_decide (embyKey p = embyKey cur)
                && bool_decide (page p = page cur)
                && bool_decide (selectedView p = selectedView cur)
                && bool_decide (xiaoyaPath p = xiaoyaPath cur)
                && bool_decide (sortBy p = sortBy cur)
                && bool_decide (sortOrder p = sortOrder cur))
      end
  end.

(** The effects of one render, in the order of their declaration; each
    reads the values of the render and writes into the session. *)
Definition effects_pass (cfg : RuntimeConfig) (urlSource : option string)
    (which : Effect -> bool) (s : Session) : Session :=
  let r := state s in
  let s := if which InitEffect then initEffect cfg urlSource s else s in
  let s := if which ResetSourceEffect then resetOnSource s else s in
  let s := if which ResetViewEffect then resetOnView s else s in
  let s := if which ResetSortEffect then resetOnSort r s else s in
  if which FetchEffect then fetchEffect cfg r s else s.

(** A render is committed: the effects whose dependencies changed run. *)
Definition commit (cfg : RuntimeConfig) (urlSource : option string)
    (s : Session) : Session :=
  let r := state s in
  with_committed (Some r) (effects_pass cfg urlSource (changed (committed s) r) s).

(** The renders that follow a state change: the effects' own state
    changes cause at most two further renders. *)
Definition rerender (cfg : RuntimeConfig) (urlSource : option string)
    (s : Session) : Session :=
  commit cfg urlSource (commit cfg urlSource (commit cfg urlSource s)).

(** *** The session as a machine *)

(** The initial values of the [useState] cells and of the refs. *)
Definition initial_state : State :=
  {| sourceType := "openlist"; embyKey := None; videos := []; loading := true;
     loadingMore := false; error := ""; page := 1; hasMore := true;
     selectedView := "all"; sortBy := "SortName"; sortOrder := Ascending;
     xiaoyaPath := "/"; xiaoyaFolders := []; xiaoyaFiles := [] |}.

Definition initial_session : Session :=
  {| state := initial_state; isFetchingRef := false; abortControllerRef := None;
     isInitializedRef := false; aborted := ∅; nextController := 0%nat;
     inflight := ∅; requests := []; committed := None |}.

(** What happens to a mounted page. *)
Inductive Input : Type :=
| SetSourceType (v : string)
| SetEmbyKey (k : option string)
| SetSelectedView (v : string)
| HandleSortOptionSelect (v : string)
| ToggleSortOrder
| SetXiaoyaPath (p : string)
| Navigate (urlSource : option string)
| Intersect (isIntersecting : bool)
| FetchSettles (c : nat) (raw : Settled bool)
| JsonSettles (c : nat) (raw : Settled Data)
| XiaoyaSearchSettles (res : Settled (option string)).

Definition toggle (o : SortOrder) : SortOrder :=
  match o with
  | Ascending => Descending
  | Descending => Ascending
  end.

(** [handleXiaoyaSearch] from its first [await] on, as far as it writes
    a cell of the listing, which is the error alone: the cells of the
    search itself (the keyword, the results, [isSearching]) are not
    among those of the listing.  [res] is the body of an answer with an
    ok status, given by its [error] field, or the rejection of the
    fetch or of the body, which is also what a status that is not ok
    throws.  Nothing aborts a search, so it settles at any time. *)
Definition handleXiaoyaSearch (res : Settled (option string)) (s : Session) : Session :=
  match res with
  | Fulfilled data_error =>
      if truthy data_error then update (set_error (default "" data_error)) s else s
  | Rejected _ => update (set_error "搜索失败") s
  end.

(** The handler of an input, before the renders it causes. *)
Definition handle (cfg : RuntimeConfig) (i : Input) (s : Session) : Session :=
  match i with
  | SetSourceType v => update (set_sourceType v) s
  | SetEmbyKey k => update (set_embyKey k) s
  | SetSelectedView v => update (set_selectedView v) s
  | HandleSortOptionSelect v => update (set_sortBy v) s
  | ToggleSortOrder => update (set_sortOrder (toggle (sortOrder (state s)))) s
  | SetXiaoyaPath p => update (set_xiaoyaPath p) s
  | Navigate u => initEffect cfg u s
  | Intersect b => observer_fire b (state s) s
  | FetchSettles c raw => fetch_settles c raw s
  | JsonSettles c raw => json_settles c raw s
  | XiaoyaSearchSettles res => handleXiaoyaSearch res s
  end.

Definition step (cfg : RuntimeConfig) (urlSource : option string)
    (s : Session) (i : Input) : Session :=
  rerender cfg urlSource (handle cfg i s).

Definition mount (cfg : RuntimeConfig) (urlSource : option string) : Session :=
  rerender cfg urlSource initial_session.

(** The session after a sequence of inputs. *)
Definition session (cfg : RuntimeConfig) (urlSource : option string)
    (inputs : list Input) : Session :=
  fold_left (step cfg urlSource) inputs (mount cfg urlSource).


(** The request a call of [fetchVideos] sends from render [r]. *)
Definition request_of (r : State) (c : nat) : Request :=
  {| controller := c; isInitial := page r =? 1; req_sourceType := sourceType r;
     req_page := page r; endpoint := endpoint_of r |}.

(** The session after [fetchVideos] has sent its request. *)
Definition issued (r : State) (s : Session) : Session :=
  let a := abort_current s in
  let c := nextController a in
  {| state :=
       set_error ""
         (if page r =? 1 then set_loading true (state a)
          else set_loadingMore true (state a));
     isFetchingRef := true;
     abortControllerRef := Some c;
     isInitializedRef := isInitializedRef a;
     aborted := aborted a;
     nextController := S c;
     inflight := <[c := mkPending (request_of r c) AwaitFetch]> (inflight a);
     requests := requests a ++ [(c, endpoint_of r)];
     committed := committed a |}.

(** The effects of a render before the fetch effect. *)
Definition reset_effects (cfg : RuntimeConfig) (urlSource : option string)
    (which : Effect -> bool) (s : Session) : Session :=
  let r := state s in
  let s := if which InitEffect then initEffect cfg urlSource s else s in
  let s := if which ResetSourceEffect then resetOnSource s else s in
  let s := if which ResetViewEffect then resetOnView s else s in
  if which ResetSortEffect then resetOnSort r s else s.

(** The flags the [finally] block writes. *)
Definition flags (s : Session) : bool * bool * bool :=
  (loading (state s), loadingMore (state s), isFetchingRef s).

End Page.

(** ** The page talking to the endpoint *)

Module Wire.
Import Api Page.

(** An item of the endpoint, read as a [Video] by the page. *)
Definition video_of_item (i : Api.Item) : Video :=
  {| Page.id := Api.id i; folder := None; tmdbId := None;
     Page.title := Api.title i; Page.poster := Api.poster i;
     releaseDate := None; Page.year := Some (Api.year i);
     overview := None; voteAverage := None;
     Page.rating := Some (Api.rating i);
     Page.mediaType := Api.mediaType i |}.

(** A numeric field after [JSON.stringify] and [JSON.parse]: the
    non-finite numbers are sent as [null]. *)
Definition json_number (v : option JsonValue) : option Z :=
  match v with
  | Some (JNumber (Js.Int z)) => Some z
  | _ => None
  end.

(** [NextResponse.json(response)] on the server, [response.json()] in
    the page: the fields [fetchVideos] reads. *)
Definition read_json (o : Response) : Data :=
  {| d_error := match field "error" o with Some (JString e) => Some e | _ => None end;
     d_list := match field "list" o with
               | Some (JList l) => Some (map video_of_item l)
               | _ => None
               end;
     d_page := json_number (field "page" o);
     d_totalPages := json_number (field "totalPages" o);
     d_folders := None;
     d_files := None |}.

(** The endpoint answers the emby request of controller [c], and the
    page receives the answer (status 200 for a returned response, 500
    for an exception that escaped the handler).  The endpoint is
    handed the parameters of the request, which are what it reads from
    the address when the key, the view and the sort field are plain
    ([Url.is_plain]). *)
Definition answer `{Collaborators} (cfg : RuntimeConfig) (urlSource : option string)
    (c : nat) (sc : Session * Cache) : Session * Cache :=
  let '(s, store) := sc in
  match inflight s !! c with
  | Some (mkPending req AwaitFetch) =>
      match endpoint req with
      | EmbyList searchParams =>
          match serve store searchParams with
          | (Returned response, w) =>
              (step cfg urlSource
                 (step cfg urlSource s (FetchSettles c (Fulfilled true)))
                 (JsonSettles c (Fulfilled (read_json response))),
               cache w)
          | (Thrown _, w) =>
              (step cfg urlSource s (FetchSettles c (Fulfilled false)), cache w)
          end
      | _ => sc
      end
  | _ => sc
  end.

(** The endpoint answers the request of the current controller. *)
Definition answer_current `{Collaborators} (cfg : RuntimeConfig)
    (urlSource : option string) (sc : Session * Cache) : Session * Cache :=
  match abortControllerRef (fst sc) with
  | Some c => answer cfg urlSource c sc
  | None => sc
  end.

(** The sentinel comes into view, and the request that follows is
    answered. *)
Definition scroll `{Collaborators} (cfg : RuntimeConfig)
    (urlSource : option string) (sc : Session * Cache) : Session * Cache :=
  answer_current cfg urlSource (step cfg urlSource (fst sc) (Intersect true), snd sc).

End Wire.

(** ** A cache store *)

Module EmbyCache.
Import Api.

#[global] Instance number_eq_dec : EqDecision Js.number := Js.number_eq_dec.

Definition number_code (n : Js.number) : nat + Z :=
  match n with
  | Js.NaN => inl 0%nat
  | Js.PosInf => inl 1%nat
  | Js.NegInf => inl 2%nat
  | Js.Int z => inr z
  end.

Definition number_of_code (x : nat + Z) : Js.number :=
  match x with
  | inl 0%nat => Js.NaN
  | inl 1%nat => Js.PosInf
  | inl _ => Js.NegInf
  | inr z => Js.Int z
  end.

Definition number_of_code_code (n : Js.number)
  : number_of_code (number_code n) = n :=
  match n with
  | Js.NaN | Js.Int _ | Js.PosInf | Js.NegInf => eq_refl
  end.

#[global] Instance number_countable : Countable Js.number :=
  inj_countable' number_code number_of_code number_of_code_code.

(** The composite key of an entry: page, page size, container, instance. *)
Abbreviation Key := (Js.number * Js.number * option string * option string)%type.

(** Modelled from the spec: the Cache Store ([@/lib/emby-cache] is not
    among the source files).  An entry is a response with the time it
    expires at; [get] is absent for a missing or an expired entry;
    [put] replaces the entry of its key and gives it the time to live.
    The clock is part of the store; the optional capacity bound is
    left out. *)
Record Store : Type := mkStore {
  entries : gmap Key (Response * Z);
  now : Z;
}.

(** The store without entries, at time [t]. *)
Definition empty (t : Z) : Store := mkStore ∅ t.

(** Modelled from the spec: [get(key)], absent for a missing or an
    expired entry. *)
Definition get (st : Store) (page pageSize : Js.number)
    (parentId embyKey : option string) : option Response :=
  match entries st !! (page, pageSize, parentId, embyKey) with
  | Some (value, expiresAt) => if now st <? expiresAt then Some value else None
  | None => None
  end.

(** Modelled from the spec: [put(key, value, ttl)], which replaces the
    entry of the key. *)
Definition put (ttl : Z) (st : Store) (page pageSize : Js.number) (value : Response)
    (parentId embyKey : option string) : Store :=
  mkStore (<[(page, pageSize, parentId, embyKey) := (value, now st + ttl)]> (entries st))
          (now st).

(** A media server with one client for every key, which lists
    [items q] out of [total q] records for a query [q]. *)
Definition collaborators (ttl : Z) (items : ItemsQuery -> list EmbyItem)
    (total : ItemsQuery -> Z) (imageUrl : string -> string -> string)
  : Collaborators :=
  {| Cache := Store;
     getCachedEmbyList := get;
     setCachedEmbyList := put ttl;
     Client := option string;
     getClient := fun k => inr k;
     getItems := fun _ q => inr (mkItemsResult (items q) (total q));
     getImageUrl := fun _ => imageUrl |}.

End EmbyCache.

(** ** Predicates on sessions *)

Module Invariants.
Import Page.

(** What holds of every session: the page is at least 1; every
    controller created so far is aborted or is the current one; every
    suspended call was sent for a page from 1 on, under the controller
    it is filed under. *)
Record Inv (s : Session) : Prop := mkInv {
  inv_page : 1 <= page (state s);
  inv_controllers :
    forall c, (c < nextController s)%nat ->
              is_aborted s c = true \/ abortControllerRef s = Some c;
  inv_current :
    forall c, abortControllerRef s = Some c -> (c < nextController s)%nat;
  inv_inflight :
    forall c p, inflight s !! c = Some p ->
                controller (request p) = c /\ (c < nextController s)%nat /\
                1 <= req_page (request p) /\
                isInitial (request p) = (req_page (request p) =? 1);
}.

(** An operation that only writes state cells other than [page], and
    refs other than the controller ref. *)
Record Quiet (s s' : Session) : Prop := mkQuiet {
  quiet_page : page (state s') = page (state s);
  quiet_axes :
    sourceType (state s') = sourceType (state s)
    /\ embyKey (state s') = embyKey (state s)
    /\ selectedView (state s') = selectedView (state s)
    /\ sortBy (state s') = sortBy (state s)
    /\ sortOrder (state s') = sortOrder (state s)
    /\ xiaoyaPath (state s') = xiaoyaPath (state s);
  quiet_initialized : isInitializedRef s' = isInitializedRef s;
  quiet_aborted : aborted s' = aborted s;
  quiet_current : abortControllerRef s' = abortControllerRef s;
  quiet_next : nextController s' = nextController s;
  quiet_inflight : inflight s' = inflight s;
  quiet_requests : requests s' = requests s;
  quiet_committed : committed s' = committed s;
}.

(** An operation that aborts nothing and sends nothing. *)
Record Calm (s s' : Session) : Prop := mkCalm {
  calm_aborted : aborted s' = aborted s;
  calm_current : abortControllerRef s' = abortControllerRef s;
  calm_next : nextController s' = nextController s;
  calm_requests : requests s' = requests s;
}.

(** Two renders with the same values in every dependency array. *)
Definition same_deps (a b : State) : Prop :=
  sourceType a = sourceType b /\ embyKey a = embyKey b /\ page a = page b
  /\ selectedView a = selectedView b /\ xiaoyaPath a = xiaoyaPath b
  /\ sortBy a = sortBy b /\ sortOrder a = sortOrder b.

(** What a committed render leaves behind for the next one: the render
    [r] it compared with, and a page back at 1 wherever it moved the
    source, the key, the view or the page. *)
Record Settling (r : State) (s : Session) : Prop := mkSettling {
  settling_committed : committed s = Some r;
  settling_sort :
    sortBy (state s) = sortBy r /\ sortOrder (state s) = sortOrder r
    /\ xiaoyaPath (state s) = xiaoyaPath r;
  settling_source :
    sourceType (state s) <> sourceType r \/ embyKey (state s) <> embyKey r ->
    page (state s) = 1 /\ selectedView (state s) = "all";
  settling_view : selectedView (state s) <> selectedView r -> page (state s) = 1;
  settling_page : page (state s) <> page r -> page (state s) = 1;
}.

(** The listing is back at its start. *)
Definition is_reset (s : Session) : Prop :=
  videos (state s) = [] /\ page (state s) = 1 /\ hasMore (state s) = true
  /\ error (state s) = "" /\ loading (state s) = false
  /\ loadingMore (state s) = false.

End Invariants.

(** ** A session of the page against the endpoint *)

Module Scenario.
Import Api Page.
Local Open Scope list_scope.

(** Every source switched on. *)
Definition all_enabled : RuntimeConfig := mkRuntimeConfig true true true.

(** The listing query of the default sort for the items from [start] on,
    twenty at a time. *)
Definition default_query (start : Z) : ItemsQuery :=
  mkItemsQuery None "Movie,Series" true "Overview,ProductionYear" "SortName"
    "Ascending" (Js.Int start) (Js.Int 20).

(** Every source switched off. *)
Definition all_disabled : RuntimeConfig := mkRuntimeConfig false false false.

(** The page opened on the emby instance [main]. *)
Definition emby_url : option string := Some "emby:main".

(** The request of the first page that the page opened on [emby_url]
    sends, under its second controller (the first one went to the initial
    openlist render and was aborted). *)
Definition emby_request : Request :=
  {| controller := 1%nat; isInitial := true; req_sourceType := "emby"; req_page := 1;
     endpoint :=
       EmbyList
         {| q_page := Some "1"; q_pageSize := Some "20"; q_parentId := None;
            q_embyKey := Some "main"; q_sortBy := Some "SortName";
            q_sortOrder := Some "Ascending" |} |}.

(** The response of that request has arrived, its body has not. *)
Definition awaiting_body : list Input := [FetchSettles 1%nat (Fulfilled true)].

Definition a_video (name : string) : Video :=
  {| Page.id := name; folder := None; tmdbId := None; Page.title := name;
     Page.poster := ""; releaseDate := None; Page.year := None; overview := None;
     voteAverage := None; Page.rating := None; Page.mediaType := "movie" |}.

(** A page of a listing of three pages. *)
Definition one_of_three (l : list Video) : Data :=
  {| d_error := None; d_list := Some l; d_page := None; d_totalPages := Some 3;
     d_folders := None; d_files := None |}.

(** An error response. *)
Definition an_error (message : string) : Data :=
  {| d_error := Some message; d_list := Some []; d_page := None;
     d_totalPages := Some 0; d_folders := None; d_files := None |}.

(** Emby is shown, then the source is switched to openlist and its
    first page is shown. *)
Definition openlist_after_emby : list Input :=
  [ FetchSettles 1%nat (Fulfilled true);
    JsonSettles 1%nat (Fulfilled (one_of_three [a_video "e1"]));
    SetSourceType "openlist";
    FetchSettles 2%nat (Fulfilled true);
    JsonSettles 2%nat (Fulfilled (one_of_three [a_video "o1"])) ].

(** Two pages of emby are shown, then the source is switched to
    openlist and every request is answered. *)
Definition openlist_after_two_pages : list Input :=
  [ FetchSettles 1%nat (Fulfilled true);
    JsonSettles 1%nat (Fulfilled (one_of_three [a_video "e1"]));
    Intersect true;
    FetchSettles 2%nat (Fulfilled true);
    JsonSettles 2%nat (Fulfilled (one_of_three [a_video "e2"]));
    SetSourceType "openlist";
    FetchSettles 3%nat (Fulfilled true);
    FetchSettles 4%nat (Fulfilled true);
    JsonSettles 4%nat (Fulfilled (one_of_three [a_video "o1"])) ].

(** A media server with 45 records, which lists what the query asks
    for. *)
Definition record (i : Z) : EmbyItem :=
  {| Id := pretty i; Name := "Title " +:+ pretty i; ProductionYear := None;
     CommunityRating := None; Type_ := if Z.even i then "Movie" else "Series" |}.

Definition records : list EmbyItem := map record (seqZ 0 45).

Definition listing (q : ItemsQuery) : list EmbyItem :=
  match StartIndex q, Limit q with
  | Js.Int start, Js.Int limit => take (Z.to_nat limit) (drop (Z.to_nat start) records)
  | _, _ => []
  end.

Definition no_image : string -> string -> string := fun _ _ => "".

(** The endpoint over that media server and a cache that keeps its
    entries for a minute. *)
Definition library : Collaborators :=
  EmbyCache.collaborators 60 listing (fun _ => 45) no_image.

(** A request for the first page, sorted by the date of creation. *)
Definition by_date : SearchParams :=
  {| q_page := Some "1"; q_pageSize := Some "20"; q_parentId := None;
     q_embyKey := Some "main"; q_sortBy := Some "DateCreated";
     q_sortOrder := Some "Ascending" |}.

(** A first page has arrived and the sentinel can fire. *)
Definition first_page_shown : list Input :=
  awaiting_body ++ [JsonSettles 1%nat (Fulfilled (one_of_three [a_video "m1"]))].

(** Openlist and emby are switched on, xiaoya is switched off. *)
Definition xiaoya_off : RuntimeConfig := mkRuntimeConfig true true false.

(** The first page is shown and the second is asked for. *)
Definition second_page_requested : list Input :=
  first_page_shown ++ [Intersect true].

End Scenario.

(** ** Inputs of the further properties *)

Module Cases.
Import Api.

(** A request for the first page under the default sort. *)
Definition first_page : SearchParams :=
  {| q_page := Some "1"; q_pageSize := Some "20"; q_parentId := None;
     q_embyKey := Some "main"; q_sortBy := None; q_sortOrder := None |}.

(** A response that was cached earlier. *)
Definition cached_page : Response :=
  [ ("success", JBool true); ("list", JList []); ("totalPages", JNumber (Js.Int 3));
    ("currentPage", JNumber (Js.Int 1)); ("total", JNumber (Js.Int 45)) ].

(** The store that holds [cached_page] for [first_page], written at
    time 0 with a minute to live. *)
Definition warm_store : EmbyCache.Store :=
  EmbyCache.put 60 (EmbyCache.empty 0) (Js.Int 1) (Js.Int 20) cached_page None
    (Some "main").

(** An endpoint whose client manager knows no instance. *)
Definition no_instance : Collaborators :=
  {| Cache := EmbyCache.Store;
     getCachedEmbyList := EmbyCache.get;
     setCachedEmbyList := EmbyCache.put 60;
     Client := unit;
     getClient := fun _ => inl (Js.mkError "Error" "unknown emby source");
     getItems := fun _ _ => inl (Js.mkError "Error" "unreachable");
     getImageUrl := fun _ _ _ => "" |}.

End Cases.

(** ** Further predicates on sessions *)

Module Discipline.
Import Page.

(** A live call: suspended, and its controller not aborted. *)
Definition live (s : Session) (c : nat) (p : Pending) : Prop :=
  inflight s !! c = Some p /\ is_aborted s c = false.

(** What the configuration allows to be requested.  Any source type
    other than ['openlist'] and ['xiaoya'] is sent to the emby endpoint;
    the check of the emby flag and key is made for the source type
    ['emby'] alone. *)
Definition endpoint_allowed (cfg : RuntimeConfig) (e : Endpoint) : Prop :=
  match e with
  | OpenlistList p n => OPENLIST_ENABLED cfg = true /\ 1 <= p /\ n = 20
  | XiaoyaBrowse _ => XIAOYA_ENABLED cfg = true
  | EmbyList searchParams =>
      exists r,
        searchParams = emby_searchParams r /\ 1 <= page r
        /\ sourceType r <> "openlist" /\ sourceType r <> "xiaoya"
        /\ (sourceType r = "emby" ->
            EMBY_ENABLED cfg = true /\ exists k, embyKey r = Some k /\ k <> "")
  end.

(** While a call is live the fetching ref is set. *)
Definition Busy (s : Session) : Prop :=
  forall c p, live s c p -> isFetchingRef s = true.

(** A live call was sent from the committed render. *)
Definition Current (s : Session) : Prop :=
  forall c p, live s c p ->
              exists r, committed s = Some r /\ request p = request_of r c.

(** Every controller created so far has sent one request, in the order
    of creation, to an address the configuration allows. *)
Definition Logged (cfg : RuntimeConfig) (s : Session) : Prop :=
  map fst (requests s) = seq 0 (nextController s)
  /\ Forall (fun ce => endpoint_allowed cfg (snd ce)) (requests s).

(** While a call is live the loading flag of the call is set. *)
Definition Shown (s : Session) : Prop :=
  forall c p, live s c p ->
              (if isInitial (request p) then loading (state s)
               else loadingMore (state s)) = true.

(** The aborted controllers are among those created. *)
Definition Fresh (s : Session) : Prop :=
  forall c, is_aborted s c = true -> (c < nextController s)%nat.

(** Two renders of the same source: its type and its emby key. *)
Definition same_source (a b : State) : Prop :=
  sourceType a = sourceType b /\ embyKey a = embyKey b.

(** An empty listing at rest: no videos, has-more as at the start, no
    loading flag. *)
Definition blank (st : State) : Prop :=
  videos st = [] /\ hasMore st = true /\ loading st = false /\ loadingMore st = false.

(** Under a committed render whose source is switched off no call is
    live. *)
Definition Unsent (cfg : RuntimeConfig) (s : Session) : Prop :=
  forall r, committed s = Some r -> source_disabled cfg r = true ->
            forall c p, ~ live s c p.

(** Under a committed render whose source is switched off, and is
    still the source of the state, the listing is empty and at rest. *)
Definition Cleared (cfg : RuntimeConfig) (s : Session) : Prop :=
  forall r, committed s = Some r -> source_disabled cfg r = true ->
            same_source r (state s) -> blank (state s).

(** The cells of the listing that a reset puts back and a load that
    starts leaves alone. *)
Definition at_start (st : State) : Prop :=
  videos st = [] /\ page st = 1 /\ hasMore st = true /\ error st = "".

(** After a committed render of page 1 the initial-loading flag is set
    exactly when the source of the render is not switched off. *)
Definition Spinner (cfg : RuntimeConfig) (s : Session) : Prop :=
  forall r, committed s = Some r -> page r = 1 ->
            loading (state s) = negb (source_disabled cfg r).

(** The source, the key or the view of [r] differs from that of [p],
    or the sort does and the source type of [r] is ['emby']. *)
Definition axis_changed (p r : State) : Prop :=
  sourceType r <> sourceType p
  \/ embyKey r <> embyKey p
  \/ selectedView r <> selectedView p
  \/ ((sortBy r <> sortBy p \/ sortOrder r <> sortOrder p) /\ sourceType r = "emby").

End Discipline.

(** ** The toolbar and the address of the page *)

Module Toolbar.
Import Page.

(** [sortOptions]: the label and the value of each option. *)
Definition sortOptions : list (string * string) :=
  [ ("名称", "SortName");
    ("加入时间", "DateCreated");
    ("发行日期", "PremiereDate");
    ("年份", "ProductionYear");
    ("评分", "CommunityRating") ].

(** [isDefaultSort()] in render [r]. *)
Definition isDefaultSort (r : State) : bool :=
  String.eqb (sortBy r) "SortName" && bool_decide (sortOrder r = Ascending).

(** The value of the [source] parameter that the page writes into its
    own address and into the address of the player;
    [embySourceOptions_length] is [embySourceOptions.length]. *)
Definition sourceParam (sourceType : string) (embyKey : option string)
    (embySourceOptions_length : nat) : string :=
  if String.eqb sourceType "emby" && truthy embyKey
     && (1 <? embySourceOptions_length)%nat
  then "emby:" +:+ default "" embyKey
  else sourceType.

End Toolbar.

(** ** Paths of the xiaoya browser *)

Module Paths.

(** [s.split('/')] *)
Fixpoint split_slash (s : string) : list string :=
  match s with
  | EmptyString => [""]
  | String c rest =>
      if Ascii.eqb c "/" then "" :: split_slash rest
      else match split_slash rest with
           | first :: others => String c first :: others
           | [] => [String c ""]
           end
  end.

(** [.filter(Boolean)] on strings: the empty string is dropped. *)
Definition filter_Boolean (l : list string) : list string :=
  List.filter (fun x => negb (String.eqb x "")) l.

(** [l.join('/')] *)
Definition join_slash (l : list string) : string := String.concat "/" l.

(** [path.split('/').filter(Boolean)] *)
Definition pathParts (path : string) : list string :=
  filter_Boolean (split_slash path).

(** The breadcrumbs after the root: the label of each and the path its
    button sets, ['/' + arr.slice(0, index + 1).join('/')]. *)
Definition breadcrumbs (xiaoyaPath : string) : list (string * string) :=
  let arr := pathParts xiaoyaPath in
  imap (fun index part => (part, "/" +:+ join_slash (take (S index) arr))) arr.

(** [parentDir] and [fileName] of a search result that is a video file:
    ['/' + pathParts.slice(0, -1).join('/')] and
    [pathParts[pathParts.length - 1]]. *)
Definition parentDir (path : string) : string :=
  "/" +:+ join_slash (removelast (pathParts path)).

Definition fileName (path : string) : option string := last (pathParts path).

Definition has_slash (s : string) : bool :=
  existsb (fun c => Ascii.eqb c "/") (list_ascii_of_string s).

(** A segment of a path: not empty and free of slashes. *)
Definition segment (x : string) : Prop := x <> "" /\ has_slash x = false.

End Paths.

(** ** The views of an emby source *)

Module Views.
Import Page.

(** [interface EmbyView], as the effect reads it. *)
Record EmbyView : Type := mkEmbyView { view_id : string; view_name : string }.

(** The body of the answer of [/api/emby/views]. *)
Record ViewsData : Type := mkViewsData {
  v_error : option string;
  v_views : option (list EmbyView);
}.

(** The cells and the ref that [fetchEmbyViews] writes. *)
Record ViewsState : Type := mkViewsState {
  embyViews : list EmbyView;
  selectedView : string;
  hasRestoredViewRef : bool;
}.

(** [fetchEmbyViews] from [const data = await response.json()] on;
    [urlView] is [searchParams.get('view')].  A rejected fetch or
    body is caught. *)
Definition fetchEmbyViews (urlView : option string) (outcome : Settled ViewsData)
    (st : ViewsState) : ViewsState :=
  match outcome with
  | Rejected _ => mkViewsState [] (selectedView st) (hasRestoredViewRef st)
  | Fulfilled data =>
      if truthy (v_error data)
      then mkViewsState [] (selectedView st) (hasRestoredViewRef st)
      else
        let views := default [] (v_views data) in
        if negb (hasRestoredViewRef st) then
          let viewExists :=
            existsb (fun v => String.eqb (view_id v) (default "" urlView)) views in
          let chosen :=
            if truthy urlView
               && match v_views data with
                  | Some l => (0 <? length l)%nat
                  | None => false
                  end
               && viewExists
            then default "" urlView
            else selectedView st in
          mkViewsState views chosen true
        else mkViewsState views (selectedView st) (hasRestoredViewRef st)
  end.

(** The loads of the views one after the other. *)
Definition loads (urlView : option string) (outcomes : list (Settled ViewsData))
    (st : ViewsState) : ViewsState :=
  fold_left (fun st outcome => fetchEmbyViews urlView outcome st) outcomes st.

(** A load that fails: rejected, or answered with an error. *)
Definition failed (outcome : Settled ViewsData) : bool :=
  match outcome with
  | Rejected _ => true
  | Fulfilled data => truthy (v_error data)
  end.

End Views.

(** ** Decimal numerals *)

Module Numerals.

(** A decimal digit. *)
Definition is_digit (c : ascii) : bool :=
  let n := Z.of_nat (nat_of_ascii c) in (48 <=? n) && (n <=? 57).

Fixpoint all_digits (s : string) : bool :=
  match s with
  | EmptyString => true
  | String c rest => is_digit c && all_digits rest
  end.

End Numerals.

(** * Properties of the listing endpoint *)

Module ApiProperties.
Import Api.

Section Endpoint.
Context `{C : Collaborators}.

Lemma isDefaultSort_true (sortBy sortOrder : string) :
  isDefaultSort sortBy sortOrder = true <->
  sortBy = "SortName" /\ sortOrder = "Ascending".
Proof.
  unfold isDefaultSort. rewrite andb_true_iff, !String.eqb_eq. reflexivity.
Qed.

Lemma isDefaultSort_false (sortBy sortOrder : string) :
  isDefaultSort sortBy sortOrder = false <->
  ~ (sortBy = "SortName" /\ sortOrder = "Ascending").
Proof.
  rewrite <- isDefaultSort_true. destruct (isDefaultSort sortBy sortOrder); split;
    congruence.
Qed.

(** Unfolds a call of the handler into its case analysis. *)
Ltac unfold_GET :=
  unfold serve, GET, try_catch, bind, cache_get, cache_set, manager_getClient,
    client_getItems, emit, lift, ret, throw; cbn [cache log].

(** Settles the facts about a concrete event log. *)
Ltac events_facts :=
  repeat (intros;
          match goal with
          | |- _ /\ _ => split
          | |- _ <-> _ => split
          | H : _ /\ _ |- _ => destruct H
          | H : exists _, _ |- _ => destruct H
          | H : In _ (_ :: _) |- _ => destruct H
          | H : In _ [] |- _ => destruct H
          | H : _ \/ _ |- _ => destruct H
          | H : inr _ = inr _ |- _ => inversion H; subst; clear H
          | H : ?x = inr _, H' : ?x = inr _ |- _ => rewrite H in H'
          end);
  subst; try discriminate; try congruence; try tauto; cbn; eauto 8.

(** C1. The cache is read exactly for the default sort, and before
    any upstream call; the response of a successful upstream fetch
    is written to the cache exactly for the default sort; under any
    other sort the call goes to the media server and the cache is
    neither read nor written, so that the same request made again
    goes to the media server again.  Under the default sort an entry
    of the cache is served as it is, with no upstream call and the
    cache left as it was; without an entry the answer of the media
    server is returned and the cache after the call is the cache with
    that answer stored under the page, the page size, the container
    and the instance of the request. *)
Theorem GET_caches_iff_default_sort (store : Cache) (searchParams : SearchParams) :
  let default :=
    sortBy_of searchParams = "SortName" /\ sortOrder_of searchParams = "Ascending" in
  let page := page_of searchParams in
  let pageSize := pageSize_of searchParams in
  let parentId := parentId_of searchParams in
  let embyKey := embyKey_of searchParams in
  let query := itemsQuery_of searchParams in
  let out := serve store searchParams in
  let events := log (snd out) in
  ((exists e, In e events /\ is_cache_read e = true) <-> default) /\
  (default ->
   exists rest, events = CacheRead page pageSize parentId embyKey :: rest /\
                forallb (fun e => negb (is_cache_read e)) rest = true) /\
  (forall client result,
      In (GetItems query) events ->
      getClient embyKey = inr client ->
      getItems client query = inr result ->
      fst out = Returned (live_response searchParams client result) /\
      (In (CacheWrite page pageSize (live_response searchParams client result)
             parentId embyKey) events <-> default)) /\
  ((exists e, In e events /\ is_cache_write e = true) -> default) /\
  (~ default ->
   (exists rest, events = GetClient embyKey :: rest) /\
   (forall client, getClient embyKey = inr client -> In (GetItems query) events) /\
   forallb (fun e => negb (is_cache_read e || is_cache_write e)) events = true /\
   cache (snd out) = store /\
   log (snd (serve (cache (snd out)) searchParams)) = events) /\
  (default ->
   forall hit,
     getCachedEmbyList store page pageSize parentId embyKey = Some hit ->
     out = (Returned hit,
            mkWorld store [CacheRead page pageSize parentId embyKey])) /\
  (default ->
   getCachedEmbyList store page pageSize parentId embyKey = None ->
   forall client result,
     getClient embyKey = inr client ->
     getItems client query = inr result ->
     let response := live_response searchParams client result in
     out = (Returned response,
            mkWorld (setCachedEmbyList store page pageSize response parentId embyKey)
              [CacheRead page pageSize parentId embyKey; GetClient embyKey;
               GetItems query;
               CacheWrite page pageSize response parentId embyKey])).
Proof.
  intros default page pageSize parentId embyKey query out events.
  subst out events. unfold_GET.
  fold page pageSize parentId embyKey query.
  destruct (isDefaultSort (sortBy_of searchParams) (sortOrder_of searchParams)) eqn:Hd;
    [ pose proof (proj1 (isDefaultSort_true _ _) Hd) as Hdef
    | pose proof (proj1 (isDefaultSort_false _ _) Hd) as Hdef ];
    fold default in Hdef; clearbody default; cbn;
    try destruct (getCachedEmbyList store page pageSize parentId embyKey)
      as [hit|] eqn:Hc; cbn;
    try (destruct (getClient embyKey) as [e|client] eqn:Hcl; cbn;
         try (destruct (getItems client query) as [e|result] eqn:Hit; cbn));
    events_facts.
Qed.

Lemma serve_live (store : Cache) (searchParams : SearchParams)
    (client : Client) (result : ItemsResult) :
  cache_miss store searchParams ->
  getClient (embyKey_of searchParams) = inr client ->
  getItems client (itemsQuery_of searchParams) = inr result ->
  fst (serve store searchParams)
  = Returned (live_response searchParams client result).
Proof.
  intros Hmiss Hcl Hit. unfold_GET.
  destruct (isDefaultSort _ _) eqn:Hd; cbn.
  - destruct Hmiss as [Hm|Hm]; [congruence|]. rewrite Hm. cbn.
    rewrite Hcl. cbn. rewrite Hit. reflexivity.
  - rewrite Hcl. cbn. rewrite Hit. reflexivity.
Qed.

(** C3. The handler never throws.  It returns the cached response on
    a hit, the success object when the media server answers, and the
    failure object when the client or the listing fails; the failure
    object has the rendering fields of the success object, with the
    same kinds of values, and only success objects are ever written
    to the cache. *)
Theorem GET_never_throws (store : Cache) (searchParams : SearchParams) :
  let page := page_of searchParams in
  let pageSize := pageSize_of searchParams in
  let embyKey := embyKey_of searchParams in
  let query := itemsQuery_of searchParams in
  let out := serve store searchParams in
  (exists response,
      fst out = Returned response /\
      ((isDefaultSort (sortBy_of searchParams) (sortOrder_of searchParams) = true /\
        getCachedEmbyList store page pageSize (parentId_of searchParams) embyKey
        = Some response)
       \/ (exists client result,
              getClient embyKey = inr client /\
              getItems client query = inr result /\
              response =
                [ ("success", JBool true);
                  ("list", JList (map (normalize client) (Items result)));
                  ("totalPages",
                   JNumber (Js.ceil_div (TotalRecordCount result) pageSize));
                  ("currentPage", JNumber page);
                  ("total", JNumber (Js.Int (TotalRecordCount result))) ])
       \/ (exists e,
              (getClient embyKey = inl e \/
               exists client,
                 getClient embyKey = inr client /\ getItems client query = inl e) /\
              response =
                [ ("error", JString ("获取 Emby 列表失败: " +:+ Js.message e));
                  ("list", JList []);
                  ("totalPages", JNumber (Js.Int 0));
                  ("currentPage", JNumber page);
                  ("total", JNumber (Js.Int 0)) ]))) /\
  (forall e p list totalPages total,
      rendering_shape (failure_response e p)
      = rendering_shape (success_response list totalPages p total) /\
      rendering_shape (failure_response e p)
      = [Some KList; Some KNumber; Some KNumber; Some KNumber]) /\
  (forall p ps r parentId k,
      In (CacheWrite p ps r parentId k) (log (snd out)) ->
      field "success" r = Some (JBool true)).
Proof.
  intros page pageSize embyKey query out. subst out. unfold_GET.
  fold page pageSize embyKey query.
  destruct (isDefaultSort (sortBy_of searchParams) (sortOrder_of searchParams)) eqn:Hd;
    cbn;
    try destruct (getCachedEmbyList store page pageSize (parentId_of searchParams)
                    embyKey) as [hit|] eqn:Hc; cbn;
    try (destruct (getClient embyKey) as [e|client] eqn:Hcl; cbn;
         try (destruct (getItems client query) as [e|result] eqn:Hit; cbn));
    (split; [eexists; split; [reflexivity|] | split; [intros; repeat split; reflexivity|]]);
    try (left; split; reflexivity);
    try (right; left; eexists _, _; repeat split; reflexivity);
    try (right; right; eexists; split; [|reflexivity]; eauto);
    events_facts.
  match goal with H : CacheWrite _ _ _ _ _ = _ |- _ => inversion H end.
  reflexivity.
Qed.

(** C9. A missing rating becomes zero and a missing year the empty
    string; the handler answers with the success object, one
    normalised item for each item of the media server, whatever
    fields the items lack. *)
Theorem normalize_missing_fields (client : Client) (item : EmbyItem) :
  (CommunityRating item = None -> rating (normalize client item) = 0%Qc) /\
  (ProductionYear item = None -> year (normalize client item) = "") /\
  (forall store searchParams result,
      cache_miss store searchParams ->
      getClient (embyKey_of searchParams) = inr client ->
      getItems client (itemsQuery_of searchParams) = inr result ->
      In item (Items result) ->
      exists totalPages,
        fst (serve store searchParams)
        = Returned (success_response (map (normalize client) (Items result))
                      totalPages (page_of searchParams) (TotalRecordCount result)) /\
        In (normalize client item) (map (normalize client) (Items result))).
Proof.
  split; [|split].
  - intros Hr. cbn. unfold rating_of. now rewrite Hr.
  - intros Hy. cbn. unfold year_of. now rewrite Hy.
  - intros store searchParams result Hmiss Hcl Hit Hin.
    eexists. split.
    + rewrite (serve_live store searchParams client result Hmiss Hcl Hit).
      reflexivity.
    + now apply in_map.
Qed.

(** C10. The media type is ['movie'] exactly for the backend type
    ['Movie'] and ['tv'] for every other backend type. *)
Theorem mediaType_movie_or_tv (client : Client) (item : EmbyItem) :
  (mediaType (normalize client item) = "movie" <-> Type_ item = "Movie") /\
  (mediaType (normalize client item) = "tv" <-> Type_ item <> "Movie").
Proof.
  cbn. unfold mediaType_of.
  destruct (String.eqb_spec (Type_ item) "Movie") as [Heq|Hne]; split; split;
    intros; try congruence; try discriminate.
Qed.

End Endpoint.

Lemma GET_caches_iff_default_sort_witness :
  let out := serve (C := Scenario.library) (EmbyCache.empty 0) Cases.first_page in
  let response :=
    live_response (C := Scenario.library) Cases.first_page (Some "main")
      (mkItemsResult (Scenario.listing (itemsQuery_of Cases.first_page)) 45) in
  let stored : EmbyCache.Store :=
    EmbyCache.put 60 (EmbyCache.empty 0) (Js.Int 1) (Js.Int 20) response None
      (Some "main") in
  (sortBy_of Cases.first_page = "SortName"
   /\ sortOrder_of Cases.first_page = "Ascending")
  /\ EmbyCache.get (EmbyCache.empty 0) (Js.Int 1) (Js.Int 20) None (Some "main") = None
  /\ fst out = Returned response
  /\ cache (snd out) = stored
  /\ EmbyCache.get stored (Js.Int 1) (Js.Int 20) None (Some "main") = Some response
  /\ serve (C := Scenario.library) (cache (snd out)) Cases.first_page
     = (Returned response,
        mkWorld (cache (snd out)) [CacheRead (Js.Int 1) (Js.Int 20) None (Some "main")]).
Proof.
  intros out response stored.
  assert (D : sortBy_of Cases.first_page = "SortName"
              /\ sortOrder_of Cases.first_page = "Ascending")
    by (split; reflexivity).
  assert (G : EmbyCache.get stored (Js.Int 1) (Js.Int 20) None (Some "main")
              = Some response).
  { unfold EmbyCache.get, stored, EmbyCache.put.
    cbn [EmbyCache.entries EmbyCache.now EmbyCache.empty].
    rewrite lookup_insert_eq. reflexivity. }
  destruct (GET_caches_iff_default_sort (C := Scenario.library) (EmbyCache.empty 0)
              Cases.first_page)
    as (_ & _ & _ & _ & _ & _ & Hmiss).
  destruct (GET_caches_iff_default_sort (C := Scenario.library) stored
              Cases.first_page)
    as (_ & _ & _ & _ & _ & Hhit & _).
  pose proof (Hmiss D eq_refl (Some "main") _ eq_refl eq_refl) as E.
  pose proof (Hhit D response G) as E'.
  split; [exact D|].
  split; [reflexivity|].
  split; [exact (f_equal fst E)|].
  split; [exact (f_equal (fun o => cache (snd o)) E)|].
  split; [exact G|].
  unfold out.
  rewrite (f_equal (fun o => cache (snd o)) E).
  exact E'.
Defined.

Lemma normalize_missing_fields_witness :
  CommunityRating (Scenario.record 7) = None
  /\ ProductionYear (Scenario.record 7) = None
  /\ rating (normalize (C := Scenario.library) (Some "main") (Scenario.record 7)) = 0%Qc
  /\ year (normalize (C := Scenario.library) (Some "main") (Scenario.record 7)) = "".
Proof.
  destruct (normalize_missing_fields (C := Scenario.library) (Some "main")
              (Scenario.record 7))
    as (Hr & Hy & _).
  exact (conj eq_refl (conj eq_refl (conj (Hr eq_refl) (Hy eq_refl)))).
Defined.

End ApiProperties.

(** * Properties of the listing session *)

Module PageProperties.
Import Page Invariants Scenario.

(** ** Invariants of a session *)

Lemma is_aborted_true (s : Session) (c : nat) : is_aborted s c = true <-> c ∈ aborted s.
Proof. unfold is_aborted. apply bool_decide_eq_true. Qed.

(** An operation that leaves the controllers and the suspended calls
    alone, and the page at least 1, keeps the invariant. *)
Lemma Inv_frame (s s' : Session) :
  Inv s ->
  1 <= page (state s') ->
  aborted s' = aborted s ->
  abortControllerRef s' = abortControllerRef s ->
  nextController s' = nextController s ->
  inflight s' = inflight s ->
  Inv s'.
Proof.
  intros [Hp Hc Hcur Hfl] Hp' Ha Hr Hn Hf.
  split; unfold is_aborted in *; rewrite ?Ha, ?Hr, ?Hn, ?Hf; auto.
Qed.

Lemma is_aborted_abort_current (s : Session) (c : nat) :
  is_aborted (abort_current s) c = true <->
  is_aborted s c = true \/ abortControllerRef s = Some c.
Proof.
  unfold abort_current. rewrite !is_aborted_true.
  destruct (abortControllerRef s) as [c'|]; cbn.
  - rewrite elem_of_union, elem_of_singleton. split.
    + intros [->|H]; auto.
    + intros [H|H]; [auto | left; congruence].
  - split; [auto | intros [H|H]; [auto | discriminate]].
Qed.

Lemma abort_current_frame (s : Session) :
  state (abort_current s) = state s
  /\ isInitializedRef (abort_current s) = isInitializedRef s
  /\ isFetchingRef (abort_current s) = isFetchingRef s
  /\ nextController (abort_current s) = nextController s
  /\ abortControllerRef (abort_current s) = abortControllerRef s
  /\ inflight (abort_current s) = inflight s
  /\ requests (abort_current s) = requests s
  /\ committed (abort_current s) = committed s.
Proof.
  unfold abort_current. destruct (abortControllerRef s) eqn:E; cbn; repeat split;
    congruence.
Qed.

Lemma abort_current_Inv (s : Session) : Inv s -> Inv (abort_current s).
Proof.
  intros [Hp Hc Hcur Hfl].
  destruct (abort_current_frame s) as (Hs1 & _ & _ & Hs3 & Hs4 & Hs5 & _).
  split; rewrite ?Hs1, ?Hs3, ?Hs4, ?Hs5; auto.
  intros c Hlt. left. apply is_aborted_abort_current.
  destruct (Hc c Hlt); auto.
Qed.

(** After the abort at the head of [fetchVideos], every controller
    created so far is aborted. *)
Lemma abort_current_all (s : Session) (c : nat) :
  Inv s -> (c < nextController s)%nat -> is_aborted (abort_current s) c = true.
Proof.
  intros HI Hlt. apply is_aborted_abort_current. apply (inv_controllers s HI c Hlt).
Qed.

Lemma abort_current_idem (s : Session) : abort_current (abort_current s) = abort_current s.
Proof.
  unfold abort_current. destruct (abortControllerRef s) as [c|] eqn:E; cbn; rewrite E.
  - unfold with_aborted; cbn. f_equal. apply set_eq. intros x.
    rewrite !elem_of_union. tauto.
  - reflexivity.
Qed.

Lemma fetchVideos_disabled (cfg : RuntimeConfig) (r : State) (s : Session) :
  source_disabled cfg r = true ->
  fetchVideos cfg r s = update (set_loading false) (abort_current s).
Proof.
  unfold source_disabled, fetchVideos. intros H.
  destruct (String.eqb (sourceType r) "openlist" && negb (OPENLIST_ENABLED cfg)); [easy|].
  destruct (String.eqb (sourceType r) "emby"
            && (negb (EMBY_ENABLED cfg) || negb (truthy (embyKey r)))); [easy|].
  destruct (String.eqb (sourceType r) "xiaoya" && negb (XIAOYA_ENABLED cfg)); [easy|].
  discriminate.
Qed.

Lemma fetchVideos_enabled (cfg : RuntimeConfig) (r : State) (s : Session) :
  source_disabled cfg r = false ->
  fetchVideos cfg r s = issued r s.
Proof.
  unfold source_disabled, fetchVideos, issued. intros H.
  destruct (String.eqb (sourceType r) "openlist" && negb (OPENLIST_ENABLED cfg)); [easy|].
  destruct (String.eqb (sourceType r) "emby"
            && (negb (EMBY_ENABLED cfg) || negb (truthy (embyKey r)))); [easy|].
  destruct (String.eqb (sourceType r) "xiaoya" && negb (XIAOYA_ENABLED cfg)); [easy|].
  unfold request_of. destruct (page r =? 1); reflexivity.
Qed.

Lemma issued_Inv (r : State) (s : Session) : 1 <= page r -> Inv s -> Inv (issued r s).
Proof.
  intros Hr HI. pose proof (abort_current_Inv s HI) as [Hp Hc Hcur Hfl].
  pose proof (abort_current_all s) as Hall.
  destruct (abort_current_frame s) as (_ & _ & _ & Hn & _).
  split; cbn.
  - destruct (page r =? 1); cbn; exact Hp.
  - intros c Hlt.
    destruct (decide (c = nextController (abort_current s))) as [->|Hne]; [now right|].
    left. unfold is_aborted; cbn. apply Hall; [exact HI | rewrite <- Hn; lia].
  - intros c [= <-]. lia.
  - intros c p Hl.
    destruct (decide (nextController (abort_current s) = c)) as [<-|Hne].
    + rewrite lookup_insert_eq in Hl. injection Hl as <-. cbn. auto.
    + rewrite lookup_insert_ne in Hl by exact Hne.
      destruct (Hfl c p Hl) as (H1 & H2 & H3 & H4). repeat split; auto.
Qed.

Lemma fetchVideos_Inv (cfg : RuntimeConfig) (r : State) (s : Session) :
  1 <= page r -> Inv s -> Inv (fetchVideos cfg r s).
Proof.
  intros Hr HI. destruct (source_disabled cfg r) eqn:Hd.
  - rewrite fetchVideos_disabled by exact Hd.
    apply (Inv_frame (abort_current s)); try reflexivity.
    + now apply abort_current_Inv.
    + cbn. apply (inv_page _ (abort_current_Inv s HI)).
  - rewrite fetchVideos_enabled by exact Hd. now apply issued_Inv.
Qed.

Lemma fetchEffect_Inv (cfg : RuntimeConfig) (r : State) (s : Session) :
  1 <= page r -> Inv s -> Inv (fetchEffect cfg r s).
Proof.
  intros Hr HI. unfold fetchEffect. apply fetchVideos_Inv; [exact Hr|].
  now apply abort_current_Inv.
Qed.

Lemma Quiet_refl (s : Session) : Quiet s s.
Proof. split; auto 10. Qed.

Lemma Quiet_trans (s1 s2 s3 : Session) : Quiet s1 s2 -> Quiet s2 s3 -> Quiet s1 s3.
Proof.
  intros [A1 (B1 & B2 & B3 & B4 & B5 & B6) C1 D1 E1 F1 G1 H1 I1]
         [A2 (B1' & B2' & B3' & B4' & B5' & B6') C2 D2 E2 F2 G2 H2 I2].
  split; try congruence. repeat split; congruence.
Qed.

Lemma Quiet_Inv (s s' : Session) : Quiet s s' -> Inv s -> Inv s'.
Proof.
  intros [A B C D E F G H I] HI. apply (Inv_frame s); auto.
  rewrite A. apply (inv_page s HI).
Qed.

Lemma Quiet_is_aborted (s s' : Session) (c : nat) :
  Quiet s s' -> is_aborted s' c = is_aborted s c.
Proof. intros Q. unfold is_aborted. now rewrite (quiet_aborted _ _ Q). Qed.

(** Proves [Quiet] for an operation built from the state setters. *)
Ltac quiet :=
  repeat match goal with
         | |- context [if ?b then _ else _] => destruct b
         | |- context [match ?x with _ => _ end] => destruct x
         end;
  try apply Quiet_refl; split; cbn; auto 10.

Lemma on_catch_Quiet (req : Request) (e : Js.Error) (s : Session) :
  Quiet s (on_catch req e s).
Proof. unfold on_catch. quiet. Qed.

Lemma on_finally_Quiet (req : Request) (s : Session) : Quiet s (on_finally req s).
Proof. unfold on_finally. quiet. Qed.

Lemma handleXiaoyaSearch_Quiet (res : Settled (option string)) (s : Session) :
  Quiet s (handleXiaoyaSearch res s).
Proof. unfold handleXiaoyaSearch. quiet. Qed.

Lemma on_data_Quiet (req : Request) (data : Data) (s : Session) :
  Quiet s (on_data req data s).
Proof. unfold on_data. quiet. Qed.

Lemma after_fetch_Quiet (req : Request) (res : Settled bool) (s : Session) :
  Quiet s (fst (after_fetch req res s)).
Proof.
  unfold after_fetch. destruct res as [[|]|e]; cbn [fst].
  - apply Quiet_refl.
  - eapply Quiet_trans; [apply on_catch_Quiet | apply on_finally_Quiet].
  - eapply Quiet_trans; [apply on_catch_Quiet | apply on_finally_Quiet].
Qed.

Lemma after_json_Quiet (req : Request) (res : Settled Data) (s : Session) :
  Quiet s (after_json req res s).
Proof.
  unfold after_json. destruct res as [data|e].
  - eapply Quiet_trans; [apply on_data_Quiet | apply on_finally_Quiet].
  - eapply Quiet_trans; [apply on_catch_Quiet | apply on_finally_Quiet].
Qed.

(** Changing the table of suspended calls to a smaller one, or to one
    where a call has moved to its second [await], keeps the invariant. *)
Lemma with_inflight_Inv (m : gmap nat Pending) (s : Session) :
  Inv s ->
  (forall c p, m !! c = Some p ->
               exists p', inflight s !! c = Some p' /\ request p' = request p) ->
  Inv (with_inflight m s).
Proof.
  intros [Hp Hc Hcur Hfl] Hm. split; cbn; auto.
  intros c p Hl. destruct (Hm c p Hl) as (p' & Hl' & Hreq). rewrite <- Hreq.
  now apply Hfl.
Qed.

Lemma fetch_settles_Inv (c : nat) (raw : Settled bool) (s : Session) :
  Inv s -> Inv (fetch_settles c raw s).
Proof.
  intros HI. unfold fetch_settles.
  destruct (inflight s !! c) as [[req [|]]|] eqn:Hl; try exact HI.
  pose proof (after_fetch_Quiet req (under_signal s c raw) s) as Q.
  destruct (after_fetch req (under_signal s c raw) s) as [s' suspended]. cbn in Q.
  pose proof (Quiet_Inv _ _ Q HI) as HI'.
  destruct suspended; apply with_inflight_Inv; try exact HI'; intros c' p Hl';
    rewrite (quiet_inflight _ _ Q).
  - destruct (decide (c = c')) as [<-|Hne].
    + rewrite lookup_insert_eq in Hl'. injection Hl' as <-. eauto.
    + rewrite lookup_insert_ne in Hl' by exact Hne.
      rewrite (quiet_inflight _ _ Q) in Hl'. eauto.
  - apply lookup_delete_Some in Hl' as [_ Hl'].
    rewrite (quiet_inflight _ _ Q) in Hl'. eauto.
Qed.

Lemma json_settles_Inv (c : nat) (raw : Settled Data) (s : Session) :
  Inv s -> Inv (json_settles c raw s).
Proof.
  intros HI. unfold json_settles.
  destruct (inflight s !! c) as [[req [|]]|] eqn:Hl; try exact HI.
  pose proof (after_json_Quiet req (under_signal s c raw) s) as Q.
  pose proof (Quiet_Inv _ _ Q HI) as HI'.
  apply with_inflight_Inv; try exact HI'. intros c' p Hl'.
  apply lookup_delete_Some in Hl' as [_ Hl']. eauto.
Qed.

Lemma update_Inv (f : State -> State) (s : Session) :
  1 <= page (f (state s)) -> Inv s -> Inv (update f s).
Proof. intros Hp HI. now apply (Inv_frame s). Qed.

Lemma resetOnSource_Inv (s : Session) : Inv s -> Inv (resetOnSource s).
Proof.
  intros HI. unfold resetOnSource. destruct (negb (isInitializedRef s)); [exact HI|].
  apply (Inv_frame s); auto. cbn. lia.
Qed.

Lemma resetOnView_Inv (s : Session) : Inv s -> Inv (resetOnView s).
Proof.
  intros HI. unfold resetOnView. destruct (negb (isInitializedRef s)); [exact HI|].
  apply (Inv_frame s); auto. cbn. lia.
Qed.

Lemma resetOnSort_Inv (r : State) (s : Session) : Inv s -> Inv (resetOnSort r s).
Proof.
  intros HI. unfold resetOnSort. destruct (negb (isInitializedRef s)); [exact HI|].
  destruct (negb (String.eqb (sourceType r) "emby")); [exact HI|].
  apply (Inv_frame s); auto. cbn. lia.
Qed.

Lemma initEffect_Inv (cfg : RuntimeConfig) (u : option string) (s : Session) :
  Inv s -> Inv (initEffect cfg u s).
Proof.
  intros HI. pose proof (inv_page s HI) as Hp. unfold initEffect.
  apply (Inv_frame s); auto;
    repeat match goal with
           | |- context [if ?b then _ else _] => destruct b
           end; cbn; auto.
Qed.

Lemma initEffect_initialized (cfg : RuntimeConfig) (u : option string) (s : Session) :
  isInitializedRef (initEffect cfg u s) = true.
Proof. reflexivity. Qed.

Lemma observer_fire_Inv (b : bool) (r : State) (s : Session) :
  Inv s -> Inv (observer_fire b r s).
Proof.
  intros HI. pose proof (inv_page s HI) as Hp. unfold observer_fire.
  destruct (_ && _); [|exact HI]. apply (Inv_frame s); auto. cbn. lia.
Qed.

Lemma handle_Inv (cfg : RuntimeConfig) (i : Input) (s : Session) :
  Inv s -> Inv (handle cfg i s).
Proof.
  intros HI. pose proof (inv_page s HI) as Hp.
  destruct i; cbn [handle];
    try (apply update_Inv; [exact Hp | exact HI]).
  - now apply initEffect_Inv.
  - now apply observer_fire_Inv.
  - now apply fetch_settles_Inv.
  - now apply json_settles_Inv.
  - exact (Quiet_Inv _ _ (handleXiaoyaSearch_Quiet res s) HI).
Qed.

Lemma effects_pass_Inv (cfg : RuntimeConfig) (u : option string)
    (which : Effect -> bool) (s : Session) :
  Inv s -> Inv (effects_pass cfg u which s).
Proof.
  intros HI. pose proof (inv_page s HI) as Hp. unfold effects_pass.
  assert (H1 : Inv (if which InitEffect then initEffect cfg u s else s)).
  { destruct (which InitEffect); [now apply initEffect_Inv | exact HI]. }
  set (s1 := if which InitEffect then initEffect cfg u s else s) in *.
  assert (H2 : Inv (if which ResetSourceEffect then resetOnSource s1 else s1)).
  { destruct (which ResetSourceEffect); [now apply resetOnSource_Inv | exact H1]. }
  set (s2 := if which ResetSourceEffect then resetOnSource s1 else s1) in *.
  assert (H3 : Inv (if which ResetViewEffect then resetOnView s2 else s2)).
  { destruct (which ResetViewEffect); [now apply resetOnView_Inv | exact H2]. }
  set (s3 := if which ResetViewEffect then resetOnView s2 else s2) in *.
  assert (H4 : Inv (if which ResetSortEffect then resetOnSort (state s) s3 else s3)).
  { destruct (which ResetSortEffect); [now apply resetOnSort_Inv | exact H3]. }
  set (s4 := if which ResetSortEffect then resetOnSort (state s) s3 else s3) in *.
  destruct (which FetchEffect); [now apply fetchEffect_Inv | exact H4].
Qed.

Lemma commit_Inv (cfg : RuntimeConfig) (u : option string) (s : Session) :
  Inv s -> Inv (commit cfg u s).
Proof.
  intros HI. unfold commit.
  apply (Inv_frame (effects_pass cfg u (changed (committed s) (state s)) s)); auto.
  - now apply effects_pass_Inv.
  - cbn. apply inv_page. now apply effects_pass_Inv.
Qed.

Lemma rerender_Inv (cfg : RuntimeConfig) (u : option string) (s : Session) :
  Inv s -> Inv (rerender cfg u s).
Proof. intros HI. unfold rerender. now do 3 apply commit_Inv. Qed.

Lemma step_Inv (cfg : RuntimeConfig) (u : option string) (s : Session) (i : Input) :
  Inv s -> Inv (step cfg u s i).
Proof. intros HI. unfold step. now apply rerender_Inv, handle_Inv. Qed.

Lemma initial_session_Inv : Inv initial_session.
Proof.
  split; cbn; try lia; try discriminate.
Qed.

Lemma fold_step_Inv (cfg : RuntimeConfig) (u : option string) (inputs : list Input) :
  forall s, Inv s -> Inv (fold_left (step cfg u) inputs s).
Proof.
  induction inputs as [|i inputs IH]; intros s HI; cbn; [exact HI|].
  apply IH. now apply step_Inv.
Qed.

(** Every session keeps the invariant. *)
Lemma session_Inv (cfg : RuntimeConfig) (u : option string) (inputs : list Input) :
  Inv (session cfg u inputs).
Proof.
  unfold session, mount. apply fold_step_Inv, rerender_Inv, initial_session_Inv.
Qed.

(** ** Resumed calls *)

Lemma under_signal_live {A : Type} (s : Session) (c : nat) (raw : Settled A) :
  is_aborted s c = false -> under_signal s c raw = raw.
Proof. unfold under_signal. now intros ->. Qed.

Lemma under_signal_aborted {A : Type} (s : Session) (c : nat) (raw : Settled A) :
  is_aborted s c = true -> under_signal s c raw = Rejected AbortError.
Proof. unfold under_signal. now intros ->. Qed.

Lemma state_json_settles (c : nat) (req : Request) (raw : Settled Data) (s : Session) :
  inflight s !! c = Some (mkPending req AwaitJson) ->
  state (json_settles c raw s) = state (after_json req (under_signal s c raw) s).
Proof. unfold json_settles. now intros ->. Qed.

Lemma state_fetch_settles (c : nat) (req : Request) (raw : Settled bool) (s : Session) :
  inflight s !! c = Some (mkPending req AwaitFetch) ->
  state (fetch_settles c raw s) = state (fst (after_fetch req (under_signal s c raw) s)).
Proof.
  unfold fetch_settles. intros ->.
  destruct (after_fetch req (under_signal s c raw) s) as [s' [|]]; reflexivity.
Qed.

(** The state after the [catch] and [finally] blocks of a call that was
    not aborted, for an error other than the abort. *)
Lemma state_caught (req : Request) (e : Js.Error) (s : Session) :
  is_aborted s (controller req) = false ->
  Js.name e <> "AbortError" ->
  let st' := state (on_finally req (on_catch req e s)) in
  error st' = "获取视频列表失败"
  /\ videos st' = (if isInitial req then [] else videos (state s))
  /\ hasMore st' = hasMore (state s)
  /\ page st' = page (state s)
  /\ loading st' = (if isInitial req then false else loading (state s))
  /\ loadingMore st' = (if isInitial req then loadingMore (state s) else false).
Proof.
  intros Hlive Hname. cbn zeta.
  unfold on_finally. rewrite (Quiet_is_aborted _ _ _ (on_catch_Quiet req e s)), Hlive.
  unfold on_catch. apply String.eqb_neq in Hname. rewrite Hname.
  destruct (isInitial req); cbn; auto 10.
Qed.

(** The state after the [try] and [finally] blocks of a call that was
    not aborted and received an error response. *)
Lemma state_error_response (req : Request) (data : Data) (s : Session) :
  is_aborted s (controller req) = false ->
  truthy (d_error data) = true ->
  let st' := state (on_finally req (on_data req data s)) in
  Some (error st') = d_error data
  /\ videos st' = (if isInitial req then [] else videos (state s))
  /\ hasMore st' = hasMore (state s)
  /\ page st' = page (state s)
  /\ loading st' = (if isInitial req then false else loading (state s))
  /\ loadingMore st' = (if isInitial req then loadingMore (state s) else false).
Proof.
  intros Hlive Herr. cbn zeta.
  unfold on_finally. rewrite (Quiet_is_aborted _ _ _ (on_data_Quiet req data s)), Hlive.
  unfold on_data. rewrite Herr.
  destruct (d_error data) as [msg|]; [|discriminate].
  destruct (isInitial req); cbn; auto 10.
Qed.

(** C6. A failed fetch of a call that was not superseded surfaces the
    error; the videos are emptied when the call was for page 1 and kept
    as they were for a later page, where nothing but the error (and the
    loading flag of the call) changes.  A fetch fails by an error
    response, by a rejected fetch or body, or by a status that is not
    ok. *)
Theorem failed_fetch_surfaces_error (cfg : RuntimeConfig) (urlSource : option string)
    (inputs : list Input) (c : nat) (req : Request) (ph : Phase) :
  let s := session cfg urlSource inputs in
  inflight s !! c = Some (mkPending req ph) ->
  is_aborted s c = false ->
  let outcome (message : string) (st' : State) :=
    error st' = message
    /\ (req_page req = 1 -> videos st' = [])
    /\ (req_page req <> 1 -> videos st' = videos (state s))
    /\ hasMore st' = hasMore (state s)
    /\ page st' = page (state s) in
  (ph = AwaitJson ->
   forall data message,
     d_error data = Some message -> message <> "" ->
     outcome message (state (json_settles c (Fulfilled data) s))) /\
  (ph = AwaitJson ->
   forall e, Js.name e <> "AbortError" ->
     outcome "获取视频列表失败" (state (json_settles c (Rejected e) s))) /\
  (ph = AwaitFetch ->
   forall e, Js.name e <> "AbortError" ->
     outcome "获取视频列表失败" (state (fetch_settles c (Rejected e) s))) /\
  (ph = AwaitFetch ->
   outcome "获取视频列表失败" (state (fetch_settles c (Fulfilled false) s))).
Proof.
  intros s Hl Hlive outcome. subst outcome.
  destruct (inv_inflight s (session_Inv cfg urlSource inputs) c _ Hl)
    as (Hc & _ & _ & Hinit).
  cbn in Hc, Hinit. rewrite <- Hc in Hlive.
  assert (Hone : req_page req = 1 -> isInitial req = true).
  { intros E. rewrite Hinit. now apply Z.eqb_eq. }
  assert (Hmore : req_page req <> 1 -> isInitial req = false).
  { intros E. rewrite Hinit. now apply Z.eqb_neq. }
  repeat split; intros; subst ph;
    try (rewrite (state_json_settles c req _ s Hl));
    try (rewrite (state_fetch_settles c req _ s Hl));
    rewrite under_signal_live by (rewrite <- Hc; exact Hlive); cbn [after_json after_fetch fst];
    try match goal with
      | Hd : d_error ?data = Some ?m, Hm : ?m <> "" |- _ =>
          let T := fresh in
          assert (T : truthy (d_error data) = true)
            by (rewrite Hd; cbn; now apply negb_true_iff, String.eqb_neq);
          destruct (state_error_response req data s Hlive T) as (E1 & E2 & E3 & E4 & _);
          rewrite Hd in E1; injection E1 as E1
      | Hn : Js.name ?e <> "AbortError" |- _ =>
          destruct (state_caught req e s Hlive Hn) as (E1 & E2 & E3 & E4 & _)
      | |- _ =>
          destruct (state_caught req (Js.mkError "Error" "获取视频列表失败") s Hlive
                      ltac:(discriminate)) as (E1 & E2 & E3 & E4 & _)
      end;
    try assumption;
    try (rewrite E2, Hone by assumption; reflexivity);
    try (rewrite E2, Hmore by assumption; reflexivity).
Qed.

Lemma failed_fetch_surfaces_error_witness :
  let s := session all_enabled emby_url awaiting_body in
  inflight s !! 1%nat = Some (mkPending emby_request AwaitJson)
  /\ is_aborted s 1 = false
  /\ error (state (json_settles 1 (Fulfilled (an_error "no such view")) s))
     = "no such view"
  /\ videos (state (json_settles 1 (Fulfilled (an_error "no such view")) s)) = [].
Proof.
  intros s.
  assert (H1 : inflight s !! 1%nat = Some (mkPending emby_request AwaitJson))
    by (vm_compute; reflexivity).
  assert (H2 : is_aborted s 1 = false) by (vm_compute; reflexivity).
  destruct (failed_fetch_surfaces_error all_enabled emby_url awaiting_body
              1%nat emby_request AwaitJson H1 H2) as (H & _).
  destruct (H eq_refl (an_error "no such view") "no such view" eq_refl
              ltac:(discriminate)) as (E1 & E2 & _).
  exact (conj H1 (conj H2 (conj E1 (E2 eq_refl)))).
Defined.

(** ** Controllers *)

Lemma Calm_refl (s : Session) : Calm s s.
Proof. now split. Qed.

Lemma Calm_trans (s1 s2 s3 : Session) : Calm s1 s2 -> Calm s2 s3 -> Calm s1 s3.
Proof. intros [] []. split; congruence. Qed.

Lemma Quiet_Calm (s s' : Session) : Quiet s s' -> Calm s s'.
Proof. intros []. now split. Qed.

(** Proves [Calm] for an operation built from the setters. *)
Ltac calm :=
  repeat match goal with
         | |- context [if ?b then _ else _] => destruct b
         | |- context [match ?x with _ => _ end] => destruct x
         end;
  try apply Calm_refl; split; reflexivity.

Lemma initEffect_Calm (cfg : RuntimeConfig) (u : option string) (s : Session) :
  Calm s (initEffect cfg u s).
Proof. unfold initEffect. calm. Qed.

Lemma resetOnSource_Calm (s : Session) : Calm s (resetOnSource s).
Proof. unfold resetOnSource. calm. Qed.

Lemma resetOnView_Calm (s : Session) : Calm s (resetOnView s).
Proof. unfold resetOnView. calm. Qed.

Lemma resetOnSort_Calm (r : State) (s : Session) : Calm s (resetOnSort r s).
Proof. unfold resetOnSort. calm. Qed.

Lemma observer_fire_Calm (b : bool) (r : State) (s : Session) :
  Calm s (observer_fire b r s).
Proof. unfold observer_fire. calm. Qed.

Lemma fetch_settles_Calm (c : nat) (raw : Settled bool) (s : Session) :
  Calm s (fetch_settles c raw s).
Proof.
  unfold fetch_settles.
  destruct (inflight s !! c) as [[req [|]]|]; try apply Calm_refl.
  pose proof (Quiet_Calm _ _ (after_fetch_Quiet req (under_signal s c raw) s)) as Q.
  destruct (after_fetch req (under_signal s c raw) s) as [s' [|]]; cbn in Q;
    destruct Q; now split.
Qed.

Lemma json_settles_Calm (c : nat) (raw : Settled Data) (s : Session) :
  Calm s (json_settles c raw s).
Proof.
  unfold json_settles.
  destruct (inflight s !! c) as [[req [|]]|]; try apply Calm_refl.
  pose proof (Quiet_Calm _ _ (after_json_Quiet req (under_signal s c raw) s)) as Q.
  destruct Q; now split.
Qed.

Lemma handle_Calm (cfg : RuntimeConfig) (i : Input) (s : Session) :
  Calm s (handle cfg i s).
Proof.
  destruct i; cbn [handle]; try (now split).
  - apply initEffect_Calm.
  - apply observer_fire_Calm.
  - apply fetch_settles_Calm.
  - apply json_settles_Calm.
  - apply Quiet_Calm, handleXiaoyaSearch_Quiet.
Qed.

Lemma effects_pass_split (cfg : RuntimeConfig) (u : option string)
    (which : Effect -> bool) (s : Session) :
  effects_pass cfg u which s =
  if which FetchEffect
  then fetchEffect cfg (state s) (reset_effects cfg u which s)
  else reset_effects cfg u which s.
Proof. reflexivity. Qed.

Lemma reset_effects_Calm (cfg : RuntimeConfig) (u : option string)
    (which : Effect -> bool) (s : Session) :
  Calm s (reset_effects cfg u which s).
Proof.
  unfold reset_effects.
  repeat match goal with
         | |- Calm _ (if ?b then _ else _) => destruct b
         | |- Calm _ (resetOnSort _ _) =>
             eapply Calm_trans; [|apply resetOnSort_Calm]
         | |- Calm _ (resetOnView _) => eapply Calm_trans; [|apply resetOnView_Calm]
         | |- Calm _ (resetOnSource _) => eapply Calm_trans; [|apply resetOnSource_Calm]
         | |- Calm _ (initEffect _ _ _) => apply initEffect_Calm
         | |- Calm ?s ?s => apply Calm_refl
         end.
Qed.

Lemma reset_effects_Inv (cfg : RuntimeConfig) (u : option string)
    (which : Effect -> bool) (s : Session) :
  Inv s -> Inv (reset_effects cfg u which s).
Proof.
  intros HI.
  pose proof (effects_pass_Inv cfg u
                (fun e => match e with FetchEffect => false | _ => which e end) s HI) as H.
  exact H.
Qed.

(** [fetchVideos] aborts the current controller and no other. *)
Lemma aborted_fetchVideos (cfg : RuntimeConfig) (r : State) (s : Session) :
  aborted (fetchVideos cfg r s) = aborted (abort_current s).
Proof.
  destruct (source_disabled cfg r) eqn:Hd.
  - now rewrite fetchVideos_disabled.
  - now rewrite fetchVideos_enabled.
Qed.

(** The fetch effect aborts every controller created before it. *)
Lemma fetchEffect_aborts_all (cfg : RuntimeConfig) (r : State) (s : Session) (c : nat) :
  Inv s -> (c < nextController s)%nat -> is_aborted (fetchEffect cfg r s) c = true.
Proof.
  intros HI Hlt. unfold fetchEffect, is_aborted.
  rewrite aborted_fetchVideos, abort_current_idem. now apply abort_current_all.
Qed.

Lemma fetchEffect_keeps_aborted (cfg : RuntimeConfig) (r : State) (s : Session) (c : nat) :
  is_aborted s c = true -> is_aborted (fetchEffect cfg r s) c = true.
Proof.
  intros H. unfold fetchEffect, is_aborted.
  rewrite aborted_fetchVideos, abort_current_idem.
  apply is_aborted_abort_current. now left.
Qed.

Lemma nextController_fetchEffect (cfg : RuntimeConfig) (r : State) (s : Session) :
  (nextController s <= nextController (fetchEffect cfg r s))%nat.
Proof.
  unfold fetchEffect. destruct (abort_current_frame s) as (_ & _ & _ & Hn & _).
  destruct (source_disabled cfg r) eqn:Hd.
  - rewrite fetchVideos_disabled by exact Hd. cbn.
    destruct (abort_current_frame (abort_current s)) as (_ & _ & _ & Hn' & _). lia.
  - rewrite fetchVideos_enabled by exact Hd. cbn.
    destruct (abort_current_frame (abort_current s)) as (_ & _ & _ & Hn' & _). lia.
Qed.

(** A committed render either sends nothing, or aborts every controller
    created before it; it never revives an aborted controller. *)
Lemma commit_controllers (cfg : RuntimeConfig) (u : option string) (s : Session) :
  Inv s ->
  (requests (commit cfg u s) = requests s
   \/ forall c, (c < nextController s)%nat -> is_aborted (commit cfg u s) c = true)
  /\ (forall c, is_aborted s c = true -> is_aborted (commit cfg u s) c = true)
  /\ (nextController s <= nextController (commit cfg u s))%nat.
Proof.
  intros HI. unfold commit. set (which := changed (committed s) (state s)).
  rewrite effects_pass_split.
  pose proof (reset_effects_Calm cfg u which s) as [Ha Hc Hn Hr].
  pose proof (reset_effects_Inv cfg u which s HI) as HI'.
  unfold is_aborted in *. cbn [aborted requests nextController with_committed].
  destruct (which FetchEffect).
  - split; [right | split].
    + intros c Hlt. apply fetchEffect_aborts_all; [exact HI' | now rewrite Hn].
    + intros c H. apply fetchEffect_keeps_aborted. unfold is_aborted. now rewrite Ha.
    + rewrite <- Hn. apply nextController_fetchEffect.
  - split; [left; exact Hr | split].
    + intros c. now rewrite Ha.
    + now rewrite Hn.
Qed.

Lemma rerender_controllers (cfg : RuntimeConfig) (u : option string) (s : Session) :
  Inv s ->
  requests (rerender cfg u s) = requests s
  \/ forall c, (c < nextController s)%nat -> is_aborted (rerender cfg u s) c = true.
Proof.
  intros HI. unfold rerender.
  set (s1 := commit cfg u s). set (s2 := commit cfg u s1).
  pose proof (commit_Inv cfg u s HI) as HI1. fold s1 in HI1.
  pose proof (commit_Inv cfg u s1 HI1) as HI2. fold s2 in HI2.
  destruct (commit_controllers cfg u s HI) as (H1 & K1 & N1). fold s1 in H1, K1, N1.
  destruct (commit_controllers cfg u s1 HI1) as (H2 & K2 & N2). fold s2 in H2, K2, N2.
  destruct (commit_controllers cfg u s2 HI2) as (H3 & K3 & N3).
  destruct H1 as [H1|H1]; [|right; intros c Hlt; apply K3, K2, H1, Hlt].
  destruct H2 as [H2|H2]; [|right; intros c Hlt; apply K3, H2; lia].
  destruct H3 as [H3|H3]; [left; congruence|].
  right. intros c Hlt. apply H3. lia.
Qed.

Lemma on_catch_abort (req : Request) (s : Session) : on_catch req AbortError s = s.
Proof. reflexivity. Qed.

Lemma on_finally_aborted (req : Request) (s : Session) :
  is_aborted s (controller req) = true -> on_finally req s = s.
Proof. unfold on_finally. now intros ->. Qed.

Lemma flags_on_catch (req : Request) (e : Js.Error) (s : Session) :
  flags (on_catch req e s) = flags s.
Proof.
  unfold on_catch.
  repeat match goal with |- context [if ?b then _ else _] => destruct b end; reflexivity.
Qed.

Lemma flags_on_data (req : Request) (data : Data) (s : Session) :
  flags (on_data req data s) = flags s.
Proof.
  unfold on_data.
  repeat match goal with |- context [if ?b then _ else _] => destruct b end; reflexivity.
Qed.

(** The promise of an aborted call settles: the call leaves the table
    of suspended calls and does nothing else. *)
Lemma fetch_settles_stale (c : nat) (raw : Settled bool) (s : Session) :
  Inv s -> is_aborted s c = true ->
  fetch_settles c raw s = s
  \/ fetch_settles c raw s = with_inflight (delete c (inflight s)) s.
Proof.
  intros HI H. unfold fetch_settles.
  destruct (inflight s !! c) as [[req [|]]|] eqn:Hl; auto.
  destruct (inv_inflight s HI c _ Hl) as (Hc & _). cbn in Hc.
  rewrite under_signal_aborted by exact H. cbn [after_fetch].
  rewrite on_catch_abort, on_finally_aborted by (now rewrite Hc). now right.
Qed.

Lemma json_settles_stale (c : nat) (raw : Settled Data) (s : Session) :
  Inv s -> is_aborted s c = true ->
  json_settles c raw s = s
  \/ json_settles c raw s = with_inflight (delete c (inflight s)) s.
Proof.
  intros HI H. unfold json_settles.
  destruct (inflight s !! c) as [[req [|]]|] eqn:Hl; auto.
  destruct (inv_inflight s HI c _ Hl) as (Hc & _). cbn in Hc.
  rewrite under_signal_aborted by exact H. cbn [after_json].
  rewrite on_catch_abort, on_finally_aborted by (now rewrite Hc). now right.
Qed.

(** ** Has-more *)

Lemma or_number_nonzero (v : option Z) (d : Z) : d <> 0 -> or_number v d <> 0.
Proof.
  intros Hd. unfold or_number. destruct v as [x|]; [|exact Hd].
  destruct (Z.eqb_spec x 0); auto.
Qed.

(** The state after the [try] and [finally] blocks of a call that was
    not aborted and received a response without error. *)
Lemma hasMore_success (req : Request) (data : Data) (s : Session) :
  is_aborted s (controller req) = false ->
  truthy (d_error data) = false ->
  hasMore (state (on_finally req (on_data req data s)))
  = if String.eqb (req_sourceType req) "xiaoya" then false
    else or_number (d_page data) (req_page req) <? or_number (d_totalPages data) 1.
Proof.
  intros Hlive Herr.
  unfold on_finally. rewrite (Quiet_is_aborted _ _ _ (on_data_Quiet req data s)), Hlive.
  unfold on_data. rewrite Herr.
  destruct (String.eqb (req_sourceType req) "xiaoya"), (isInitial req); reflexivity.
Qed.

(** C4. After a successful fetch of a paginated source (a source other
    than xiaoya), has-more is true exactly when the current page (the
    page of the response when it names one, the requested page otherwise)
    is below the total pages of the response, so for a current page that
    does not exceed the total it is false exactly when the two are equal;
    after a successful fetch of xiaoya it is false. *)
Theorem hasMore_after_successful_fetch (cfg : RuntimeConfig)
    (urlSource : option string) (inputs : list Input) (c : nat) (req : Request)
    (data : Data) :
  let s := session cfg urlSource inputs in
  inflight s !! c = Some (mkPending req AwaitJson) ->
  is_aborted s c = false ->
  truthy (d_error data) = false ->
  let s' := json_settles c (Fulfilled data) s in
  let currentPage := or_number (d_page data) (req_page req) in
  (d_page data = None -> currentPage = req_page req) /\
  (req_sourceType req <> "xiaoya" ->
   forall totalPages,
     d_totalPages data = Some totalPages ->
     (hasMore (state s') = true <-> currentPage < totalPages) /\
     (currentPage <= totalPages ->
      (hasMore (state s') = false <-> currentPage = totalPages))) /\
  (req_sourceType req = "xiaoya" -> hasMore (state s') = false).
Proof.
  intros s Hl Hlive Herr s' currentPage.
  destruct (inv_inflight s (session_Inv cfg urlSource inputs) c _ Hl)
    as (Hc & _ & Hpage & _).
  cbn in Hc, Hpage.
  assert (Hcp : currentPage <> 0) by (apply or_number_nonzero; lia).
  assert (Hs' : hasMore (state s')
                = if String.eqb (req_sourceType req) "xiaoya" then false
                  else currentPage <? or_number (d_totalPages data) 1).
  { subst s'. rewrite (state_json_settles c req _ s Hl).
    rewrite under_signal_live by exact Hlive. cbn [after_json].
    apply hasMore_success; [now rewrite Hc | exact Herr]. }
  split; [|split].
  - intros Hp. subst currentPage. now rewrite Hp.
  - intros Hsrc totalPages Htp. apply String.eqb_neq in Hsrc.
    rewrite Hs', Hsrc, Htp. cbn [or_number].
    destruct (Z.eqb_spec totalPages 0) as [->|Hne].
    + split.
      * rewrite Z.ltb_lt. lia.
      * intros Hle. rewrite Z.ltb_ge. lia.
    + split.
      * now rewrite Z.ltb_lt.
      * intros Hle. rewrite Z.ltb_ge. lia.
  - intros Hsrc. apply String.eqb_eq in Hsrc. now rewrite Hs', Hsrc.
Qed.

Lemma hasMore_after_successful_fetch_witness :
  let s := session all_enabled emby_url awaiting_body in
  inflight s !! 1%nat = Some (mkPending emby_request AwaitJson)
  /\ is_aborted s 1 = false
  /\ truthy (d_error (one_of_three [])) = false
  /\ (hasMore (state (json_settles 1 (Fulfilled (one_of_three [])) s)) = true
      <-> 1 < 3).
Proof.
  intros s.
  assert (H1 : inflight s !! 1%nat = Some (mkPending emby_request AwaitJson))
    by (vm_compute; reflexivity).
  assert (H2 : is_aborted s 1 = false) by (vm_compute; reflexivity).
  assert (H3 : truthy (d_error (one_of_three [])) = false) by reflexivity.
  destruct (hasMore_after_successful_fetch all_enabled emby_url awaiting_body
              1%nat emby_request (one_of_three []) H1 H2 H3) as (_ & H & _).
  destruct (H ltac:(discriminate) 3 eq_refl) as (E & _).
  exact (conj H1 (conj H2 (conj H3 E))).
Defined.

(** ** Initialisation *)

Lemma initialized_fetchEffect (cfg : RuntimeConfig) (r : State) (s : Session) :
  isInitializedRef (fetchEffect cfg r s) = isInitializedRef s.
Proof.
  unfold fetchEffect.
  destruct (abort_current_frame s) as (_ & H1 & _).
  destruct (abort_current_frame (abort_current s)) as (_ & H2 & _).
  destruct (source_disabled cfg r) eqn:Hd.
  - rewrite fetchVideos_disabled by exact Hd. cbn. congruence.
  - rewrite fetchVideos_enabled by exact Hd. cbn. congruence.
Qed.

Lemma initialized_reset_effects (cfg : RuntimeConfig) (u : option string)
    (which : Effect -> bool) (s : Session) :
  isInitializedRef s = true \/ which InitEffect = true ->
  isInitializedRef (reset_effects cfg u which s) = true.
Proof.
  intros H. unfold reset_effects, resetOnSort, resetOnView, resetOnSource, initEffect.
  destruct (which InitEffect);
    repeat match goal with
           | |- context [if ?b then _ else _] => destruct b
           end; cbn; destruct H; auto; discriminate.
Qed.

Lemma initialized_commit (cfg : RuntimeConfig) (u : option string) (s : Session) :
  isInitializedRef s = true \/ committed s = None ->
  isInitializedRef (commit cfg u s) = true.
Proof.
  intros H. unfold commit. rewrite effects_pass_split. cbn [isInitializedRef with_committed].
  assert (Hr : isInitializedRef
                 (reset_effects cfg u (changed (committed s) (state s)) s) = true).
  { apply initialized_reset_effects. destruct H as [H|H]; [now left|right].
    now rewrite H. }
  destruct (changed (committed s) (state s) FetchEffect); [|exact Hr].
  now rewrite initialized_fetchEffect.
Qed.

Lemma initialized_handle (cfg : RuntimeConfig) (i : Input) (s : Session) :
  isInitializedRef s = true -> isInitializedRef (handle cfg i s) = true.
Proof.
  intros H. destruct i; cbn [handle]; try exact H; try reflexivity.
  - unfold observer_fire. now destruct (_ && _).
  - unfold fetch_settles. destruct (inflight s !! c) as [[req [|]]|]; try exact H.
    pose proof (after_fetch_Quiet req (under_signal s c raw) s) as Q.
    destruct (after_fetch req (under_signal s c raw) s) as [s' [|]]; cbn in *;
      now rewrite (quiet_initialized _ _ Q).
  - unfold json_settles. destruct (inflight s !! c) as [[req [|]]|]; try exact H.
    pose proof (after_json_Quiet req (under_signal s c raw) s) as Q. cbn.
    now rewrite (quiet_initialized _ _ Q).
  - now rewrite (quiet_initialized _ _ (handleXiaoyaSearch_Quiet res s)).
Qed.

Lemma initialized_rerender (cfg : RuntimeConfig) (u : option string) (s : Session) :
  isInitializedRef s = true \/ committed s = None ->
  isInitializedRef (rerender cfg u s) = true.
Proof.
  intros H. unfold rerender.
  do 2 (apply initialized_commit; left). now apply initialized_commit.
Qed.

(** Every session is initialised: the init effect runs first among the
    effects of the first render. *)
Lemma session_initialized (cfg : RuntimeConfig) (u : option string)
    (inputs : list Input) :
  isInitializedRef (session cfg u inputs) = true.
Proof.
  unfold session.
  assert (H : isInitializedRef (mount cfg u) = true).
  { exact (initialized_rerender cfg u initial_session (or_intror eq_refl)). }
  revert H. generalize (mount cfg u).
  induction inputs as [|i inputs IH]; intros s H; cbn; [exact H|].
  apply IH. unfold step. apply initialized_rerender. left. now apply initialized_handle.
Qed.

(** ** Renders settle *)

Lemma same_deps_refl (a : State) : same_deps a a.
Proof. repeat split. Qed.

Lemma same_deps_trans (a b c : State) : same_deps a b -> same_deps b c -> same_deps a c.
Proof. unfold same_deps. intuition congruence. Qed.

Lemma changed_same_deps (p r : State) (e : Effect) :
  same_deps p r -> changed (Some p) r e = false.
Proof.
  intros (H1 & H2 & H3 & H4 & H5 & H6 & H7). unfold changed.
  rewrite H1, H2, H3, H4, H5, H6, H7.
  destruct e; rewrite ?bool_decide_eq_true_2 by reflexivity; reflexivity.
Qed.

Lemma effects_pass_none (cfg : RuntimeConfig) (u : option string)
    (which : Effect -> bool) (s : Session) :
  (forall e, which e = false) -> effects_pass cfg u which s = s.
Proof. intros H. unfold effects_pass. now rewrite !H. Qed.

Lemma state_fetchEffect (cfg : RuntimeConfig) (r : State) (s : Session) :
  same_deps (state s) (state (fetchEffect cfg r s)).
Proof.
  unfold fetchEffect.
  destruct (abort_current_frame s) as (H1 & _).
  destruct (abort_current_frame (abort_current s)) as (H2 & _).
  destruct (source_disabled cfg r) eqn:Hd.
  - rewrite fetchVideos_disabled by exact Hd. cbn. rewrite H2, H1. repeat split.
  - rewrite fetchVideos_enabled by exact Hd. cbn. rewrite H2, H1.
    destruct (page r =? 1); repeat split.
Qed.

Lemma Settling_deps (r : State) (s s' : Session) :
  same_deps (state s) (state s') -> committed s' = committed s ->
  Settling r s -> Settling r s'.
Proof.
  intros (H1 & H2 & H3 & H4 & H5 & H6 & H7) Hc [A1 A2 A3 A4 A5].
  split; rewrite <- ?H1, <- ?H2, <- ?H3, <- ?H4, <- ?H5, <- ?H6, <- ?H7; auto.
  congruence.
Qed.

Lemma committed_fetchEffect (cfg : RuntimeConfig) (r : State) (s : Session) :
  committed (fetchEffect cfg r s) = committed s.
Proof.
  unfold fetchEffect.
  destruct (abort_current_frame s) as (_ & _ & _ & _ & _ & _ & _ & H1).
  destruct (abort_current_frame (abort_current s)) as (_ & _ & _ & _ & _ & _ & _ & H2).
  destruct (source_disabled cfg r) eqn:Hd.
  - rewrite fetchVideos_disabled by exact Hd. cbn. congruence.
  - rewrite fetchVideos_enabled by exact Hd. cbn. congruence.
Qed.

(** Decides the cases of the reset effects of a render. *)
Ltac reset_cases :=
  unfold reset_effects, resetOnSort, resetOnView, resetOnSource, initEffect;
  cbn [changed];
  repeat match goal with
         | |- context [if ?b then _ else _] => destruct b eqn:?
         end;
  cbn in *; try discriminate.

Lemma reset_effects_Settling (cfg : RuntimeConfig) (u : option string) (s : Session) :
  let which := changed (committed s) (state s) in
  Settling (state s) (with_committed (Some (state s)) (reset_effects cfg u which s)).
Proof.
  intros which. subst which.
  destruct (committed s) as [p|] eqn:Hp.
  - (* a later render: the init effect does not run *)
    reset_cases; split; cbn; try tauto; auto.
  - (* the first render: every effect runs, the init effect first *)
    reset_cases; split; cbn; try tauto; auto.
Qed.

Lemma commit_Settling (cfg : RuntimeConfig) (u : option string) (s : Session) :
  Settling (state s) (commit cfg u s).
Proof.
  unfold commit. rewrite effects_pass_split.
  pose proof (reset_effects_Settling cfg u s) as H. cbn zeta in H.
  destruct (changed (committed s) (state s) FetchEffect); [|exact H].
  eapply Settling_deps; [| |exact H]; cbn.
  - apply state_fetchEffect.
  - reflexivity.
Qed.

(** The resets of the render after a settling one leave the
    dependencies where they are. *)
Lemma reset_effects_settled (cfg : RuntimeConfig) (u : option string)
    (r : State) (s : Session) :
  Settling r s ->
  same_deps (state s) (state (reset_effects cfg u (changed (Some r) (state s)) s)).
Proof.
  intros [A1 (A2 & A2' & A2'') A3 A4 A5].
  unfold reset_effects, resetOnSort, resetOnView, resetOnSource. cbn [changed].
  rewrite A2, A2'.
  destruct (bool_decide (sourceType r = sourceType (state s))) eqn:E1;
    destruct (bool_decide (embyKey r = embyKey (state s))) eqn:E2;
    destruct (bool_decide (selectedView r = selectedView (state s))) eqn:E3;
    rewrite ?bool_decide_eq_true_2 by reflexivity;
    try apply bool_decide_eq_true in E1; try apply bool_decide_eq_false in E1;
    try apply bool_decide_eq_true in E2; try apply bool_decide_eq_false in E2;
    try apply bool_decide_eq_true in E3; try apply bool_decide_eq_false in E3;
    cbn [negb andb];
    destruct (isInitializedRef s) eqn:Ei;
    destruct (String.eqb (sourceType (state s)) "emby") eqn:Ee;
    repeat (cbn; rewrite ?Ei, ?Ee);
    unfold same_deps; cbn;
    try (assert (H1 : page (state s) = 1 /\ selectedView (state s) = "all")
           by (apply A3; first [left; congruence | right; congruence]);
         destruct H1 as [H1 H1']; rewrite ?H1, ?H1');
    try (assert (H2 : page (state s) = 1) by (apply A4; congruence); rewrite ?H2);
    repeat split.
Qed.

Lemma commit_settled (cfg : RuntimeConfig) (u : option string) (r : State) (s : Session) :
  Settling r s -> same_deps (state s) (state (commit cfg u s)).
Proof.
  intros H. unfold commit. rewrite (settling_committed r s H), effects_pass_split.
  pose proof (reset_effects_settled cfg u r s H) as Hr.
  destruct (changed (Some r) (state s) FetchEffect); cbn; [|exact Hr].
  eapply same_deps_trans; [exact Hr | apply state_fetchEffect].
Qed.

(** After the renders that follow a state change, the committed render
    is the current state: no effect is left to run. *)
Lemma rerender_settled (cfg : RuntimeConfig) (u : option string) (s : Session) :
  committed (rerender cfg u s) = Some (state (rerender cfg u s)).
Proof.
  unfold rerender. set (s1 := commit cfg u s). set (s2 := commit cfg u s1).
  pose proof (commit_Settling cfg u s) as H1. fold s1 in H1.
  pose proof (commit_settled cfg u _ s1 H1) as H2. fold s2 in H2.
  assert (Hc : committed s2 = Some (state s1)) by reflexivity.
  unfold commit at 1 2. rewrite Hc.
  rewrite effects_pass_none by (intros e; now apply changed_same_deps).
  reflexivity.
Qed.

Lemma session_settled (cfg : RuntimeConfig) (u : option string) (inputs : list Input) :
  committed (session cfg u inputs) = Some (state (session cfg u inputs)).
Proof.
  unfold session. destruct inputs as [|i inputs] using rev_ind.
  - exact (rerender_settled cfg u initial_session).
  - rewrite fold_left_app. cbn [fold_left]. unfold step at 1 3.
    exact (rerender_settled cfg u _).
Qed.

(** In a settled session, a change of nothing runs no effect. *)
Lemma rerender_idle (cfg : RuntimeConfig) (u : option string) (s : Session) :
  committed s = Some (state s) -> rerender cfg u s = s.
Proof.
  intros H.
  assert (Hc : commit cfg u s = s).
  { unfold commit. rewrite H.
    rewrite effects_pass_none by (intros e; apply changed_same_deps, same_deps_refl).
    destruct s; cbn in *. now rewrite H. }
  unfold rerender. now rewrite !Hc.
Qed.

(** ** Resets *)

Lemma resetOnSource_is_reset (s : Session) :
  isInitializedRef s = true -> is_reset (resetOnSource s).
Proof. intros H. unfold resetOnSource. rewrite H. cbn. repeat split. Qed.

Lemma resetOnView_is_reset (s : Session) :
  isInitializedRef s = true -> is_reset (resetOnView s).
Proof. intros H. unfold resetOnView. rewrite H. cbn. repeat split. Qed.

Lemma resetOnSort_is_reset (r : State) (s : Session) :
  isInitializedRef s = true -> sourceType r = "emby" -> is_reset (resetOnSort r s).
Proof. intros H E. unfold resetOnSort. rewrite H, E. cbn. repeat split. Qed.

Lemma resetOnSort_other_source (r : State) (s : Session) :
  sourceType r <> "emby" -> resetOnSort r s = s.
Proof.
  intros E. unfold resetOnSort. apply String.eqb_neq in E. rewrite E.
  now destruct (negb (isInitializedRef s)).
Qed.

Lemma committed_handle (cfg : RuntimeConfig) (i : Input) (s : Session) :
  committed (handle cfg i s) = committed s.
Proof.
  destruct i; cbn [handle]; try reflexivity.
  - unfold initEffect.
    repeat match goal with |- context [if ?b then _ else _] => destruct b end;
      reflexivity.
  - unfold observer_fire. now destruct (_ && _).
  - unfold fetch_settles. destruct (inflight s !! c) as [[req [|]]|]; try reflexivity.
    pose proof (after_fetch_Quiet req (under_signal s c raw) s) as Q.
    destruct (after_fetch req (under_signal s c raw) s) as [s' [|]]; cbn in *;
      apply (quiet_committed _ _ Q).
  - unfold json_settles. destruct (inflight s !! c) as [[req [|]]|]; try reflexivity.
    apply (quiet_committed _ _ (after_json_Quiet req (under_signal s c raw) s)).
  - apply (quiet_committed _ _ (handleXiaoyaSearch_Quiet res s)).
Qed.

Lemma resetOnView_keeps_reset (s : Session) : is_reset s -> is_reset (resetOnView s).
Proof.
  intros H. unfold resetOnView. destruct (negb (isInitializedRef s)); [exact H|].
  cbn. repeat split.
Qed.

Lemma resetOnSort_keeps_reset (r : State) (s : Session) :
  is_reset s -> is_reset (resetOnSort r s).
Proof.
  intros H. unfold resetOnSort. destruct (negb (isInitializedRef s)); [exact H|].
  destruct (negb (String.eqb (sourceType r) "emby")); [exact H|].
  cbn. repeat split.
Qed.

(** The resets of a render after the first one. *)
Lemma reset_effects_later (cfg : RuntimeConfig) (u : option string)
    (p : State) (s : Session) :
  reset_effects cfg u (changed (Some p) (state s)) s
  = let which := changed (Some p) (state s) in
    let s1 := if which ResetSourceEffect then resetOnSource s else s in
    let s2 := if which ResetViewEffect then resetOnView s1 else s1 in
    if which ResetSortEffect then resetOnSort (state s) s2 else s2.
Proof. reflexivity. Qed.

Lemma reset_chain (bS bV bT : bool) (r : State) (s : Session) :
  isInitializedRef s = true ->
  bS = true \/ bV = true \/ (bT = true /\ sourceType r = "emby") ->
  is_reset (let s1 := if bS then resetOnSource s else s in
            let s2 := if bV then resetOnView s1 else s1 in
            if bT then resetOnSort r s2 else s2).
Proof.
  intros Hi H. cbn zeta.
  destruct bS.
  - pose proof (resetOnSource_is_reset s Hi) as H1.
    destruct bV, bT; auto using resetOnView_keeps_reset, resetOnSort_keeps_reset.
  - destruct bV.
    + pose proof (resetOnView_is_reset s Hi) as H1.
      destruct bT; auto using resetOnSort_keeps_reset.
    + destruct H as [H|[H|[-> E]]]; try discriminate.
      now apply resetOnSort_is_reset.
Qed.

Lemma changed_source (p r : State) :
  sourceType r <> sourceType p \/ embyKey r <> embyKey p ->
  changed (Some p) r ResetSourceEffect = true.
Proof.
  intros H. cbn. apply negb_true_iff, andb_false_iff.
  destruct H as [H|H]; [left|right]; apply bool_decide_eq_false; congruence.
Qed.

Lemma changed_view (p r : State) :
  selectedView r <> selectedView p -> changed (Some p) r ResetViewEffect = true.
Proof.
  intros H. cbn. apply negb_true_iff, bool_decide_eq_false. congruence.
Qed.

Lemma changed_sort (p r : State) :
  sortBy r <> sortBy p \/ sortOrder r <> sortOrder p ->
  changed (Some p) r ResetSortEffect = true.
Proof.
  intros H. cbn. apply negb_true_iff, andb_false_iff. left. apply andb_false_iff.
  destruct H as [H|H]; [left|right]; apply bool_decide_eq_false; congruence.
Qed.

(** ** Supersession *)

Lemma changed_fetch (p r : State) :
  ~ same_deps p r -> changed (Some p) r FetchEffect = true.
Proof.
  intros Hne. destruct (changed (Some p) r FetchEffect) eqn:E; [reflexivity|].
  exfalso. apply Hne. cbn in E. apply negb_false_iff in E.
  repeat (apply andb_true_iff in E; destruct E as [E ?]).
  repeat match goal with
         | H : bool_decide _ = true |- _ => apply bool_decide_eq_true in H
         end.
  unfold same_deps. auto 10.
Qed.

Lemma commit_fetch_aborts (cfg : RuntimeConfig) (u : option string) (s : Session) :
  Inv s ->
  changed (committed s) (state s) FetchEffect = true ->
  forall c, (c < nextController s)%nat -> is_aborted (commit cfg u s) c = true.
Proof.
  intros HI Hch c Hlt. unfold commit. rewrite effects_pass_split, Hch.
  pose proof (reset_effects_Calm cfg u (changed (committed s) (state s)) s)
    as [Ha Hc Hn Hr].
  pose proof (reset_effects_Inv cfg u (changed (committed s) (state s)) s HI) as HI'.
  unfold is_aborted. cbn [aborted with_committed].
  apply fetchEffect_aborts_all; [exact HI' | now rewrite Hn].
Qed.

(** C2. The fetch effect aborts the suspended calls before it sends
    anything, so a step that sends a request, and any step that changes
    the page, the source, the emby key, the view, the path or the sort,
    leaves every earlier call aborted; at most the call of the current
    controller is ever live.  When the promise of an aborted call
    settles, whatever the network delivered, the step changes no state
    cell and no ref: the call only leaves the table of suspended calls.  The
    [finally] block alone already keeps an aborted call away from the
    loading flags. *)
Theorem superseded_requests_are_cancelled_and_ignored (cfg : RuntimeConfig)
    (urlSource : option string) (inputs : list Input) :
  let s := session cfg urlSource inputs in
  (forall r c p,
      inflight s !! c = Some p -> is_aborted (fetchEffect cfg r s) c = true) /\
  (forall i c p,
      requests (step cfg urlSource s i) <> requests s ->
      inflight s !! c = Some p ->
      is_aborted (step cfg urlSource s i) c = true) /\
  (forall i c p,
      ~ same_deps (state s) (state (handle cfg i s)) ->
      inflight s !! c = Some p ->
      is_aborted (step cfg urlSource s i) c = true) /\
  (forall c p,
      inflight s !! c = Some p -> abortControllerRef s <> Some c ->
      is_aborted s c = true) /\
  (forall c,
      is_aborted s c = true ->
      forall s',
        (exists raw, s' = step cfg urlSource s (FetchSettles c raw))
        \/ (exists raw, s' = step cfg urlSource s (JsonSettles c raw)) ->
        state s' = state s
        /\ isFetchingRef s' = isFetchingRef s
        /\ abortControllerRef s' = abortControllerRef s
        /\ aborted s' = aborted s
        /\ requests s' = requests s
        /\ forall c', c' <> c -> inflight s' !! c' = inflight s !! c') /\
  (forall req,
      is_aborted s (controller req) = true ->
      (forall res, flags (after_json req res s) = flags s)
      /\ (forall res, flags (fst (after_fetch req res s)) = flags s)).
Proof.
  intros s. pose proof (session_Inv cfg urlSource inputs) as HI. fold s in HI.
  split; [|split; [|split; [|split; [|split]]]].
  - intros r c p Hl. apply fetchEffect_aborts_all; [exact HI|].
    apply (inv_inflight s HI c p Hl).
  - intros i c p Hreq Hl. unfold step in *.
    pose proof (handle_Calm cfg i s) as [Ha Hc Hn Hr].
    destruct (rerender_controllers cfg urlSource (handle cfg i s) (handle_Inv cfg i s HI))
      as [H|H]; [congruence|].
    apply H. rewrite Hn. apply (inv_inflight s HI c p Hl).
  - intros i c p Hdeps Hl. unfold step, rerender.
    set (s1 := handle cfg i s) in *.
    pose proof (handle_Inv cfg i s HI) as HI1. fold s1 in HI1.
    pose proof (handle_Calm cfg i s) as [_ _ Hn _]. fold s1 in Hn.
    assert (Hc : committed s1 = Some (state s)).
    { subst s1. rewrite committed_handle. apply session_settled. }
    pose proof (commit_Inv cfg urlSource s1 HI1) as HI2.
    pose proof (commit_Inv cfg urlSource _ HI2) as HI3.
    apply (commit_controllers cfg urlSource _ HI3).
    apply (commit_controllers cfg urlSource _ HI2).
    apply commit_fetch_aborts; [exact HI1 | |].
    + rewrite Hc. now apply changed_fetch.
    + rewrite Hn. apply (inv_inflight s HI c p Hl).
  - intros c p Hl Hne.
    destruct (inv_controllers s HI c) as [H|H]; [apply (inv_inflight s HI c p Hl)|exact H|].
    contradiction.
  - intros c Hab s' Hs'.
    assert (Hcases : s' = s \/ s' = with_inflight (delete c (inflight s)) s).
    { pose proof (session_settled cfg urlSource inputs) as Hst. fold s in Hst.
      assert (Hidle : forall h, h = s \/ h = with_inflight (delete c (inflight s)) s ->
                                rerender cfg urlSource h = h).
      { intros h [->| ->]; apply rerender_idle; exact Hst. }
      destruct Hs' as [[raw ->]|[raw ->]]; unfold step; cbn [handle].
      - pose proof (fetch_settles_stale c raw s HI Hab) as Hh.
        rewrite (Hidle _ Hh). exact Hh.
      - pose proof (json_settles_stale c raw s HI Hab) as Hh.
        rewrite (Hidle _ Hh). exact Hh. }
    destruct Hcases as [->| ->]; cbn; repeat split; auto.
    intros c' Hne. now rewrite lookup_delete_ne.
  - intros req H.
    split.
    + intros res. unfold after_json. destruct res as [data|e]; unfold on_finally.
      * rewrite (Quiet_is_aborted _ _ _ (on_data_Quiet req data s)), H.
        apply flags_on_data.
      * rewrite (Quiet_is_aborted _ _ _ (on_catch_Quiet req e s)), H.
        apply flags_on_catch.
    + intros res. unfold after_fetch.
      destruct res as [[|]|e]; cbn [fst]; unfold on_finally; try reflexivity.
      * rewrite (Quiet_is_aborted _ _ _ (on_catch_Quiet req _ s)), H.
        apply flags_on_catch.
      * rewrite (Quiet_is_aborted _ _ _ (on_catch_Quiet req e s)), H.
        apply flags_on_catch.
Qed.

Lemma superseded_requests_witness :
  let s := mount all_enabled emby_url in
  is_aborted s 0 = true
  /\ state (step all_enabled emby_url s
              (FetchSettles 0%nat (Fulfilled true))) = state s
  /\ isFetchingRef (step all_enabled emby_url s
                      (FetchSettles 0%nat (Fulfilled true))) = isFetchingRef s.
Proof.
  intros s.
  assert (H : is_aborted s 0 = true) by (vm_compute; reflexivity).
  destruct (superseded_requests_are_cancelled_and_ignored all_enabled emby_url [])
    as (_ & _ & _ & _ & Hstale & _).
  destruct (Hstale 0%nat H _ (or_introl (ex_intro _ (Fulfilled true) eq_refl)))
    as (E1 & E2 & _).
  exact (conj H (conj E1 E2)).
Defined.

(** A source change from a later page.  The render of the change still
    has the old page, so its fetch effect sends a load-more request,
    which the next render (page 1) supersedes; the superseded call never
    clears its flag, and the observer, which waits for the flag, does
    not advance the page again. *)
Example source_change_from_later_page :
  let s := session all_enabled emby_url openlist_after_two_pages in
  map snd (requests s)
  = [ OpenlistList 1 20; endpoint emby_request;
      EmbyList {| Api.q_page := Some "2"; Api.q_pageSize := Some "20";
                  Api.q_parentId := None; Api.q_embyKey := Some "main";
                  Api.q_sortBy := Some "SortName";
                  Api.q_sortOrder := Some "Ascending" |};
      OpenlistList 2 20; OpenlistList 1 20 ]
  /\ inflight s !! 4%nat = None
  /\ videos (state s) = [a_video "o1"]
  /\ flags s = (false, true, false)
  /\ page (state (step all_enabled emby_url s (Intersect true))) = 1.
Proof. vm_compute. repeat split. Qed.

End PageProperties.

(** * The page and the endpoint together *)

Module ScenarioProperties.
Import Api Page Wire Scenario.

Lemma ceil_quot_bounds (a n : Z) :
  0 < n -> n * (Js.ceil_quot a n - 1) < a <= n * Js.ceil_quot a n.
Proof.
  intros Hn. unfold Js.ceil_quot.
  pose proof (Z.mul_div_le (- a) n Hn).
  pose proof (Z.mul_succ_div_gt (- a) n Hn). lia.
Qed.

(** C8. The endpoint answers a live fetch with the ceiling of the record
    count over the page size as the total pages, which is 3 for 45
    records by 20; the page size is positive, and it and the record
    count are in the range of exact integers (below 2^53 in size),
    where the quotient of two numbers rounds up to the ceiling of the
    quotient of the integers.  The page then loads pages 1, 2 and 3 of a media
    server with 45 records: has-more is true, true and false, and the
    videos are the items of the three pages in order, nothing added or
    dropped: at most 45 when the server keeps to the limit, and free of
    duplicates when the server's items are. *)
Theorem paging_45_records_by_20 (ttl t : Z) (items : ItemsQuery -> list EmbyItem)
    (imageUrl : string -> string -> string) :
  (forall (C : Collaborators) (store : Cache) (searchParams : SearchParams)
          (client : Client) (result : ItemsResult) (n : Z),
      cache_miss store searchParams ->
      getClient (embyKey_of searchParams) = inr client ->
      getItems client (itemsQuery_of searchParams) = inr result ->
      pageSize_of searchParams = Js.Int n -> 0 < n ->
      Js.safe_integer n -> Js.safe_integer (TotalRecordCount result) ->
      exists response totalPages,
        fst (serve store searchParams) = Returned response /\
        field "totalPages" response = Some (JNumber (Js.Int totalPages)) /\
        n * (totalPages - 1) < TotalRecordCount result <= n * totalPages) /\
  Js.ceil_div 45 (Js.Int 20) = Js.Int 3 /\
  let C := EmbyCache.collaborators ttl items (fun _ => 45) imageUrl in
  let url := Some "emby:main" in
  let shown start :=
    map video_of_item (map (normalize (Some "main")) (items (default_query start))) in
  let sc1 := answer_current all_enabled url (mount all_enabled url, EmbyCache.empty t) in
  let sc2 := scroll all_enabled url sc1 in
  let sc3 := scroll all_enabled url sc2 in
  map (fun sc => hasMore (state (fst sc))) [sc1; sc2; sc3] = [true; true; false] /\
  map (fun sc => page (state (fst sc))) [sc1; sc2; sc3] = [1; 2; 3] /\
  videos (state (fst sc1)) = shown 0 /\
  videos (state (fst sc2)) = (shown 0 ++ shown 20)%list /\
  videos (state (fst sc3)) = (shown 0 ++ shown 20 ++ shown 40)%list /\
  ((length (items (default_query 0)) <= 20)%nat ->
   (length (items (default_query 20)) <= 20)%nat ->
   (length (items (default_query 40)) <= 5)%nat ->
   (length (videos (state (fst sc3))) <= 45)%nat) /\
  (NoDup (map Id (items (default_query 0) ++ items (default_query 20)
                  ++ items (default_query 40))%list) ->
   NoDup (map Page.id (videos (state (fst sc3))))).
Proof.
  split; [|split; [reflexivity|]].
  - intros C store searchParams client result n Hmiss Hcl Hit Hn Hpos _ _.
    exists (live_response searchParams client result), (Js.ceil_quot (TotalRecordCount result) n).
    split; [now apply ApiProperties.serve_live|]. split.
    + unfold live_response. cbn. rewrite Hn. cbn.
      destruct n; try lia. reflexivity.
    + now apply ceil_quot_bounds.
  - intros C url shown sc1 sc2 sc3.
    assert (H1 : videos (state (fst sc1)) = shown 0) by (vm_compute; reflexivity).
    assert (H2 : videos (state (fst sc2)) = (shown 0 ++ shown 20)%list)
      by (vm_compute; reflexivity).
    assert (H3 : videos (state (fst sc3)) = (shown 0 ++ shown 20 ++ shown 40)%list)
      by (rewrite app_assoc; vm_compute; reflexivity).
    split; [vm_compute; reflexivity|]. split; [vm_compute; reflexivity|].
    split; [exact H1|]. split; [exact H2|]. split; [exact H3|]. split.
    + intros L1 L2 L3. rewrite H3. subst shown. cbn beta.
      rewrite !length_app, !length_map. lia.
    + intros Hnd. rewrite H3. subst shown. cbn beta.
      rewrite !map_app, !map_map. rewrite !map_app in Hnd. exact Hnd.
Qed.

Lemma paging_45_records_by_20_witness :
  let sc1 := answer_current (H := library) all_enabled emby_url
               (mount all_enabled emby_url, EmbyCache.empty 0) in
  let sc3 := scroll (H := library) all_enabled emby_url
               (scroll (H := library) all_enabled emby_url sc1) in
  (length (listing (default_query 0)) <= 20)%nat
  /\ (length (listing (default_query 20)) <= 20)%nat
  /\ (length (listing (default_query 40)) <= 5)%nat
  /\ (length (videos (state (fst sc3))) <= 45)%nat
  /\ NoDup (map Page.id (videos (state (fst sc3))))
  /\ pageSize_of Cases.first_page = Js.Int 20
  /\ Js.safe_integer 20 /\ Js.safe_integer 45
  /\ exists response,
       fst (serve (C := library) (EmbyCache.empty 0) Cases.first_page)
       = Returned response
       /\ field "totalPages" response = Some (JNumber (Js.Int 3)).
Proof.
  intros sc1 sc3.
  assert (S20 : Js.safe_integer 20) by (split; reflexivity).
  assert (S45 : Js.safe_integer 45) by (split; reflexivity).
  assert (L1 : (length (listing (default_query 0)) <= 20)%nat)
    by (vm_compute; lia).
  assert (L2 : (length (listing (default_query 20)) <= 20)%nat)
    by (vm_compute; lia).
  assert (L3 : (length (listing (default_query 40)) <= 5)%nat)
    by (vm_compute; lia).
  assert (N : NoDup (map Id (listing (default_query 0) ++ listing (default_query 20)
                             ++ listing (default_query 40))%list))
    by (apply (bool_decide_unpack _); vm_compute; exact I).
  destruct (paging_45_records_by_20 60 0 listing no_image)
    as (Hpages & _ & _ & _ & _ & _ & _ & Hlen & Hnodup).
  destruct (Hpages library (EmbyCache.empty 0) Cases.first_page (Some "main")
              (mkItemsResult (listing (itemsQuery_of Cases.first_page)) 45) 20
              (or_intror eq_refl) eq_refl eq_refl eq_refl eq_refl S20 S45)
    as (response & totalPages & E1 & E2 & E3).
  cbn [TotalRecordCount] in E3.
  assert (totalPages = 3) as -> by lia.
  exact (conj L1 (conj L2 (conj L3 (conj (Hlen L1 L2 L3) (conj (Hnodup N)
           (conj eq_refl (conj S20 (conj S45
              (ex_intro _ response (conj E1 E2)))))))))).
Defined.

End ScenarioProperties.

(** * Further properties of the listing endpoint *)

Module ApiExtras.
Import Api.

(** Unfolds a call of the handler into its case analysis. *)
Ltac unfold_handler :=
  unfold serve, GET, try_catch, bind, cache_get, cache_set, manager_getClient,
    client_getItems, emit, lift, ret, throw; cbn [cache log].

Section Endpoint.
Context `{C : Collaborators}.

(** X1. A cache hit under the default sort is the whole call: the
    handler returns the cached response, calls neither the client
    manager nor the media server, and leaves the cache as it was. *)
Theorem cache_hit_short_circuits (store : Cache) (searchParams : SearchParams)
    (hit : Response) :
  sortBy_of searchParams = "SortName" ->
  sortOrder_of searchParams = "Ascending" ->
  getCachedEmbyList store (page_of searchParams) (pageSize_of searchParams)
    (parentId_of searchParams) (embyKey_of searchParams) = Some hit ->
  serve store searchParams
  = (Returned hit,
     mkWorld store
       [CacheRead (page_of searchParams) (pageSize_of searchParams)
          (parentId_of searchParams) (embyKey_of searchParams)]).
Proof.
  intros Hby Horder Hhit. unfold_handler. unfold isDefaultSort.
  rewrite Hby, Horder. cbn. rewrite Hhit. reflexivity.
Qed.

(** X2. A failed call is never cached: when the client manager or the
    media server rejects, the handler answers with the message of the
    error behind the fixed prefix, for the page that was asked for; it
    leaves the cache as it was, and its log ends with the one report
    of the failure, after the calls it made. *)
Theorem failure_is_not_cached (store : Cache) (searchParams : SearchParams)
    (e : Js.Error) :
  cache_miss store searchParams ->
  (getClient (embyKey_of searchParams) = inl e
   \/ exists client,
       getClient (embyKey_of searchParams) = inr client
       /\ getItems client (itemsQuery_of searchParams) = inl e) ->
  let out := serve store searchParams in
  let read :=
    if isDefaultSort (sortBy_of searchParams) (sortOrder_of searchParams)
    then [CacheRead (page_of searchParams) (pageSize_of searchParams)
            (parentId_of searchParams) (embyKey_of searchParams)]
    else [] in
  fst out
  = Returned
      [ ("error", JString ("获取 Emby 列表失败: " +:+ Js.message e));
        ("list", JList []);
        ("totalPages", JNumber (Js.Int 0));
        ("currentPage", JNumber (page_of searchParams));
        ("total", JNumber (Js.Int 0)) ]
  /\ cache (snd out) = store
  /\ (getClient (embyKey_of searchParams) = inl e ->
      log (snd out)
      = (read ++ [GetClient (embyKey_of searchParams);
                  LogError "获取 Emby 列表失败:"])%list)
  /\ (getClient (embyKey_of searchParams) <> inl e ->
      log (snd out)
      = (read ++ [GetClient (embyKey_of searchParams);
                  GetItems (itemsQuery_of searchParams);
                  LogError "获取 Emby 列表失败:"])%list).
Proof.
  intros Hmiss Hfail out read. subst out read. unfold_handler.
  destruct (isDefaultSort (sortBy_of searchParams) (sortOrder_of searchParams)) eqn:Hd;
    cbn.
  - destruct Hmiss as [Hm|Hm]; [congruence|]. rewrite Hm. cbn.
    destruct Hfail as [Hcl|(client & Hcl & Hit)]; rewrite Hcl; cbn.
    + repeat split; congruence.
    + rewrite Hit. cbn. repeat split; congruence.
  - destruct Hfail as [Hcl|(client & Hcl & Hit)]; rewrite Hcl; cbn.
    + repeat split; congruence.
    + rewrite Hit. cbn. repeat split; congruence.
Qed.

End Endpoint.

Lemma cache_hit_short_circuits_witness :
  sortBy_of Cases.first_page = "SortName"
  /\ sortOrder_of Cases.first_page = "Ascending"
  /\ fst (serve (C := Scenario.library) Cases.warm_store Cases.first_page)
     = Returned Cases.cached_page
  /\ log (snd (serve (C := Scenario.library) Cases.warm_store Cases.first_page))
     = [CacheRead (Js.Int 1) (Js.Int 20) None (Some "main")].
Proof.
  assert (H : getCachedEmbyList (Collaborators := Scenario.library) Cases.warm_store
                (page_of Cases.first_page) (pageSize_of Cases.first_page)
                (parentId_of Cases.first_page) (embyKey_of Cases.first_page)
              = Some Cases.cached_page) by (vm_compute; reflexivity).
  pose proof (cache_hit_short_circuits (C := Scenario.library) Cases.warm_store
                Cases.first_page Cases.cached_page eq_refl eq_refl H) as E.
  exact (conj eq_refl (conj eq_refl
           (conj (f_equal fst E) (f_equal (fun o => log (snd o)) E)))).
Defined.

Lemma failure_is_not_cached_witness :
  cache_miss (C := Cases.no_instance) (EmbyCache.empty 0) Cases.first_page
  /\ cache (snd (serve (C := Cases.no_instance) (EmbyCache.empty 0) Cases.first_page))
     = EmbyCache.empty 0
  /\ field "error"
       match fst (serve (C := Cases.no_instance) (EmbyCache.empty 0) Cases.first_page)
       with Returned r => r | Thrown _ => [] end
     = Some (JString "获取 Emby 列表失败: unknown emby source").
Proof.
  assert (H : cache_miss (C := Cases.no_instance) (EmbyCache.empty 0) Cases.first_page)
    by (right; reflexivity).
  destruct (failure_is_not_cached (C := Cases.no_instance) (EmbyCache.empty 0)
              Cases.first_page (Js.mkError "Error" "unknown emby source") H
              (or_introl eq_refl)) as (E1 & E2 & _).
  refine (conj H (conj E2 _)). rewrite E1. reflexivity.
Defined.

End ApiExtras.

(** * Numerals between the page and the endpoint *)

(** ** The query of an address, read back *)

Module UrlFacts.
Import Url.

Ltac each_char c := destruct c as [[] [] [] [] [] [] [] []].

(** Every plain character in turn, with what the parser makes of it. *)
Ltac each_plain_char c H :=
  each_char c; vm_compute in H; try discriminate H; clear H;
  match goal with
  | |- context [encode_char ?x] =>
      let e := eval vm_compute in (encode_char x) in
      change (encode_char x) with e
  end;
  cbv beta iota fix delta [String.append].

Lemma plain_char_kept (c : ascii) :
  is_plain_char c = true ->
  is_tab_or_newline c = false /\ Ascii.eqb c "#" = false.
Proof.
  intros H. each_char c; vm_compute in H; try discriminate H; split; reflexivity.
Qed.

Lemma split_on_encode_char (c : ascii) (t : string) :
  is_plain_char c = true ->
  split_on "&" (encode_char c +:+ t)
  = match split_on "&" t with
    | first :: others => (encode_char c +:+ first) :: others
    | [] => [encode_char c]
    end.
Proof.
  intros H.
  each_plain_char c H; cbn;
    destruct (split_on "&" t); reflexivity.
Qed.

Lemma plus_to_space_encode_char (c : ascii) (t : string) :
  is_plain_char c = true ->
  plus_to_space (encode_char c +:+ t) = encode_char c +:+ plus_to_space t.
Proof. intros H. each_plain_char c H; reflexivity. Qed.

Lemma percent_decode_encode_char (c : ascii) (t : string) :
  is_plain_char c = true ->
  percent_decode_from 0 (encode_char c +:+ t) = String c (percent_decode_from 0 t).
Proof. intros H. each_plain_char c H; reflexivity. Qed.

Lemma percent_encode_query_cons (c : ascii) (s : string) :
  percent_encode_query (String c s) = encode_char c +:+ percent_encode_query s.
Proof. reflexivity. Qed.

Lemma append_cons (x : ascii) (a b : string) :
  String x a +:+ b = String x (a +:+ b).
Proof. reflexivity. Qed.

Lemma append_assoc (a b c : string) : (a +:+ b) +:+ c = a +:+ (b +:+ c).
Proof.
  induction a as [|x a IH]; [reflexivity|]. now rewrite !append_cons, IH.
Qed.

Lemma append_empty (a : string) : a +:+ "" = a.
Proof. induction a as [|x a IH]; [reflexivity|]. now rewrite append_cons, IH. Qed.

Lemma is_plain_app (a b : string) : is_plain (a +:+ b) = is_plain a && is_plain b.
Proof.
  induction a as [|x a IH]; [reflexivity|]. rewrite append_cons. cbn [is_plain].
  now rewrite IH, andb_assoc.
Qed.

Lemma remove_tab_newline_plain (a : string) :
  is_plain a = true -> remove_tab_newline a = a.
Proof.
  induction a as [|x a IH]; [reflexivity|]. cbn [is_plain remove_tab_newline].
  intros H. apply andb_true_iff in H as [Hx Ha].
  destruct (plain_char_kept x Hx) as [-> _]. now rewrite IH.
Qed.

Lemma remove_tab_newline_app (a b : string) :
  remove_tab_newline (a +:+ b) = remove_tab_newline a +:+ remove_tab_newline b.
Proof.
  induction a as [|x a IH]; [reflexivity|]. rewrite append_cons.
  cbn [remove_tab_newline].
  destruct (is_tab_or_newline x); [exact IH|]. now rewrite append_cons, IH.
Qed.

Lemma before_hash_plain (a b : string) :
  is_plain a = true -> before_hash (a +:+ b) = a +:+ before_hash b.
Proof.
  induction a as [|x a IH]; [reflexivity|]. rewrite !append_cons.
  cbn [is_plain before_hash].
  intros H. apply andb_true_iff in H as [Hx Ha].
  destruct (plain_char_kept x Hx) as [_ ->]. now rewrite IH.
Qed.

Lemma percent_encode_query_app (a b : string) :
  percent_encode_query (a +:+ b) = percent_encode_query a +:+ percent_encode_query b.
Proof.
  induction a as [|x a IH]; [reflexivity|].
  rewrite append_cons, !percent_encode_query_cons, IH.
  now rewrite append_assoc.
Qed.

Lemma split_on_encoded (a t first : string) (others : list string) :
  is_plain a = true ->
  split_on "&" t = first :: others ->
  split_on "&" (percent_encode_query a +:+ t)
  = (percent_encode_query a +:+ first) :: others.
Proof.
  intros H Ht. induction a as [|x a IH]; [exact Ht|].
  cbn [is_plain] in H. apply andb_true_iff in H as [Hx Ha].
  rewrite percent_encode_query_cons, append_assoc, split_on_encode_char, IH
    by assumption.
  now rewrite append_assoc.
Qed.

Lemma plus_to_space_encoded (a : string) :
  is_plain a = true ->
  plus_to_space (percent_encode_query a) = percent_encode_query a.
Proof.
  induction a as [|x a IH]; [reflexivity|]. cbn [is_plain].
  intros H. apply andb_true_iff in H as [Hx Ha].
  now rewrite percent_encode_query_cons, plus_to_space_encode_char, IH.
Qed.

Lemma percent_decode_encoded (a : string) :
  is_plain a = true -> percent_decode (percent_encode_query a) = a.
Proof.
  unfold percent_decode.
  induction a as [|x a IH]; [reflexivity|]. cbn [is_plain].
  intros H. apply andb_true_iff in H as [Hx Ha].
  now rewrite percent_encode_query_cons, percent_decode_encode_char, IH.
Qed.

(** The value of a parameter that the page wrote plainly is read back
    as it was written. *)
Lemma value_read_back (a : string) :
  is_plain a = true ->
  percent_decode (plus_to_space (percent_encode_query a)) = a.
Proof.
  intros H. now rewrite plus_to_space_encoded, percent_decode_encoded.
Qed.

Lemma join_amp_cons (s s2 : string) (rest : list string) :
  join_amp (s :: s2 :: rest) = s +:+ String "&" (join_amp (s2 :: rest)).
Proof. reflexivity. Qed.

Lemma joined_kept (sequences : list string) :
  Forall (fun s => is_plain s = true) sequences ->
  remove_tab_newline (join_amp sequences) = join_amp sequences
  /\ before_hash (join_amp sequences) = join_amp sequences.
Proof.
  induction 1 as [|s rest Hs _ [IH1 IH2]]; [split; reflexivity|].
  destruct rest as [|s2 rest].
  - cbn [join_amp]. split; [now apply remove_tab_newline_plain|].
    rewrite <- (append_empty s) at 1. rewrite before_hash_plain by exact Hs.
    apply append_empty.
  - rewrite join_amp_cons. split.
    + rewrite remove_tab_newline_app, remove_tab_newline_plain by exact Hs.
      cbn [remove_tab_newline]. change (is_tab_or_newline "&") with false.
      cbn iota. now rewrite IH1.
    + rewrite before_hash_plain by exact Hs. cbn [before_hash].
      change (Ascii.eqb "&" "#") with false. cbn iota. now rewrite IH2.
Qed.

Lemma split_joined (sequences : list string) :
  sequences <> [] ->
  Forall (fun s => is_plain s = true) sequences ->
  split_on "&" (percent_encode_query (join_amp sequences))
  = map percent_encode_query sequences.
Proof.
  intros Hne H. induction H as [|s rest Hs _ IH]; [now destruct Hne|].
  destruct rest as [|s2 rest].
  - cbn [join_amp map]. rewrite <- (append_empty (percent_encode_query s)) at 1.
    rewrite (split_on_encoded s "" "" []) by first [exact Hs | reflexivity].
    now rewrite append_empty.
  - rewrite join_amp_cons.
    rewrite percent_encode_query_app.
    change (percent_encode_query (String "&" (join_amp (s2 :: rest))))
      with (String "&" (percent_encode_query (join_amp (s2 :: rest)))).
    rewrite (split_on_encoded s _ ""
               (split_on "&" (percent_encode_query (join_amp (s2 :: rest)))))
      by first [exact Hs | reflexivity].
    rewrite IH by discriminate. now rewrite append_empty.
Qed.

End UrlFacts.

Module NumeralExtras.
Import Numerals Url UrlFacts Page.

Lemma digit_of_char (m : N) :
  (m < 10)%N ->
  is_digit (pretty_N_char m) = true
  /\ Js.digit_value (pretty_N_char m) = Some (Z.of_N m).
Proof.
  intros H.
  assert (m = 0 \/ m = 1 \/ m = 2 \/ m = 3 \/ m = 4 \/ m = 5 \/ m = 6 \/ m = 7
          \/ m = 8 \/ m = 9)%N as Hm by lia.
  repeat (destruct Hm as [->|Hm]; [split; reflexivity|]). subst m. split; reflexivity.
Qed.

Lemma all_digits_go (x : N) :
  forall s, all_digits s = true -> all_digits (pretty_N_go x s) = true.
Proof.
  induction (N.lt_wf_0 x) as [x _ IH]. intros s Hs.
  destruct (N.eq_dec x 0%N) as [->|Hx]; [now rewrite pretty_N_go_0|].
  rewrite pretty_N_go_step by lia. apply IH.
  - apply N.div_lt; lia.
  - cbn. rewrite Hs, andb_true_r. apply digit_of_char. apply N.mod_lt. lia.
Qed.







Lemma emby_address_joined (r : State) :
  emby_address r = "/api/emby/list?" +:+ join_amp (emby_sequences r).
Proof.
  unfold emby_address, emby_sequences.
  destruct (negb (String.eqb (selectedView r) "all")); reflexivity.
Qed.

Lemma digits_are_plain (s : string) : all_digits s = true -> is_plain s = true.
Proof.
  induction s as [|c s IH]; [reflexivity|]. cbn [all_digits is_plain].
  intros H. apply andb_true_iff in H as [Hc Hs]. rewrite (IH Hs), andb_true_r.
  each_char c; try discriminate Hc; reflexivity.
Qed.

Lemma pretty_is_plain (z : Z) : is_plain (pretty z) = true.
Proof.
  destruct z as [|p|p].
  - reflexivity.
  - change (pretty (Z.pos p)) with (pretty_N_go (N.pos p) "").
    now apply digits_are_plain, all_digits_go.
  - change (pretty (Z.neg p)) with (String "-" (pretty_N_go (N.pos p) "")).
    cbn [is_plain]. rewrite digits_are_plain by now apply all_digits_go.
    reflexivity.
Qed.

Lemma sequence_read_back (name value : string) :
  In name Api.parameter_names -> is_plain value = true ->
  is_empty (percent_encode_query (name +:+ String "=" value)) = false
  /\ read_sequence (percent_encode_query (name +:+ String "=" value)) = (name, value).
Proof.
  intros Hn Hv. pose proof (value_read_back value Hv) as E.
  unfold Api.parameter_names in Hn. cbn [In] in Hn.
  repeat (destruct Hn as [<-|Hn];
          [split; [reflexivity|];
           unfold read_sequence;
           match goal with
           | |- context [name_and_value (percent_encode_query (?n +:+ _))] =>
               change (name_and_value (percent_encode_query (n +:+ String "=" value)))
                 with (n, percent_encode_query value)
           end; cbn iota beta; rewrite E; reflexivity|]).
  destruct Hn.
Qed.

(** The address of the emby listing, read by the handler, when the
    key, the view and the sort field are plain. *)
Lemma address_read (r : State) :
  is_plain (default "undefined" (embyKey r)) = true ->
  is_plain (selectedView r) = true ->
  is_plain (sortBy r) = true ->
  Api.searchParams_of (emby_address r) = emby_searchParams r.
Proof.
  intros Hk Hv Hs.
  assert (Ho : is_plain (SortOrder_text (sortOrder r)) = true)
    by (now destruct (sortOrder r)).
  pose proof (pretty_is_plain (page r)) as Hp.
  assert (Hall : Forall (fun s => is_plain s = true) (emby_sequences r)).
  { unfold emby_sequences.
    destruct (negb (String.eqb (selectedView r) "all")); cbn [app];
      repeat constructor; rewrite is_plain_app; cbn [andb is_plain];
      first [assumption | reflexivity]. }
  assert (Hne : emby_sequences r <> []) by discriminate.
  assert (Hq : query_of (emby_address r)
               = Some (percent_encode_query (join_amp (emby_sequences r)))).
  { unfold query_of. rewrite emby_address_joined, remove_tab_newline_app.
    destruct (joined_kept _ Hall) as [-> Hh].
    change (remove_tab_newline "/api/emby/list?") with "/api/emby/list?".
    rewrite before_hash_plain, Hh by reflexivity. reflexivity. }
  unfold Api.searchParams_of, searchParams. rewrite Hq. unfold parse_urlencoded.
  rewrite (split_joined _ Hne Hall).
  unfold emby_sequences, emby_searchParams.
  destruct (sequence_read_back "page" (pretty (page r))) as [E1 R1];
    [cbn; tauto | exact Hp |].
  destruct (sequence_read_back "pageSize" (pretty pageSize)) as [E2 R2];
    [cbn; tauto | reflexivity |].
  destruct (sequence_read_back "parentId" (selectedView r)) as [E3 R3];
    [cbn; tauto | exact Hv |].
  destruct (sequence_read_back "embyKey" (default "undefined" (embyKey r)))
    as [E4 R4]; [cbn; tauto | exact Hk |].
  destruct (sequence_read_back "sortBy" (sortBy r)) as [E5 R5];
    [cbn; tauto | exact Hs |].
  destruct (sequence_read_back "sortOrder" (SortOrder_text (sortOrder r)))
    as [E6 R6]; [cbn; tauto | exact Ho |].
  change ("page" +:+ String "=" (pretty (page r))) with ("page=" +:+ pretty (page r))
    in E1, R1.
  change ("pageSize" +:+ String "=" (pretty pageSize))
    with ("pageSize=" +:+ pretty pageSize) in E2, R2.
  change ("parentId" +:+ String "=" (selectedView r))
    with ("parentId=" +:+ selectedView r) in E3, R3.
  change ("embyKey" +:+ String "=" (default "undefined" (embyKey r)))
    with ("embyKey=" +:+ default "undefined" (embyKey r)) in E4, R4.
  change ("sortBy" +:+ String "=" (sortBy r)) with ("sortBy=" +:+ sortBy r) in E5, R5.
  change ("sortOrder" +:+ String "=" (SortOrder_text (sortOrder r)))
    with ("sortOrder=" +:+ SortOrder_text (sortOrder r)) in E6, R6.
  destruct (negb (String.eqb (selectedView r) "all"));
    cbn [app map List.filter];
    rewrite ?E1, ?E2, ?E3, ?E4, ?E5, ?E6; cbn [negb map];
    rewrite ?R1, ?R2, ?R3, ?R4, ?R5, ?R6; reflexivity.
Qed.



End NumeralExtras.

(** * Further properties of the normalised items and of the page count *)

Module ItemExtras.
Import Api.

Section Endpoint.
Context `{C : Collaborators}.


(** X5. The page count of a live answer, for every page size that
    [parseInt] reads exactly.  For a positive page size, with it and
    the record count in the range of exact integers (below 2^53 in
    size), it is an integer, zero or less exactly when there are no
    records, and a page number is below it exactly when records remain
    after that page.  For a page size that is zero or not a number
    ([pageSize=0], [pageSize=abc]) it is not finite, and is sent as
    [null]. *)
Theorem totalPages_of_every_page_size (searchParams : SearchParams)
    (client : Client) (result : ItemsResult) :
  let total := TotalRecordCount result in
  let response := live_response searchParams client result in
  (forall n, pageSize_of searchParams = Js.Int n -> 0 < n ->
     Js.safe_integer n -> Js.safe_integer total ->
     exists totalPages,
       field "totalPages" response = Some (JNumber (Js.Int totalPages))
       /\ (totalPages <= 0 <-> total <= 0)
       /\ (forall p, p < totalPages <-> p * n < total))
  /\ (pageSize_of searchParams = Js.Int 0 \/ pageSize_of searchParams = Js.NaN ->
      Wire.json_number (field "totalPages" response) = None).
Proof.
  intros total response. split.
  - intros n Hn Hpos _ _. exists (Js.ceil_quot total n).
    pose proof (ScenarioProperties.ceil_quot_bounds total n Hpos) as Hb.
    split; [|split].
    + subst response. unfold live_response. cbn. rewrite Hn.
      destruct n; try lia. reflexivity.
    + split; intros; nia.
    + intros p. split; intros; nia.
  - intros [Hn|Hn]; subst response; unfold live_response; cbn; rewrite Hn; cbn.
    + fold total. destruct (total =? 0); [reflexivity|].
      now destruct (0 <? total).
    + reflexivity.
Qed.

End Endpoint.


Lemma totalPages_of_every_page_size_witness :
  pageSize_of Cases.first_page = Js.Int 20
  /\ 0 < 20
  /\ Js.safe_integer 20 /\ Js.safe_integer 45
  /\ exists totalPages,
       field "totalPages"
         (live_response (C := Scenario.library) Cases.first_page (Some "main")
            (mkItemsResult [] 45))
       = Some (JNumber (Js.Int totalPages))
       /\ (2 < totalPages <-> 2 * 20 < 45).
Proof.
  destruct (totalPages_of_every_page_size (C := Scenario.library) Cases.first_page
              (Some "main") (mkItemsResult [] 45)) as (H & _).
  assert (S20 : Js.safe_integer 20) by (split; reflexivity).
  assert (S45 : Js.safe_integer 45) by (split; reflexivity).
  destruct (H 20 eq_refl eq_refl S20 S45) as (tp & E1 & _ & E3).
  exact (conj eq_refl (conj eq_refl (conj S20 (conj S45
           (ex_intro _ tp (conj E1 (E3 2))))))).
Defined.

End ItemExtras.

(** * Further properties of the listing session *)

Module SessionExtras.
Import Page Invariants Discipline Scenario PageProperties.

(** ** How the operations move the suspended calls *)

Lemma fetchEffect_cases (cfg : RuntimeConfig) (r : State) (s : Session) :
  fetchEffect cfg r s
  = if source_disabled cfg r
    then update (set_loading false) (abort_current s)
    else issued r s.
Proof.
  unfold fetchEffect. destruct (source_disabled cfg r) eqn:Hd.
  - rewrite fetchVideos_disabled by exact Hd. now rewrite abort_current_idem.
  - rewrite fetchVideos_enabled by exact Hd. unfold issued.
    now rewrite !abort_current_idem.
Qed.

Lemma changed_fetch_false (p r : State) :
  changed (Some p) r FetchEffect = false -> same_deps p r.
Proof.
  intros E. cbn in E. apply negb_false_iff in E.
  repeat (apply andb_true_iff in E; destruct E as [E ?]).
  repeat match goal with
         | H : bool_decide _ = true |- _ => apply bool_decide_eq_true in H
         end.
  unfold same_deps. auto 10.
Qed.

(** A render none of whose dependencies changed runs no effect. *)
Lemma idle_commit (cfg : RuntimeConfig) (u : option string) (s : Session) (p : State) :
  committed s = Some p -> same_deps p (state s) ->
  commit cfg u s = with_committed (Some (state s)) s.
Proof.
  intros Hc Hd. unfold commit. rewrite Hc.
  now rewrite effects_pass_none by (intros e; now apply changed_same_deps).
Qed.

Lemma idle_rerender (cfg : RuntimeConfig) (u : option string) (s : Session) (p : State) :
  committed s = Some p -> same_deps p (state s) ->
  rerender cfg u s = with_committed (Some (state s)) s.
Proof.
  intros Hc Hd. unfold rerender. rewrite (idle_commit cfg u s p Hc Hd).
  assert (E : commit cfg u (with_committed (Some (state s)) s)
              = with_committed (Some (state s)) s).
  { now rewrite (idle_commit cfg u (with_committed (Some (state s)) s) (state s)
                   eq_refl (same_deps_refl _)). }
  now rewrite !E.
Qed.

(** A render one of whose fetch dependencies changed runs the fetch
    effect after the resets. *)
Lemma busy_commit (cfg : RuntimeConfig) (u : option string) (s : Session) :
  changed (committed s) (state s) FetchEffect = true ->
  commit cfg u s
  = with_committed (Some (state s))
      (fetchEffect cfg (state s)
         (reset_effects cfg u (changed (committed s) (state s)) s)).
Proof. intros H. unfold commit. now rewrite effects_pass_split, H. Qed.

(** Either way of a committed render. *)
Lemma commit_cases (cfg : RuntimeConfig) (u : option string) (s : Session) :
  (changed (committed s) (state s) FetchEffect = true
   /\ commit cfg u s
      = with_committed (Some (state s))
          (fetchEffect cfg (state s)
             (reset_effects cfg u (changed (committed s) (state s)) s)))
  \/ (exists p, committed s = Some p /\ same_deps p (state s)
                /\ commit cfg u s = with_committed (Some (state s)) s).
Proof.
  destruct (changed (committed s) (state s) FetchEffect) eqn:E.
  - left. split; [reflexivity|]. now apply busy_commit.
  - right. destruct (committed s) as [p|] eqn:Hc; [|discriminate E].
    exists p. pose proof (changed_fetch_false p (state s) E) as Hd.
    split; [reflexivity|]. split; [exact Hd|]. now apply (idle_commit cfg u s p).
Qed.

(** The fetch effect leaves no earlier call live; the call it suspends,
    if any, is the one it built from its render. *)
Lemma live_after_fetchEffect (cfg : RuntimeConfig) (r : State) (s : Session)
    (c : nat) (p : Pending) :
  Inv s -> live (fetchEffect cfg r s) c p ->
  source_disabled cfg r = false
  /\ c = nextController s
  /\ p = mkPending (request_of r c) AwaitFetch
  /\ isFetchingRef (fetchEffect cfg r s) = true
  /\ abortControllerRef (fetchEffect cfg r s) = Some c.
Proof.
  intros HI [Hl Hlive].
  pose proof (abort_current_Inv s HI) as HIa.
  destruct (abort_current_frame s) as (_ & _ & _ & Hn & _ & Hfl & _).
  assert (Hold : (c < nextController s)%nat -> False).
  { intros Hlt. rewrite fetchEffect_aborts_all in Hlive by assumption. discriminate. }
  rewrite fetchEffect_cases in *. destruct (source_disabled cfg r) eqn:Hd.
  - cbn in Hl. rewrite Hfl in Hl. destruct Hold. apply (inv_inflight s HI c p Hl).
  - unfold issued in *. cbn in *. rewrite Hn, Hfl in *.
    destruct (decide (nextController s = c)) as [<-|Hne].
    + rewrite lookup_insert_eq in Hl. injection Hl as <-. auto.
    + rewrite lookup_insert_ne in Hl by exact Hne.
      destruct Hold. apply (inv_inflight s HI c p Hl).
Qed.

Lemma live_with_committed (v : option State) (s : Session) (c : nat) (p : Pending) :
  live (with_committed v s) c p <-> live s c p.
Proof. reflexivity. Qed.

(** ** One call at a time *)

Lemma live_is_current (s : Session) (c : nat) (p : Pending) :
  Inv s -> live s c p -> abortControllerRef s = Some c.
Proof.
  intros HI [Hl Hlive].
  destruct (inv_controllers s HI c) as [H|H]; [apply (inv_inflight s HI c p Hl)| |exact H].
  congruence.
Qed.

Lemma Busy_commit (cfg : RuntimeConfig) (u : option string) (s : Session) :
  Inv s -> Busy s -> Busy (commit cfg u s).
Proof.
  intros HI HB. destruct (commit_cases cfg u s) as [[_ ->]|(p & _ & _ & ->)].
  - intros c q Hq. apply live_with_committed in Hq.
    apply live_after_fetchEffect in Hq; [|now apply reset_effects_Inv].
    cbn. apply Hq.
  - intros c q Hq. now apply (HB c q).
Qed.

Lemma Busy_fetch_settles (c : nat) (raw : Settled bool) (s : Session) :
  Inv s -> Busy s -> Busy (fetch_settles c raw s).
Proof.
  intros HI HB c' q [Hl Hlive].
  pose proof (fetch_settles_Calm c raw s) as [Ha Hcur _ _].
  assert (Hlive' : is_aborted s c' = false) by (unfold is_aborted in *; now rewrite <- Ha).
  destruct (is_aborted s c) eqn:Hc.
  { destruct (fetch_settles_stale c raw s HI Hc) as [E|E]; rewrite E in *.
    - now apply (HB c' q).
    - cbn in *. apply lookup_delete_Some in Hl as [_ Hl]. now apply (HB c' q). }
  unfold fetch_settles in *.
  destruct (inflight s !! c) as [[req [|]]|] eqn:Hreq;
    try (now apply (HB c' q)).
  rewrite under_signal_live in * by exact Hc.
  pose proof (live_is_current s c _ HI (conj Hreq Hc)) as Hcc.
  assert (Hsame : c' = c).
  { destruct (decide (c = c')) as [->|Hne]; [reflexivity|].
    assert (Hlt : (c' < nextController s)%nat).
    { pose proof (after_fetch_Quiet req raw s) as Q.
      destruct (after_fetch req raw s) as [s' [|]]; cbn in *;
        rewrite (quiet_inflight _ _ Q) in Hl.
      - rewrite lookup_insert_ne in Hl by exact Hne.
        apply (inv_inflight s HI c' q Hl).
      - apply lookup_delete_Some in Hl as [_ Hl]. apply (inv_inflight s HI c' q Hl). }
    destruct (inv_controllers s HI c' Hlt) as [H|H]; congruence. }
  subst c'.
  destruct raw as [[|]|e]; cbn [after_fetch] in *; cbn in *.
  - now apply (HB c _ (conj Hreq Hc)).
  - now rewrite lookup_delete_eq in Hl.
  - now rewrite lookup_delete_eq in Hl.
Qed.

Lemma Busy_json_settles (c : nat) (raw : Settled Data) (s : Session) :
  Inv s -> Busy s -> Busy (json_settles c raw s).
Proof.
  intros HI HB c' q [Hl Hlive].
  pose proof (json_settles_Calm c raw s) as [Ha Hcur _ _].
  assert (Hlive' : is_aborted s c' = false) by (unfold is_aborted in *; now rewrite <- Ha).
  destruct (is_aborted s c) eqn:Hc.
  { destruct (json_settles_stale c raw s HI Hc) as [E|E]; rewrite E in *.
    - now apply (HB c' q).
    - cbn in *. apply lookup_delete_Some in Hl as [_ Hl]. now apply (HB c' q). }
  unfold json_settles in *.
  destruct (inflight s !! c) as [[req [|]]|] eqn:Hreq;
    try (now apply (HB c' q)).
  pose proof (live_is_current s c _ HI (conj Hreq Hc)) as Hcc.
  pose proof (after_json_Quiet req (under_signal s c raw) s) as Q.
  cbn in Hl. apply lookup_delete_Some in Hl as [Hne Hl].
  rewrite (quiet_inflight _ _ Q) in Hl.
  pose proof (live_is_current s c' q HI (conj Hl Hlive')) as Hcc'. congruence.
Qed.

(** The inputs other than the settlements write state cells only. *)
Lemma handle_still (cfg : RuntimeConfig) (i : Input) (s : Session) :
  match i with FetchSettles _ _ | JsonSettles _ _ => False | _ => True end ->
  inflight (handle cfg i s) = inflight s
  /\ aborted (handle cfg i s) = aborted s
  /\ isFetchingRef (handle cfg i s) = isFetchingRef s
  /\ abortControllerRef (handle cfg i s) = abortControllerRef s
  /\ loading (state (handle cfg i s)) = loading (state s)
  /\ loadingMore (state (handle cfg i s)) = loadingMore (state s).
Proof.
  destruct i; intros H; try destruct H; cbn [handle];
    unfold initEffect, observer_fire, handleXiaoyaSearch;
    try destruct res;
    repeat match goal with |- context [if ?b then _ else _] => destruct b end;
    repeat split.
Qed.

Lemma Busy_handle (cfg : RuntimeConfig) (i : Input) (s : Session) :
  Inv s -> Busy s -> Busy (handle cfg i s).
Proof.
  intros HI HB.
  destruct i;
    try (intros c' q [Hl Hlive];
         match goal with
         | |- isFetchingRef (handle cfg ?i s) = true =>
             destruct (handle_still cfg i s I) as (E1 & E2 & E3 & _)
         end;
         rewrite E3; apply (HB c' q); split;
         [now rewrite <- E1 | unfold is_aborted in *; now rewrite <- E2]).
  - now apply Busy_fetch_settles.
  - now apply Busy_json_settles.
Qed.

(** ** Invariants of every session *)

(** What the committed renders and the handlers keep holds of every
    session. *)
Lemma session_invariant (cfg : RuntimeConfig) (u : option string)
    (P : Session -> Prop) :
  P initial_session ->
  (forall s, Inv s -> P s -> P (commit cfg u s)) ->
  (forall i s, Inv s -> P s -> P (handle cfg i s)) ->
  forall inputs, P (session cfg u inputs).
Proof.
  intros H0 Hcommit Hhandle inputs.
  assert (Hre : forall s, Inv s -> P s -> P (rerender cfg u s)).
  { intros s HI HP. unfold rerender.
    apply Hcommit; [now do 2 apply commit_Inv|].
    apply Hcommit; [now apply commit_Inv|]. now apply Hcommit. }
  unfold session.
  assert (Hm : Inv (mount cfg u) /\ P (mount cfg u)).
  { split; [apply rerender_Inv, initial_session_Inv|].
    apply Hre; [apply initial_session_Inv | exact H0]. }
  revert Hm. generalize (mount cfg u).
  induction inputs as [|i inputs IH]; intros s [HI HP]; cbn [fold_left]; [exact HP|].
  apply IH. split; [now apply step_Inv|]. unfold step.
  apply Hre; [now apply handle_Inv | now apply Hhandle].
Qed.

Lemma session_Busy (cfg : RuntimeConfig) (u : option string) (inputs : list Input) :
  Busy (session cfg u inputs).
Proof.
  apply session_invariant.
  - intros c p [Hl _]. discriminate Hl.
  - intros s. apply Busy_commit.
  - intros i s. apply Busy_handle.
Qed.

(** ** The live call belongs to the current render *)

Lemma request_of_deps (a b : State) (c : nat) :
  same_deps a b -> request_of a c = request_of b c.
Proof.
  intros (H1 & H2 & H3 & H4 & H5 & H6 & H7).
  unfold request_of, endpoint_of, emby_searchParams.
  now rewrite H1, H2, H3, H4, H5, H6, H7.
Qed.

(** A call that is live after a handler was live before it, with the
    same request. *)
Lemma live_handle (cfg : RuntimeConfig) (i : Input) (s : Session)
    (c : nat) (q : Pending) :
  live (handle cfg i s) c q -> exists q0, live s c q0 /\ request q0 = request q.
Proof.
  intros [Hl Hlive].
  pose proof (handle_Calm cfg i s) as [Ha _ _ _].
  assert (Hlive' : is_aborted s c = false) by (unfold is_aborted in *; now rewrite <- Ha).
  destruct i;
    try (match type of Hl with
         | inflight (handle cfg ?i s) !! _ = _ =>
             destruct (handle_still cfg i s I) as (E1 & _)
         end;
         rewrite E1 in Hl; exists q; repeat split; assumption);
    cbn [handle] in Hl.
  - unfold fetch_settles in Hl.
    destruct (inflight s !! c0) as [[req [|]]|] eqn:Hreq;
      try (exists q; repeat split; assumption).
    pose proof (after_fetch_Quiet req (under_signal s c0 raw) s) as Q.
    destruct (after_fetch req (under_signal s c0 raw) s) as [s' [|]]; cbn in Hl, Q;
      rewrite (quiet_inflight _ _ Q) in Hl.
    + destruct (decide (c0 = c)) as [->|Hne].
      * rewrite lookup_insert_eq in Hl. injection Hl as <-.
        exists (mkPending req AwaitFetch). repeat split; assumption.
      * rewrite lookup_insert_ne in Hl by exact Hne.
        exists q; repeat split; assumption.
    + apply lookup_delete_Some in Hl as [_ Hl]. exists q; repeat split; assumption.
  - unfold json_settles in Hl.
    destruct (inflight s !! c0) as [[req [|]]|] eqn:Hreq;
      try (exists q; repeat split; assumption).
    pose proof (after_json_Quiet req (under_signal s c0 raw) s) as Q.
    cbn in Hl. apply lookup_delete_Some in Hl as [_ Hl].
    rewrite (quiet_inflight _ _ Q) in Hl. exists q; repeat split; assumption.
Qed.

Lemma Current_handle (cfg : RuntimeConfig) (i : Input) (s : Session) :
  Current s -> Current (handle cfg i s).
Proof.
  intros HC c q Hq. destruct (live_handle cfg i s c q Hq) as (q0 & Hq0 & E).
  destruct (HC c q0 Hq0) as (r & Hr & Hreq). exists r.
  rewrite committed_handle. split; [exact Hr | congruence].
Qed.

Lemma Current_commit (cfg : RuntimeConfig) (u : option string) (s : Session) :
  Inv s -> Current s -> Current (commit cfg u s).
Proof.
  intros HI HC. destruct (commit_cases cfg u s) as [[_ ->]|(p & Hp & Hd & ->)].
  - intros c q Hq. apply live_with_committed in Hq.
    apply live_after_fetchEffect in Hq; [|now apply reset_effects_Inv].
    destruct Hq as (_ & _ & -> & _). exists (state s). split; reflexivity.
  - intros c q Hq. destruct (HC c q Hq) as (r & Hr & Hreq).
    exists (state s). split; [reflexivity|].
    rewrite Hreq. apply request_of_deps. congruence.
Qed.

Lemma session_Current (cfg : RuntimeConfig) (u : option string) (inputs : list Input) :
  Current (session cfg u inputs).
Proof.
  apply session_invariant.
  - intros c p [Hl _]. discriminate Hl.
  - intros s. apply Current_commit.
  - intros i s _. apply Current_handle.
Qed.

(** The request of a live call of a session, read off the state. *)
Lemma live_request (cfg : RuntimeConfig) (u : option string) (inputs : list Input)
    (c : nat) (p : Pending) :
  live (session cfg u inputs) c p ->
  request p = request_of (state (session cfg u inputs)) c.
Proof.
  intros H. destruct (session_Current cfg u inputs c p H) as (r & Hr & ->).
  rewrite session_settled in Hr. now injection Hr as <-.
Qed.

(** X6. While a call is live (suspended and not aborted) the fetching
    ref is set, so the scroll sentinel coming into view, or leaving it,
    changes nothing: the page is not advanced and no request is sent. *)
Theorem sentinel_waits_for_live_call (cfg : RuntimeConfig) (urlSource : option string)
    (inputs : list Input) (c : nat) (p : Pending) :
  let s := session cfg urlSource inputs in
  live s c p ->
  isFetchingRef s = true
  /\ forall isIntersecting, step cfg urlSource s (Intersect isIntersecting) = s.
Proof.
  intros s H.
  pose proof (session_Busy cfg urlSource inputs c p H) as HB. fold s in HB.
  split; [exact HB|]. intros b. unfold step. cbn [handle].
  assert (E : observer_fire b (state s) s = s).
  { unfold observer_fire. rewrite HB. now rewrite !andb_false_r. }
  rewrite E. apply rerender_idle. apply session_settled.
Qed.

Lemma sentinel_waits_for_live_call_witness :
  let s := session all_enabled emby_url [] in
  live s 1%nat (mkPending emby_request AwaitFetch)
  /\ step all_enabled emby_url s (Intersect true) = s.
Proof.
  intros s.
  assert (H : live s 1%nat (mkPending emby_request AwaitFetch))
    by (split; vm_compute; reflexivity).
  exact (conj H (proj2 (sentinel_waits_for_live_call all_enabled emby_url [] 1%nat
                          (mkPending emby_request AwaitFetch) H) true)).
Defined.

(** X7. The live call of a session was sent for the state the session
    is in: for its source type, its page and the address made of its
    page, view, key, path and sort; it counts as initial exactly when
    the page is 1, and its controller is the current one. *)
Theorem live_call_is_for_current_render (cfg : RuntimeConfig)
    (urlSource : option string) (inputs : list Input) (c : nat) (p : Pending) :
  let s := session cfg urlSource inputs in
  live s c p ->
  controller (request p) = c
  /\ req_sourceType (request p) = sourceType (state s)
  /\ req_page (request p) = page (state s)
  /\ isInitial (request p) = (page (state s) =? 1)
  /\ endpoint (request p) = endpoint_of (state s)
  /\ abortControllerRef s = Some c.
Proof.
  intros s H. rewrite (live_request cfg urlSource inputs c p H). fold s.
  repeat split. apply (live_is_current s c p); [apply session_Inv | exact H].
Qed.

Lemma live_call_is_for_current_render_witness :
  let s := session all_enabled emby_url awaiting_body in
  live s 1%nat (mkPending emby_request AwaitJson)
  /\ endpoint emby_request = endpoint_of (state s).
Proof.
  intros s.
  assert (H : live s 1%nat (mkPending emby_request AwaitJson))
    by (split; vm_compute; reflexivity).
  destruct (live_call_is_for_current_render all_enabled emby_url awaiting_body 1%nat
              (mkPending emby_request AwaitJson) H) as (_ & _ & _ & _ & E & _).
  exact (conj H E).
Defined.

(** ** The requests sent *)

Lemma endpoint_of_allowed (cfg : RuntimeConfig) (r : State) :
  source_disabled cfg r = false -> 1 <= page r ->
  endpoint_allowed cfg (endpoint_of r).
Proof.
  unfold source_disabled, endpoint_of. intros Hd Hp.
  apply orb_false_iff in Hd as [Hd Hx]. apply orb_false_iff in Hd as [Ho He].
  destruct (String.eqb_spec (sourceType r) "openlist") as [Eo|Eo].
  { cbn in *. apply negb_false_iff in Ho. repeat split; [exact Ho | exact Hp]. }
  destruct (String.eqb_spec (sourceType r) "xiaoya") as [Ex|Ex].
  { cbn in *. now apply negb_false_iff in Hx. }
  cbn. exists r. split; [reflexivity|]. split; [exact Hp|].
  split; [exact Eo|]. split; [exact Ex|]. intros E.
  rewrite E in He. cbn in He. apply orb_false_iff in He as [He Hk].
  apply negb_false_iff in He, Hk. split; [exact He|].
  unfold truthy in Hk. destruct (embyKey r) as [k|]; [|discriminate].
  exists k. split; [reflexivity|].
  apply negb_true_iff in Hk. now apply String.eqb_neq.
Qed.

Lemma Logged_Calm (cfg : RuntimeConfig) (s s' : Session) :
  Calm s s' -> Logged cfg s -> Logged cfg s'.
Proof. intros [_ _ Hn Hr] [H1 H2]. split; rewrite Hr, ?Hn; assumption. Qed.

Lemma Logged_commit (cfg : RuntimeConfig) (u : option string) (s : Session) :
  Inv s -> Logged cfg s -> Logged cfg (commit cfg u s).
Proof.
  intros HI HL. destruct (commit_cases cfg u s) as [[_ ->]|(p & _ & _ & ->)];
    [|exact HL].
  set (s1 := reset_effects cfg u (changed (committed s) (state s)) s).
  pose proof (Logged_Calm cfg s s1 (reset_effects_Calm cfg u _ s) HL) as [H1 H2].
  destruct (abort_current_frame s1) as (_ & _ & _ & Hn & _ & _ & Hr & _).
  rewrite fetchEffect_cases. destruct (source_disabled cfg (state s)) eqn:Hd.
  - split; cbn; rewrite Hr, ?Hn; assumption.
  - split; unfold issued; cbn [requests nextController with_committed];
      rewrite Hr, Hn.
    + rewrite map_app, H1, seq_S. reflexivity.
    + apply Forall_app. split; [exact H2|]. constructor; [|constructor].
      apply endpoint_of_allowed; [exact Hd | apply (inv_page s HI)].
Qed.

Lemma session_Logged (cfg : RuntimeConfig) (u : option string) (inputs : list Input) :
  Logged cfg (session cfg u inputs).
Proof.
  apply session_invariant.
  - split; [reflexivity | constructor].
  - intros s. apply Logged_commit.
  - intros i s _. apply Logged_Calm, handle_Calm.
Qed.

(** X8. Every controller created in a session has sent exactly one
    request, in the order of creation, and every request went to an
    address the configuration allows: the openlist listing only while
    openlist is enabled, for a page from 1 on with page size 20; the
    xiaoya browser only while xiaoya is enabled; the emby listing for
    every other source type, where the emby flag and a non-empty key
    are required of the source type ['emby'] alone. *)
Theorem requests_follow_configuration (cfg : RuntimeConfig)
    (urlSource : option string) (inputs : list Input) :
  let s := session cfg urlSource inputs in
  map fst (requests s) = seq 0 (nextController s)
  /\ forall c e, In (c, e) (requests s) -> endpoint_allowed cfg e.
Proof.
  intros s. destruct (session_Logged cfg urlSource inputs) as [H1 H2]. fold s in H1, H2.
  split; [exact H1|]. intros c e Hin.
  rewrite Forall_forall in H2. apply (H2 (c, e)). now apply list_elem_of_In.
Qed.

(** ** A page arrives *)

(** The steps of a settlement run no effect: the state a settlement
    leaves is the state of the step. *)
Lemma step_settled (cfg : RuntimeConfig) (u : option string) (inputs : list Input)
    (i : Input) :
  let s := session cfg u inputs in
  same_deps (state s) (state (handle cfg i s)) ->
  step cfg u s i
  = with_committed (Some (state (handle cfg i s))) (handle cfg i s).
Proof.
  intros s Hd. unfold step.
  apply (idle_rerender cfg u (handle cfg i s) (state s)); [|exact Hd].
  rewrite committed_handle. apply session_settled.
Qed.

Lemma Quiet_same_deps (s s' : Session) : Quiet s s' -> same_deps (state s) (state s').
Proof.
  intros [Hp (H1 & H2 & H3 & H4 & H5 & H6) _ _ _ _ _ _ _].
  unfold same_deps. rewrite Hp, H1, H2, H3, H4, H5, H6. repeat split.
Qed.

(** The [try] and [finally] blocks of a call that was not aborted, on
    a response without error. *)
Lemma state_success (req : Request) (data : Data) (s : Session) :
  is_aborted s (controller req) = false ->
  truthy (d_error data) = false ->
  let f := on_finally req (on_data req data s) in
  (req_sourceType req <> "xiaoya" ->
   videos (state f)
   = (if isInitial req then default [] (d_list data)
      else videos (state s) ++ default [] (d_list data))%list
   /\ xiaoyaFolders (state f) = xiaoyaFolders (state s)
   /\ xiaoyaFiles (state f) = xiaoyaFiles (state s)
   /\ hasMore (state f)
      = (or_number (d_page data) (req_page req) <? or_number (d_totalPages data) 1))
  /\ (req_sourceType req = "xiaoya" ->
      videos (state f) = [] /\ hasMore (state f) = false
      /\ xiaoyaFolders (state f) = default [] (d_folders data)
      /\ xiaoyaFiles (state f) = default [] (d_files data))
  /\ error (state f) = error (state s)
  /\ page (state f) = page (state s)
  /\ loading (state f) = (if isInitial req then false else loading (state s))
  /\ loadingMore (state f) = (if isInitial req then loadingMore (state s) else false)
  /\ isFetchingRef f = false.
Proof.
  intros Hlive Herr f. subst f.
  unfold on_finally. rewrite (Quiet_is_aborted _ _ _ (on_data_Quiet req data s)), Hlive.
  unfold on_data. rewrite Herr.
  destruct (String.eqb_spec (req_sourceType req) "xiaoya") as [Ex|Ex];
    destruct (isInitial req); cbn; repeat split; intros; congruence.
Qed.

(** The step of a body that arrives for a live call. *)
Lemma json_ok_step (cfg : RuntimeConfig) (u : option string) (inputs : list Input)
    (c : nat) (req : Request) (data : Data) :
  let s := session cfg u inputs in
  live s c (mkPending req AwaitJson) ->
  let f := on_finally req (on_data req data s) in
  req = request_of (state s) c
  /\ is_aborted s (controller req) = false
  /\ Quiet s f
  /\ step cfg u s (JsonSettles c (Fulfilled data))
     = with_committed (Some (state f)) (with_inflight (delete c (inflight f)) f).
Proof.
  intros s Hlive f.
  pose proof (live_request cfg u inputs c _ Hlive) as Hreq.
  cbn [request] in Hreq. fold s in Hreq. destruct Hlive as [Hl Hlive].
  assert (Hh : handle cfg (JsonSettles c (Fulfilled data)) s
               = with_inflight (delete c (inflight f)) f).
  { cbn [handle]. unfold json_settles. rewrite Hl.
    now rewrite under_signal_live by exact Hlive. }
  assert (Q : Quiet s f).
  { subst f. eapply Quiet_trans; [apply on_data_Quiet | apply on_finally_Quiet]. }
  split; [exact Hreq|]. split; [now rewrite Hreq|]. split; [exact Q|].
  subst s. rewrite step_settled; rewrite Hh; [reflexivity|].
  apply (Quiet_same_deps _ _ Q).
Qed.

(** The step of a response with an ok status that arrives for a live
    call: the call waits for the body. *)
Lemma fetch_ok_step (cfg : RuntimeConfig) (u : option string) (inputs : list Input)
    (c : nat) (req : Request) :
  let s := session cfg u inputs in
  live s c (mkPending req AwaitFetch) ->
  step cfg u s (FetchSettles c (Fulfilled true))
  = with_inflight (<[c := mkPending req AwaitJson]> (inflight s)) s.
Proof.
  intros s [Hl Hlive].
  assert (Hh : handle cfg (FetchSettles c (Fulfilled true)) s
               = with_inflight (<[c := mkPending req AwaitJson]> (inflight s)) s).
  { cbn [handle]. unfold fetch_settles. rewrite Hl.
    now rewrite under_signal_live by exact Hlive. }
  subst s. rewrite step_settled; rewrite Hh; [|apply same_deps_refl].
  cbn [state with_inflight]. rewrite <- session_settled.
  now destruct (session cfg u inputs).
Qed.

(** X9. When the live call of a session receives a response without
    error, a source other than xiaoya replaces the videos by the list
    of the response if the page is 1 and appends the list to them
    otherwise; xiaoya sets the folders and the files, empties the
    videos and ends the paging.  Either way the error and the page
    stay, the loading flag of the call and the fetching ref are
    cleared, the call leaves the table, and nothing is sent. *)
Theorem successful_page_is_merged (cfg : RuntimeConfig) (urlSource : option string)
    (inputs : list Input) (c : nat) (req : Request) (data : Data) :
  let s := session cfg urlSource inputs in
  live s c (mkPending req AwaitJson) ->
  truthy (d_error data) = false ->
  let s' := step cfg urlSource s (JsonSettles c (Fulfilled data)) in
  let st := state s in
  let st' := state s' in
  (sourceType st <> "xiaoya" ->
   videos st'
   = (if page st =? 1 then default [] (d_list data)
      else videos st ++ default [] (d_list data))%list
   /\ xiaoyaFolders st' = xiaoyaFolders st
   /\ xiaoyaFiles st' = xiaoyaFiles st)
  /\ (sourceType st = "xiaoya" ->
      videos st' = [] /\ hasMore st' = false
      /\ xiaoyaFolders st' = default [] (d_folders data)
      /\ xiaoyaFiles st' = default [] (d_files data))
  /\ error st' = error st
  /\ page st' = page st
  /\ loading st' = (if page st =? 1 then false else loading st)
  /\ loadingMore st' = (if page st =? 1 then loadingMore st else false)
  /\ isFetchingRef s' = false
  /\ inflight s' !! c = None
  /\ requests s' = requests s.
Proof.
  intros s Hlive Herr s' st st'.
  destruct (json_ok_step cfg urlSource inputs c req data Hlive)
    as (Hreq & Hc & Q & Hs'). fold s in Hreq, Hc, Q, Hs'.
  set (f := on_finally req (on_data req data s)) in *.
  pose proof (state_success req data s Hc Herr) as H. cbn zeta in H. fold f in H.
  rewrite Hreq in H. cbn [request_of req_sourceType isInitial] in H.
  subst st st' s'. rewrite Hs'.
  cbn [state with_committed with_inflight isFetchingRef inflight requests].
  destruct H as (H1 & H2 & H3 & H4 & H5 & H6 & H7).
  split; [intros Hx; destruct (H1 Hx) as (V & F1 & F2 & _); auto|].
  split; [exact H2|]. split; [exact H3|]. split; [exact H4|].
  split; [exact H5|]. split; [exact H6|]. split; [exact H7|].
  split; [apply lookup_delete_eq | apply (quiet_requests _ _ Q)].
Qed.

Lemma successful_page_is_merged_witness :
  let s := session all_enabled emby_url awaiting_body in
  live s 1%nat (mkPending emby_request AwaitJson)
  /\ truthy (d_error (one_of_three [a_video "m1"])) = false
  /\ isFetchingRef
       (step all_enabled emby_url s
          (JsonSettles 1%nat (Fulfilled (one_of_three [a_video "m1"])))) = false.
Proof.
  intros s.
  assert (H : live s 1%nat (mkPending emby_request AwaitJson))
    by (split; vm_compute; reflexivity).
  assert (E : truthy (d_error (one_of_three [a_video "m1"])) = false) by reflexivity.
  destruct (successful_page_is_merged all_enabled emby_url awaiting_body 1%nat
              emby_request (one_of_three [a_video "m1"]) H E)
    as (_ & _ & _ & _ & _ & _ & F & _).
  exact (conj H (conj E F)).
Defined.

(** ** The sentinel asks for the next page *)

Lemma Fresh_commit (cfg : RuntimeConfig) (u : option string) (s : Session) :
  Inv s -> Fresh s -> Fresh (commit cfg u s).
Proof.
  intros HI HF c Hc.
  destruct (commit_controllers cfg u s HI) as (_ & _ & Hn).
  destruct (commit_cases cfg u s) as [[_ E]|(p & _ & _ & E)]; rewrite E in Hc.
  - set (s1 := reset_effects cfg u (changed (committed s) (state s)) s) in *.
    pose proof (reset_effects_Calm cfg u (changed (committed s) (state s)) s)
      as [Ha Hcur Hnx _]. fold s1 in Ha, Hcur, Hnx.
    unfold is_aborted, fetchEffect in Hc. cbn [aborted with_committed] in Hc.
    rewrite aborted_fetchVideos, abort_current_idem in Hc.
    apply (is_aborted_abort_current s1 c) in Hc. destruct Hc as [Hc|Hc].
    + unfold is_aborted in Hc. rewrite Ha in Hc. specialize (HF c Hc). lia.
    + rewrite Hcur in Hc. pose proof (inv_current s HI c Hc). lia.
  - specialize (HF c Hc). lia.
Qed.

Lemma session_Fresh (cfg : RuntimeConfig) (u : option string) (inputs : list Input) :
  Fresh (session cfg u inputs).
Proof.
  apply session_invariant.
  - intros c H. vm_compute in H. discriminate H.
  - intros s. apply Fresh_commit.
  - intros i s _ HF c Hc. pose proof (handle_Calm cfg i s) as [Ha _ Hn _].
    rewrite Hn. apply HF. unfold is_aborted in *. now rewrite <- Ha.
Qed.

(** The renders after a change that runs the fetch effect and no
    reset: the fetch effect runs once. *)
Lemma rerender_fetch_once (cfg : RuntimeConfig) (u : option string)
    (h : Session) (p : State) :
  committed h = Some p ->
  changed (Some p) (state h) FetchEffect = true ->
  reset_effects cfg u (changed (Some p) (state h)) h = h ->
  rerender cfg u h
  = with_committed (Some (state (fetchEffect cfg (state h) h)))
      (fetchEffect cfg (state h) h).
Proof.
  intros Hc Hf Hr. set (f := fetchEffect cfg (state h) h).
  assert (E1 : commit cfg u h = with_committed (Some (state h)) f).
  { rewrite busy_commit by (now rewrite Hc). rewrite Hc, Hr. reflexivity. }
  assert (E2 : commit cfg u (with_committed (Some (state h)) f)
               = with_committed (Some (state f)) f).
  { rewrite (idle_commit cfg u (with_committed (Some (state h)) f) (state h) eq_refl);
      [reflexivity|]. apply state_fetchEffect. }
  assert (E3 : commit cfg u (with_committed (Some (state f)) f)
               = with_committed (Some (state f)) f).
  { rewrite (idle_commit cfg u (with_committed (Some (state f)) f) (state f) eq_refl);
      [reflexivity|]. apply same_deps_refl. }
  unfold rerender. now rewrite E1, E2, E3.
Qed.

(** X10. In a session that has more to show and is neither loading nor
    fetching, the sentinel coming into view advances the page by one
    and, the source being enabled, sends exactly one request, for that
    next page: the call is live and not initial, the load-more flag and
    the fetching ref are set, and the videos shown stay. *)
Theorem sentinel_requests_next_page (cfg : RuntimeConfig) (urlSource : option string)
    (inputs : list Input) :
  let s := session cfg urlSource inputs in
  hasMore (state s) = true -> loading (state s) = false ->
  loadingMore (state s) = false -> isFetchingRef s = false ->
  let r := set_page (page (state s) + 1) (state s) in
  source_disabled cfg r = false ->
  let s' := step cfg urlSource s (Intersect true) in
  let c := nextController s in
  page (state s') = page (state s) + 1
  /\ requests s' = (requests s ++ [(c, endpoint_of r)])%list
  /\ live s' c (mkPending (request_of r c) AwaitFetch)
  /\ isInitial (request_of r c) = false
  /\ loadingMore (state s') = true
  /\ loading (state s') = false
  /\ isFetchingRef s' = true
  /\ videos (state s') = videos (state s)
  /\ error (state s') = "".
Proof.
  intros s Hm Hl Hlm Hf r Hd s' c.
  pose proof (session_Inv cfg urlSource inputs) as HI. fold s in HI.
  pose proof (session_settled cfg urlSource inputs) as Hst. fold s in Hst.
  pose proof (session_Fresh cfg urlSource inputs) as HF. fold s in HF.
  pose proof (inv_page s HI) as Hp.
  set (h := update (fun st => set_page (page st + 1) st) s).
  assert (Hh : handle cfg (Intersect true) s = h).
  { cbn [handle]. unfold observer_fire. now rewrite Hm, Hl, Hlm, Hf. }
  assert (Hne : page (state s) <> page (state s) + 1) by lia.
  assert (Hs' : s' = with_committed (Some (state (fetchEffect cfg r h)))
                       (fetchEffect cfg r h)).
  { subst s'. unfold step. rewrite Hh.
    apply (rerender_fetch_once cfg urlSource h (state s) Hst).
    - cbn. rewrite !bool_decide_eq_true_2 by reflexivity.
      now rewrite (bool_decide_eq_false_2 _ Hne).
    - unfold reset_effects. cbn [changed]. cbn.
      now rewrite !bool_decide_eq_true_2 by reflexivity. }
  rewrite fetchEffect_cases, Hd in Hs'.
  destruct (abort_current_frame h) as (A1 & A2 & A3 & A4 & A5 & A6 & A7 & A8).
  assert (Hone : (page r =? 1) = false) by (apply Z.eqb_neq; cbn; lia).
  assert (Hab : is_aborted (abort_current h) c = false).
  { destruct (is_aborted (abort_current h) c) eqn:E; [|reflexivity].
    apply (is_aborted_abort_current h c) in E. destruct E as [E|E].
    - apply (HF c) in E. subst c. lia.
    - apply (inv_current s HI c) in E. subst c. lia. }
  rewrite Hs'. unfold issued. rewrite Hone.
  cbn [state requests inflight isFetchingRef with_committed request_of isInitial].
  rewrite A1, A4, A6, A7. cbn.
  split; [reflexivity|]. split; [reflexivity|]. split.
  { split; [apply lookup_insert_eq | exact Hab]. }
  repeat split; try assumption.
Qed.

Lemma sentinel_requests_next_page_witness :
  let s := session all_enabled emby_url first_page_shown in
  hasMore (state s) = true /\ loading (state s) = false
  /\ loadingMore (state s) = false /\ isFetchingRef s = false
  /\ source_disabled all_enabled (set_page (page (state s) + 1) (state s)) = false
  /\ page (state (step all_enabled emby_url s (Intersect true))) = page (state s) + 1.
Proof.
  intros s.
  assert (H1 : hasMore (state s) = true) by (vm_compute; reflexivity).
  assert (H2 : loading (state s) = false) by (vm_compute; reflexivity).
  assert (H3 : loadingMore (state s) = false) by (vm_compute; reflexivity).
  assert (H4 : isFetchingRef s = false) by (vm_compute; reflexivity).
  assert (H5 : source_disabled all_enabled (set_page (page (state s) + 1) (state s))
               = false) by (vm_compute; reflexivity).
  exact (conj H1 (conj H2 (conj H3 (conj H4 (conj H5
           (proj1 (sentinel_requests_next_page all_enabled emby_url first_page_shown
                     H1 H2 H3 H4 H5))))))).
Defined.

(** ** Emby forced *)

(** X11. With openlist disabled and emby enabled the page opens on
    emby whatever the address says: the source parameter is not used,
    not even its key, so the page has no key, sends no request and
    shows no spinner until a key is set; navigating to another address
    changes nothing. *)
Theorem emby_forced_ignores_address (cfg : RuntimeConfig) (urlSource : option string) :
  OPENLIST_ENABLED cfg = false -> EMBY_ENABLED cfg = true ->
  let s := mount cfg urlSource in
  sourceType (state s) = "emby"
  /\ embyKey (state s) = None
  /\ requests s = []
  /\ loading (state s) = false
  /\ isFetchingRef s = false
  /\ forall u, step cfg urlSource s (Navigate u) = s.
Proof.
  intros Ho He.
  assert (Hi : forall u s, initEffect cfg u s = initEffect cfg None s).
  { intros u s. unfold initEffect. now rewrite Ho, He. }
  assert (Hc : forall u s, commit cfg u s = commit cfg None s).
  { intros u s. unfold commit, effects_pass. now rewrite (Hi u). }
  assert (Hr : forall u s, rerender cfg u s = rerender cfg None s).
  { intros u s. unfold rerender. now rewrite !(Hc u). }
  intros s. subst s. unfold step, mount. cbn [handle].
  rewrite !(Hr urlSource).
  assert (Hn : forall u, initEffect cfg u (rerender cfg None initial_session)
                         = initEffect cfg None (rerender cfg None initial_session))
    by (intros u; apply Hi).
  cut (let s := rerender cfg None initial_session in
       sourceType (state s) = "emby" /\ embyKey (state s) = None
       /\ requests s = [] /\ loading (state s) = false /\ isFetchingRef s = false
       /\ rerender cfg None (initEffect cfg None s) = s).
  { cbn zeta. intros (H1 & H2 & H3 & H4 & H5 & H6). repeat split; try assumption.
    intros u. rewrite (Hn u), (Hr urlSource). exact H6. }
  clear Hi Hc Hr Hn.
  destruct cfg as [o e x]. cbn in Ho, He. subst o e.
  destruct x; vm_compute; repeat split.
Qed.

Lemma emby_forced_ignores_address_witness :
  let cfg := mkRuntimeConfig false true false in
  OPENLIST_ENABLED cfg = false /\ EMBY_ENABLED cfg = true
  /\ sourceType (state (mount cfg emby_url)) = "emby"
  /\ embyKey (state (mount cfg emby_url)) = None.
Proof.
  intros cfg.
  destruct (emby_forced_ignores_address cfg emby_url eq_refl eq_refl)
    as (H1 & H2 & _).
  exact (conj eq_refl (conj eq_refl (conj H1 H2))).
Defined.

(** ** A change of the view on a later page *)

Lemma bool_decide_refl {A : Type} `{EqDecision A} (x : A) :
  bool_decide (x = x) = true.
Proof. now apply bool_decide_eq_true_2. Qed.

(** Two renders after a change that runs the fetch effect and no
    reset. *)
Lemma commit_twice_fetch_once (cfg : RuntimeConfig) (u : option string)
    (h : Session) (p : State) :
  committed h = Some p ->
  changed (Some p) (state h) FetchEffect = true ->
  reset_effects cfg u (changed (Some p) (state h)) h = h ->
  commit cfg u (commit cfg u h)
  = with_committed (Some (state (fetchEffect cfg (state h) h)))
      (fetchEffect cfg (state h) h).
Proof.
  intros Hc Hf Hr. set (f := fetchEffect cfg (state h) h).
  assert (E1 : commit cfg u h = with_committed (Some (state h)) f).
  { rewrite busy_commit by (now rewrite Hc). rewrite Hc, Hr. reflexivity. }
  assert (E2 : commit cfg u (with_committed (Some (state h)) f)
               = with_committed (Some (state f)) f).
  { rewrite (idle_commit cfg u (with_committed (Some (state h)) f) (state h) eq_refl);
      [reflexivity|]. apply state_fetchEffect. }
  now rewrite E1, E2.
Qed.

(** The session after the view was changed on a page other than the
    first, the source being enabled: the render of the change resets
    the listing and sends a load-more request from its own page; the
    next render, for page 1, supersedes it. *)
Lemma view_change_step (cfg : RuntimeConfig) (urlSource : option string)
    (inputs : list Input) (v : string) :
  let s := session cfg urlSource inputs in
  page (state s) <> 1 -> v <> selectedView (state s) ->
  source_disabled cfg (state s) = false ->
  let r1 := set_selectedView v (state s) in
  let c1 := with_committed (Some r1)
              (issued r1 (resetOnView (update (set_selectedView v) s))) in
  state c1
  = set_error "" (set_loadingMore true (set_loadingMore false (set_loading false
      (set_error "" (set_hasMore true (set_videos [] (set_page 1 r1)))))))
  /\ step cfg urlSource s (SetSelectedView v)
     = with_committed (Some (state (issued (state c1) c1))) (issued (state c1) c1).
Proof.
  intros s Hp Hv Hd r1 c1.
  pose proof (session_settled cfg urlSource inputs) as Hst. fold s in Hst.
  pose proof (session_initialized cfg urlSource inputs) as Hin. fold s in Hin.
  set (h := update (set_selectedView v) s) in *.
  assert (Hv' : selectedView (state s) <> v) by congruence.
  assert (Hone : (page r1 =? 1) = false) by (now apply Z.eqb_neq).
  assert (Hrv : resetOnView h
                = with_isFetchingRef false
                    (update (set_loadingMore false) (update (set_loading false)
                       (update (set_error "") (update (set_hasMore true)
                          (update (set_videos []) (update (set_page 1) h))))))).
  { unfold resetOnView. change (isInitializedRef h) with (isInitializedRef s).
    now rewrite Hin. }
  assert (S1 : state c1
               = set_error "" (set_loadingMore true (set_loadingMore false
                   (set_loading false (set_error "" (set_hasMore true
                      (set_videos [] (set_page 1 r1)))))))).
  { subst c1. unfold issued. rewrite Hone. cbn [state with_committed].
    rewrite (proj1 (abort_current_frame _)), Hrv. reflexivity. }
  split; [exact S1|].
  assert (E1 : commit cfg urlSource h = c1).
  { rewrite busy_commit.
    - change (committed h) with (committed s). rewrite Hst.
      unfold reset_effects. cbn [changed]. cbn.
      rewrite !bool_decide_refl.
      rewrite (bool_decide_eq_false_2 _ Hv'). cbn.
      rewrite fetchEffect_cases.
      change (source_disabled cfg _) with (source_disabled cfg (state s)).
      rewrite Hd. reflexivity.
    - change (committed h) with (committed s). rewrite Hst. cbn.
      rewrite !bool_decide_refl.
      rewrite (bool_decide_eq_false_2 _ Hv'). now rewrite !andb_false_r. }
  unfold step, rerender. cbn [handle]. fold h. rewrite E1.
  rewrite (commit_twice_fetch_once cfg urlSource c1 r1 eq_refl).
  - rewrite fetchEffect_cases.
    assert (Hd1 : source_disabled cfg (state c1) = false)
      by (rewrite S1; exact Hd).
    now rewrite Hd1.
  - rewrite S1. cbn. rewrite !bool_decide_refl.
    now rewrite (bool_decide_eq_false_2 _ Hp).
  - rewrite S1. unfold reset_effects. cbn [changed]. cbn.
    now rewrite !bool_decide_refl.
Qed.
Lemma session_snoc (cfg : RuntimeConfig) (u : option string) (inputs : list Input)
    (i : Input) :
  session cfg u (inputs ++ [i]) = step cfg u (session cfg u inputs) i.
Proof. unfold session. now rewrite fold_left_app. Qed.

(** A response without error arrives for the live call of a session:
    the two steps of the arrival. *)
Lemma arrival (cfg : RuntimeConfig) (u : option string) (inputs : list Input)
    (c : nat) (req : Request) (data : Data) :
  let s := session cfg u inputs in
  live s c (mkPending req AwaitFetch) ->
  truthy (d_error data) = false ->
  let s2 := step cfg u (step cfg u s (FetchSettles c (Fulfilled true)))
              (JsonSettles c (Fulfilled data)) in
  loading (state s2) = (if page (state s) =? 1 then false else loading (state s))
  /\ loadingMore (state s2)
     = (if page (state s) =? 1 then loadingMore (state s) else false)
  /\ isFetchingRef s2 = false
  /\ inflight s2 !! c = None
  /\ committed s2 = Some (state s2).
Proof.
  intros s Hlive Herr s2.
  set (i1 := (inputs ++ [FetchSettles c (Fulfilled true)])%list).
  assert (E1 : session cfg u i1
               = with_inflight (<[c := mkPending req AwaitJson]> (inflight s)) s).
  { subst i1. rewrite session_snoc. exact (fetch_ok_step cfg u inputs c req Hlive). }
  assert (L1 : live (session cfg u i1) c (mkPending req AwaitJson)).
  { rewrite E1. split; [apply lookup_insert_eq | apply Hlive]. }
  destruct (json_ok_step cfg u i1 c req data L1) as (Hreq & Hc & Q & Hstep).
  pose proof (state_success req data (session cfg u i1) Hc Herr) as H.
  cbn zeta in H. destruct H as (_ & _ & _ & _ & H5 & H6 & H7).
  assert (P : state (session cfg u i1) = state s)
    by (rewrite E1; reflexivity).
  assert (Hi : isInitial req = (page (state s) =? 1)).
  { rewrite Hreq. cbn [request_of isInitial]. now rewrite P. }
  rewrite Hi, P in H5, H6.
  assert (T : s2 = step cfg u (session cfg u i1) (JsonSettles c (Fulfilled data))).
  { subst s2 i1. now rewrite session_snoc. }
  rewrite T, Hstep. cbn [state isFetchingRef inflight committed with_committed
                         with_inflight].
  split; [exact H5|]. split; [exact H6|]. split; [exact H7|].
  split; [apply lookup_delete_eq | reflexivity].
Qed.
(** X16. The view is changed on a page other than the first, the
    source being enabled.  The step sends two requests: one from the
    render of the change, still for the old page, which sets the
    load-more flag, and one for page 1 from the render after the
    reset, which supersedes the first.  The superseded call never
    clears the load-more flag: it is still set when page 1 has
    arrived, and from then on the sentinel coming into view changes
    nothing. *)
Theorem view_change_on_later_page_stalls_paging (cfg : RuntimeConfig)
    (urlSource : option string) (inputs : list Input) (v : string) :
  let s := session cfg urlSource inputs in
  page (state s) <> 1 -> v <> selectedView (state s) ->
  source_disabled cfg (state s) = false ->
  let r1 := set_selectedView v (state s) in
  let r2 := set_page 1 r1 in
  let s1 := step cfg urlSource s (SetSelectedView v) in
  let c := nextController s in
  requests s1 = (requests s ++ [(c, endpoint_of r1); (S c, endpoint_of r2)])%list
  /\ is_aborted s1 c = true
  /\ live s1 (S c) (mkPending (request_of r2 (S c)) AwaitFetch)
  /\ page (state s1) = 1
  /\ loading (state s1) = true
  /\ loadingMore (state s1) = true
  /\ forall data,
      truthy (d_error data) = false ->
      let s2 := step cfg urlSource
                  (step cfg urlSource s1 (FetchSettles (S c) (Fulfilled true)))
                  (JsonSettles (S c) (Fulfilled data)) in
      loading (state s2) = false
      /\ loadingMore (state s2) = true
      /\ isFetchingRef s2 = false
      /\ inflight s2 !! S c = None
      /\ forall isIntersecting,
          step cfg urlSource s2 (Intersect isIntersecting) = s2.
Proof.
  intros s Hp Hv Hd r1 r2 s1 c.
  pose proof (session_Inv cfg urlSource inputs) as HI. fold s in HI.
  pose proof (session_Fresh cfg urlSource inputs) as HF. fold s in HF.
  destruct (view_change_step cfg urlSource inputs v Hp Hv Hd) as (S1 & Hs1).
  fold s r1 in S1, Hs1. fold s1 in Hs1.
  assert (T1 : session cfg urlSource (inputs ++ [SetSelectedView v]) = s1)
    by exact (session_snoc cfg urlSource inputs (SetSelectedView v)).
  clearbody s1 s.
  set (h := update (set_selectedView v) s) in *.
  set (c1 := with_committed (Some r1) (issued r1 (resetOnView h))) in *.
  assert (Hone : (page r1 =? 1) = false) by (now apply Z.eqb_neq).
  pose proof (resetOnView_Calm h) as [Ra Rc Rn Rr].
  destruct (abort_current_frame (resetOnView h))
    as (_ & _ & _ & A4 & _ & A6 & A7 & _).
  destruct (abort_current_frame c1) as (B1 & _ & _ & B4 & _ & B6 & B7 & _).
  assert (N1 : nextController c1 = S c).
  { subst c1. unfold issued. cbn. now rewrite A4, Rn. }
  assert (R1 : requests c1 = (requests s ++ [(c, endpoint_of r1)])%list).
  { subst c1. unfold issued. cbn. now rewrite A7, A4, Rr, Rn. }
  assert (C1 : abortControllerRef c1 = Some c).
  { subst c1. unfold issued. cbn. now rewrite A4, Rn. }
  assert (Hab : forall x, is_aborted s1 x = true <->
                          x = c \/ is_aborted s x = true
                          \/ abortControllerRef s = Some x).
  { intros x. rewrite Hs1. unfold issued, is_aborted. cbn [aborted with_committed].
    fold (is_aborted (abort_current c1) x).
    rewrite (is_aborted_abort_current c1 x), C1.
    assert (E : is_aborted c1 x = is_aborted (abort_current (resetOnView h)) x)
      by reflexivity.
    rewrite E, (is_aborted_abort_current (resetOnView h) x), Rc.
    unfold is_aborted. rewrite Ra. cbn.
    split; [intros [[H|H]|H]; auto; left; congruence
           | intros [H|[H|H]]; auto; right; congruence]. }
  assert (E2 : endpoint_of (state c1) = endpoint_of r2) by (now rewrite S1).
  assert (Q2 : request_of (state c1) (S c) = request_of r2 (S c))
    by (now rewrite S1).
  assert (L1 : live s1 (S c) (mkPending (request_of r2 (S c)) AwaitFetch)).
  { split.
    - rewrite Hs1. unfold issued. cbn [inflight with_committed].
      rewrite B4, N1, Q2. apply lookup_insert_eq.
    - destruct (is_aborted s1 (S c)) eqn:E; [|reflexivity].
      apply Hab in E. destruct E as [E|[E|E]]; [lia| |].
      + apply HF in E. subst c. lia.
      + apply (inv_current s HI) in E. subst c. lia. }
  assert (P1 : state s1 = set_error "" (set_loading true (state c1))).
  { assert (Hp1 : (page (state c1) =? 1) = true) by (rewrite S1; reflexivity).
    rewrite Hs1. unfold issued. rewrite Hp1. cbn [state with_committed].
    rewrite B1. reflexivity. }
  split.
  { rewrite Hs1. unfold issued. cbn [requests with_committed].
    rewrite B7, B4, R1, N1, E2, <- app_assoc. reflexivity. }
  split; [apply Hab; now left|]. split; [exact L1|].
  split; [now rewrite P1, S1|]. split; [now rewrite P1, S1|].
  split; [now rewrite P1, S1|].
  intros data Herr s2.
  pose proof (arrival cfg urlSource (inputs ++ [SetSelectedView v]) (S c)
                (request_of r2 (S c)) data) as A.
  cbn zeta in A. rewrite T1 in A. specialize (A L1 Herr). fold s2 in A.
  clearbody s2. destruct A as (K1 & K2 & K3 & K4 & K5).
  assert (G1 : page (state s1) = 1) by (rewrite P1, S1; reflexivity).
  assert (G2 : loadingMore (state s1) = true) by (rewrite P1, S1; reflexivity).
  rewrite G1 in K1, K2. cbn in K1, K2. rewrite G2 in K2.
  split; [exact K1|]. split; [exact K2|]. split; [exact K3|]. split; [exact K4|].
  intros b. unfold step. cbn [handle].
  assert (E : observer_fire b (state s2) s2 = s2).
  { unfold observer_fire. rewrite K2, !andb_false_r. reflexivity. }
  rewrite E. apply rerender_idle. exact K5.
Qed.

Lemma view_change_on_later_page_stalls_paging_witness :
  let s := session all_enabled emby_url second_page_requested in
  let s1 := step all_enabled emby_url s (SetSelectedView "movies") in
  page (state s) <> 1
  /\ "movies" <> selectedView (state s)
  /\ source_disabled all_enabled (state s) = false
  /\ page (state s1) = 1
  /\ loadingMore (state s1) = true.
Proof.
  intros s s1.
  assert (H1 : page (state s) <> 1) by (intros E; vm_compute in E; discriminate E).
  assert (H2 : "movies" <> selectedView (state s))
    by (intros E; vm_compute in E; discriminate E).
  assert (H3 : source_disabled all_enabled (state s) = false)
    by (vm_compute; reflexivity).
  destruct (view_change_on_later_page_stalls_paging all_enabled emby_url
              second_page_requested "movies" H1 H2 H3)
    as (_ & _ & _ & E1 & _ & E2 & _).
  exact (conj H1 (conj H2 (conj H3 (conj E1 E2)))).
Defined.

(** ** The spinner of the live call *)

(** A settlement after which a call is live has changed no state
    cell: it was the settlement of an aborted call, or the response
    with an ok status whose body is still to come. *)
Lemma live_after_settle (cfg : RuntimeConfig) (i : Input) (s : Session)
    (c' : nat) (q : Pending) :
  Inv s ->
  match i with FetchSettles _ _ | JsonSettles _ _ => True | _ => False end ->
  live (handle cfg i s) c' q -> state (handle cfg i s) = state s.
Proof.
  intros HI Hi [Hl Hlive].
  pose proof (handle_Calm cfg i s) as [Ha _ _ _].
  assert (Hlive' : is_aborted s c' = false) by (unfold is_aborted in *; now rewrite <- Ha).
  destruct i; try destruct Hi; cbn [handle] in *.
  - destruct (is_aborted s c) eqn:Hc.
    { destruct (fetch_settles_stale c raw s HI Hc) as [E|E]; rewrite E; reflexivity. }
    unfold fetch_settles in *.
    destruct (inflight s !! c) as [[req [|]]|] eqn:Hreq; try reflexivity.
    rewrite under_signal_live in * by exact Hc.
    pose proof (live_is_current s c _ HI (conj Hreq Hc)) as Hcc.
    assert (Hsame : c' = c).
    { destruct (decide (c = c')) as [->|Hne]; [reflexivity|].
      assert (Hl' : inflight s !! c' = Some q).
      { pose proof (after_fetch_Quiet req raw s) as Q.
        destruct (after_fetch req raw s) as [s' [|]]; cbn in *;
          rewrite (quiet_inflight _ _ Q) in Hl.
        - now rewrite lookup_insert_ne in Hl by exact Hne.
        - now apply lookup_delete_Some in Hl as [_ Hl]. }
      pose proof (live_is_current s c' q HI (conj Hl' Hlive')) as Hcc'. congruence. }
    subst c'.
    destruct raw as [[|]|e]; cbn [after_fetch] in *; cbn in *.
    + reflexivity.
    + now rewrite lookup_delete_eq in Hl.
    + now rewrite lookup_delete_eq in Hl.
  - destruct (is_aborted s c) eqn:Hc.
    { destruct (json_settles_stale c raw s HI Hc) as [E|E]; rewrite E; reflexivity. }
    unfold json_settles in *.
    destruct (inflight s !! c) as [[req [|]]|] eqn:Hreq; try reflexivity.
    pose proof (live_is_current s c _ HI (conj Hreq Hc)) as Hcc.
    pose proof (after_json_Quiet req (under_signal s c raw) s) as Q.
    cbn in Hl. apply lookup_delete_Some in Hl as [Hne Hl].
    rewrite (quiet_inflight _ _ Q) in Hl.
    pose proof (live_is_current s c' q HI (conj Hl Hlive')) as Hcc'. congruence.
Qed.

Lemma Shown_handle (cfg : RuntimeConfig) (i : Input) (s : Session) :
  Inv s -> Shown s -> Shown (handle cfg i s).
Proof.
  intros HI HS c q Hq.
  destruct (live_handle cfg i s c q Hq) as (q0 & Hq0 & E).
  pose proof (HS c q0 Hq0) as Hf. rewrite E in Hf.
  destruct i;
    try (match goal with
         | |- context [handle cfg ?i s] =>
             destruct (handle_still cfg i s I) as (_ & _ & _ & _ & E2 & E3)
         end;
         rewrite E2, E3; exact Hf);
    (match goal with
     | |- context [handle cfg ?i s] =>
         rewrite (live_after_settle cfg i s c q HI I Hq)
     end; exact Hf).
Qed.

Lemma Shown_commit (cfg : RuntimeConfig) (u : option string) (s : Session) :
  Inv s -> Shown s -> Shown (commit cfg u s).
Proof.
  intros HI HS. destruct (commit_cases cfg u s) as [[_ ->]|(p & _ & _ & ->)].
  - intros c q Hq. apply live_with_committed in Hq.
    apply live_after_fetchEffect in Hq; [|now apply reset_effects_Inv].
    destruct Hq as (Hd & _ & -> & _).
    cbn [state with_committed request request_of isInitial].
    rewrite fetchEffect_cases, Hd. unfold issued. cbn [state].
    destruct (page (state s) =? 1); reflexivity.
  - intros c q Hq. now apply (HS c q).
Qed.

Lemma session_Shown (cfg : RuntimeConfig) (u : option string) (inputs : list Input) :
  Shown (session cfg u inputs).
Proof.
  apply session_invariant.
  - intros c p [Hl _]. discriminate Hl.
  - intros s. apply Shown_commit.
  - intros i s. apply Shown_handle.
Qed.

(** X17. In every session, while a call is live the loading flag of
    the call is set: the initial-loading flag for a call for page 1,
    the load-more flag for a call for a later page.  (The error is
    another matter: a xiaoya search that fails sets it while a call is
    live.) *)
Theorem live_call_shows_its_spinner (cfg : RuntimeConfig) (urlSource : option string)
    (inputs : list Input) (c : nat) (p : Pending) :
  let s := session cfg urlSource inputs in
  live s c p ->
  (page (state s) = 1 -> loading (state s) = true)
  /\ (page (state s) <> 1 -> loadingMore (state s) = true).
Proof.
  intros s H. pose proof (session_Shown cfg urlSource inputs c p H) as Hf.
  fold s in Hf.
  rewrite (live_request cfg urlSource inputs c p H) in Hf. fold s in Hf.
  cbn [request_of isInitial] in Hf.
  split; intros Hp.
  - apply Z.eqb_eq in Hp. now rewrite Hp in Hf.
  - apply Z.eqb_neq in Hp. now rewrite Hp in Hf.
Qed.

Lemma live_call_shows_its_spinner_witness :
  let s := session all_enabled emby_url
             (second_page_requested ++ [XiaoyaSearchSettles (Rejected (Js.mkError "TypeError" "Failed to fetch"))]) in
  live s 2%nat (mkPending (request_of (state s) 2) AwaitFetch)
  /\ error (state s) = "搜索失败"
  /\ (page (state s) <> 1 -> loadingMore (state s) = true).
Proof.
  intros s.
  assert (H : live s 2%nat (mkPending (request_of (state s) 2) AwaitFetch))
    by (split; vm_compute; reflexivity).
  assert (E : error (state s) = "搜索失败") by (vm_compute; reflexivity).
  destruct (live_call_shows_its_spinner all_enabled emby_url
              (second_page_requested ++ [XiaoyaSearchSettles (Rejected (Js.mkError "TypeError" "Failed to fetch"))])
              2%nat _ H) as (_ & E2).
  exact (conj H (conj E E2)).
Defined.

(** ** A change on the first page *)

(** The renders after a change that runs the fetch effect, the resets
    leaving the dependencies as they are: the fetch effect runs once. *)
Lemma rerender_one_fetch (cfg : RuntimeConfig) (u : option string)
    (h : Session) (p : State) :
  committed h = Some p ->
  changed (Some p) (state h) FetchEffect = true ->
  same_deps (state h) (state (reset_effects cfg u (changed (Some p) (state h)) h)) ->
  rerender cfg u h
  = with_committed
      (Some (state (fetchEffect cfg (state h)
                      (reset_effects cfg u (changed (Some p) (state h)) h))))
      (fetchEffect cfg (state h) (reset_effects cfg u (changed (Some p) (state h)) h)).
Proof.
  intros Hc Hf Hd.
  set (f := fetchEffect cfg (state h) (reset_effects cfg u (changed (Some p) (state h)) h)).
  assert (E1 : commit cfg u h = with_committed (Some (state h)) f).
  { rewrite busy_commit by (now rewrite Hc). now rewrite Hc. }
  assert (E2 : commit cfg u (with_committed (Some (state h)) f)
               = with_committed (Some (state f)) f).
  { rewrite (idle_commit cfg u (with_committed (Some (state h)) f) (state h) eq_refl);
      [reflexivity|].
    eapply same_deps_trans; [exact Hd | apply state_fetchEffect]. }
  assert (E3 : commit cfg u (with_committed (Some (state f)) f)
               = with_committed (Some (state f)) f).
  { rewrite (idle_commit cfg u (with_committed (Some (state f)) f) (state f) eq_refl);
      [reflexivity|]. apply same_deps_refl. }
  unfold rerender. now rewrite E1, E2, E3.
Qed.

(** On the first page the resets move no dependency, the view being
    ['all'] already where the source or the key changed. *)
Lemma reset_effects_on_first_page (cfg : RuntimeConfig) (u : option string)
    (p : State) (h : Session) :
  isInitializedRef h = true -> page (state h) = 1 ->
  (changed (Some p) (state h) ResetSourceEffect = true -> selectedView (state h) = "all") ->
  same_deps (state h) (state (reset_effects cfg u (changed (Some p) (state h)) h)).
Proof.
  intros Hin Hp Hv. rewrite reset_effects_later. cbn zeta.
  destruct (changed (Some p) (state h) ResetSourceEffect);
    [specialize (Hv eq_refl)|clear Hv];
    destruct (changed (Some p) (state h) ResetViewEffect);
    destruct (changed (Some p) (state h) ResetSortEffect);
    unfold resetOnSort, resetOnView, resetOnSource;
    repeat (cbn [isInitializedRef with_isFetchingRef update with_state]; rewrite ?Hin;
            cbn [negb]);
    try destruct (negb (String.eqb (sourceType (state h)) "emby"));
    unfold same_deps; cbn; rewrite ?Hp, ?Hv; repeat split.
Qed.

(** X18. A change of the source, the key, the view, the path or the
    sort made on the first page (the view being ['all'] where the
    source or the key changes) sends exactly one request, the source
    being enabled: the request of the changed state.  Its call is
    live and every earlier one is aborted; the page is still 1, the
    initial-loading flag and the fetching ref are set and the error is
    empty. *)
Theorem first_page_change_sends_one_request (cfg : RuntimeConfig)
    (urlSource : option string) (inputs : list Input) (i : Input) :
  let s := session cfg urlSource inputs in
  let r := state (handle cfg i s) in
  ~ same_deps (state s) r ->
  page r = 1 ->
  (sourceType r <> sourceType (state s) \/ embyKey r <> embyKey (state s) ->
   selectedView r = "all") ->
  source_disabled cfg r = false ->
  let s' := step cfg urlSource s i in
  let c := nextController s in
  requests s' = (requests s ++ [(c, endpoint_of r)])%list
  /\ live s' c (mkPending (request_of r c) AwaitFetch)
  /\ (forall c', (c' < c)%nat -> is_aborted s' c' = true)
  /\ page (state s') = 1
  /\ loading (state s') = true
  /\ error (state s') = ""
  /\ isFetchingRef s' = true.
Proof.
  intros s r Hne Hp Hv Hd s' c.
  pose proof (session_Inv cfg urlSource inputs) as HI. fold s in HI.
  pose proof (session_Fresh cfg urlSource inputs) as HF. fold s in HF.
  pose proof (session_settled cfg urlSource inputs) as Hst. fold s in Hst.
  pose proof (session_initialized cfg urlSource inputs) as Hin. fold s in Hin.
  set (h := handle cfg i s) in *.
  pose proof (handle_Inv cfg i s HI) as HIh. fold h in HIh.
  pose proof (initialized_handle cfg i s Hin) as Hinh. fold h in Hinh.
  pose proof (handle_Calm cfg i s) as [Ha Hc Hn Hr]. fold h in Ha, Hc, Hn, Hr.
  assert (Hch : committed h = Some (state s)).
  { subst h. rewrite committed_handle. exact Hst. }
  assert (Hv' : changed (Some (state s)) r ResetSourceEffect = true ->
                selectedView r = "all").
  { intros E. apply Hv. cbn in E. apply negb_true_iff, andb_false_iff in E.
    destruct E as [E|E]; apply bool_decide_eq_false in E; [left|right]; congruence. }
  set (h' := reset_effects cfg urlSource (changed (Some (state s)) r) h).
  pose proof (reset_effects_on_first_page cfg urlSource (state s) h Hinh Hp Hv') as Hdeps.
  fold r h' in Hdeps.
  pose proof (reset_effects_Calm cfg urlSource (changed (Some (state s)) r) h)
    as [Ra Rc Rn Rr]. fold h' in Ra, Rc, Rn, Rr.
  pose proof (reset_effects_Inv cfg urlSource (changed (Some (state s)) r) h HIh) as HI'.
  fold h' in HI'.
  assert (Hs' : s' = with_committed (Some (state (issued r h'))) (issued r h')).
  { subst s'. unfold step. fold h.
    rewrite (rerender_one_fetch cfg urlSource h (state s) Hch
               (changed_fetch _ _ Hne) Hdeps).
    fold r h'. rewrite fetchEffect_cases, Hd. reflexivity. }
  clearbody s' s h h'.
  destruct (abort_current_frame h') as (B1 & _ & _ & B4 & _ & B6 & B7 & _).
  assert (Hone : (page r =? 1) = true) by (now apply Z.eqb_eq).
  assert (Nc : nextController h' = c) by (subst c; congruence).
  assert (Hab : forall x, is_aborted s' x = true <->
                          is_aborted s x = true \/ abortControllerRef s = Some x).
  { intros x. rewrite Hs'. unfold issued, is_aborted. cbn [aborted with_committed].
    fold (is_aborted (abort_current h') x).
    rewrite (is_aborted_abort_current h' x), Rc, Hc.
    unfold is_aborted. now rewrite Ra, Ha. }
  assert (St : state s' = set_error "" (set_loading true (state h'))).
  { rewrite Hs'. unfold issued. rewrite Hone. cbn [state with_committed].
    now rewrite B1. }
  split.
  { rewrite Hs'. unfold issued. cbn [requests with_committed].
    now rewrite B7, B4, Rr, Hr, Nc. }
  split.
  { split.
    - rewrite Hs'. unfold issued. cbn [inflight with_committed].
      rewrite B4, Nc. apply lookup_insert_eq.
    - destruct (is_aborted s' c) eqn:E; [|reflexivity].
      apply Hab in E. destruct E as [E|E].
      + apply HF in E. subst c. lia.
      + apply (inv_current s HI) in E. subst c. lia. }
  split.
  { intros c' Hlt. apply Hab. apply (inv_controllers s HI c' Hlt). }
  destruct Hdeps as (_ & _ & D3 & _).
  split; [rewrite St; cbn; congruence|].
  split; [now rewrite St|]. split; [now rewrite St|].
  rewrite Hs'. reflexivity.
Qed.

Lemma first_page_change_sends_one_request_witness :
  let cfg := mkRuntimeConfig false true false in
  let s := session cfg None [] in
  let i := SetEmbyKey (Some "main") in
  ~ same_deps (state s) (state (handle cfg i s))
  /\ source_disabled cfg (state (handle cfg i s)) = false
  /\ requests (step cfg None s i)
     = (requests s ++ [(nextController s, endpoint_of (state (handle cfg i s)))])%list.
Proof.
  intros cfg s i.
  assert (H1 : ~ same_deps (state s) (state (handle cfg i s))).
  { intros (_ & E & _). vm_compute in E. discriminate E. }
  assert (H2 : page (state (handle cfg i s)) = 1) by (vm_compute; reflexivity).
  assert (H3 : sourceType (state (handle cfg i s)) <> sourceType (state s)
               \/ embyKey (state (handle cfg i s)) <> embyKey (state s) ->
               selectedView (state (handle cfg i s)) = "all")
    by (intros _; vm_compute; reflexivity).
  assert (H4 : source_disabled cfg (state (handle cfg i s)) = false)
    by (vm_compute; reflexivity).
  exact (conj H1 (conj H4
           (proj1 (first_page_change_sends_one_request cfg None [] i H1 H2 H3 H4)))).
Defined.

End SessionExtras.

(** * The listing after a change, and under a source switched off *)

Module ListingProperties.
Import Api Page Invariants Discipline Scenario PageProperties SessionExtras.


Lemma source_disabled_same_source (cfg : RuntimeConfig) (a b : State) :
  same_source a b -> source_disabled cfg a = source_disabled cfg b.
Proof. intros [H1 H2]. unfold source_disabled. now rewrite H1, H2. Qed.

Lemma same_deps_same_source (a b : State) : same_deps a b -> same_source a b.
Proof. intros (H1 & H2 & _). now split. Qed.

Lemma same_source_trans (a b c : State) :
  same_source a b -> same_source b c -> same_source a c.
Proof. intros [H1 H2] [H3 H4]. split; congruence. Qed.

Lemma same_source_sym (a b : State) : same_source a b -> same_source b a.
Proof. intros [H1 H2]. now split. Qed.

(** The reset effects of a render after the first keep the source. *)
Lemma reset_effects_same_source (cfg : RuntimeConfig) (u : option string)
    (which : Effect -> bool) (s : Session) :
  which InitEffect = false ->
  same_source (state s) (state (reset_effects cfg u which s)).
Proof.
  intros H. unfold reset_effects, resetOnSort, resetOnView, resetOnSource. rewrite H.
  repeat match goal with
         | |- context [if ?b then _ else _] => destruct b
         end; cbn; now split.
Qed.

Lemma is_reset_blank (s : Session) : is_reset s -> blank (state s) /\ at_start (state s).
Proof. intros (H1 & H2 & H3 & H4 & H5 & H6). now repeat split. Qed.

(** The reset effects of a render after the first keep an empty
    listing empty. *)
Lemma reset_effects_blank (cfg : RuntimeConfig) (u : option string)
    (which : Effect -> bool) (s : Session) :
  which InitEffect = false -> blank (state s) ->
  blank (state (reset_effects cfg u which s)).
Proof.
  intros H (H1 & H2 & H3 & H4).
  unfold reset_effects, resetOnSort, resetOnView, resetOnSource. rewrite H.
  repeat match goal with
         | |- context [if ?b then _ else _] => destruct b
         end; cbn; now repeat split.
Qed.

Lemma reset_effects_at_start (cfg : RuntimeConfig) (u : option string)
    (which : Effect -> bool) (s : Session) :
  which InitEffect = false -> at_start (state s) ->
  at_start (state (reset_effects cfg u which s)).
Proof.
  intros H (H1 & H2 & H3 & H4).
  unfold reset_effects, resetOnSort, resetOnView, resetOnSource. rewrite H.
  repeat match goal with
         | |- context [if ?b then _ else _] => destruct b
         end; cbn; now repeat split.
Qed.

(** The first render resets the listing: the init effect has run. *)
Lemma reset_effects_first (cfg : RuntimeConfig) (u : option string) (s : Session) :
  is_reset (reset_effects cfg u (fun _ => true) s).
Proof.
  unfold reset_effects. cbn match.
  apply resetOnSort_keeps_reset, resetOnView_keeps_reset, resetOnSource_is_reset.
  reflexivity.
Qed.

Lemma changed_first (r : State) (e : Effect) : changed None r e = true.
Proof. reflexivity. Qed.

Lemma changed_init (p r : State) : changed (Some p) r InitEffect = false.
Proof. reflexivity. Qed.

Lemma changed_source_false (p r : State) :
  changed (Some p) r ResetSourceEffect = false -> same_source p r.
Proof.
  cbn. intros H. apply negb_false_iff, andb_true_iff in H as [H1 H2].
  apply bool_decide_eq_true in H1, H2. now split.
Qed.

(** What the fetch effect of a disabled source does to the state. *)
Lemma state_fetchEffect_disabled (cfg : RuntimeConfig) (r : State) (s : Session) :
  source_disabled cfg r = true ->
  state (fetchEffect cfg r s) = set_loading false (state s)
  /\ requests (fetchEffect cfg r s) = requests s.
Proof.
  intros Hd. rewrite fetchEffect_cases, Hd.
  destruct (abort_current_frame s) as (H1 & _ & _ & _ & _ & _ & H2 & _).
  cbn. now rewrite H1, H2.
Qed.

Lemma state_fetchEffect_enabled (cfg : RuntimeConfig) (r : State) (s : Session) :
  source_disabled cfg r = false ->
  state (fetchEffect cfg r s)
  = set_error "" (if page r =? 1 then set_loading true (state s)
                  else set_loadingMore true (state s)).
Proof.
  intros Hd. rewrite fetchEffect_cases, Hd.
  destruct (abort_current_frame s) as (H1 & _).
  cbn. now rewrite H1.
Qed.


(** ** A disabled source *)

Lemma commit_Unsent (cfg : RuntimeConfig) (u : option string) (s : Session) :
  Inv s -> Unsent cfg s -> Unsent cfg (commit cfg u s).
Proof.
  intros HI HU r Hc Hd c q Hl.
  assert (Hr : r = state s) by (unfold commit in Hc; cbn in Hc; congruence).
  subst r.
  destruct (commit_cases cfg u s) as [[_ E]|(p & Hp & Hs & E)];
    rewrite E in Hl; apply live_with_committed in Hl.
  - pose proof (reset_effects_Inv cfg u (changed (committed s) (state s)) s HI) as HI'.
    destruct (live_after_fetchEffect cfg (state s) _ c q HI' Hl) as (Hd' & _).
    congruence.
  - apply (HU p Hp) in Hl; [exact Hl|].
    now rewrite (source_disabled_same_source cfg p (state s))
      by (now apply same_deps_same_source).
Qed.

Lemma blank_set_loading (st : State) :
  videos st = [] -> hasMore st = true -> loadingMore st = false ->
  blank (set_loading false st).
Proof. intros H1 H2 H3. now repeat split. Qed.

Lemma commit_Cleared (cfg : RuntimeConfig) (u : option string) (s : Session) :
  (committed s <> None -> isInitializedRef s = true) ->
  Cleared cfg s -> Cleared cfg (commit cfg u s).
Proof.
  intros Hi HC r Hc Hd _.
  assert (Hr : r = state s) by (unfold commit in Hc; cbn in Hc; congruence).
  subst r.
  destruct (commit_cases cfg u s) as [[_ E]|(p & Hp & Hs & E)]; rewrite E;
    cbn [state with_committed].
  - destruct (state_fetchEffect_disabled cfg (state s)
                (reset_effects cfg u (changed (committed s) (state s)) s) Hd)
      as [-> _].
    assert (B : blank (state (reset_effects cfg u (changed (committed s) (state s)) s))).
    { destruct (committed s) as [p|] eqn:Hp.
      - destruct (changed (Some p) (state s) ResetSourceEffect) eqn:Hch.
        + apply is_reset_blank. rewrite reset_effects_later.
          apply reset_chain; [apply Hi; discriminate | left; exact Hch].
        + apply changed_source_false in Hch.
          apply reset_effects_blank; [reflexivity|].
          apply (HC p Hp); [|exact Hch].
          now rewrite (source_disabled_same_source cfg p (state s)).
      - apply is_reset_blank, reset_effects_first. }
    destruct B as (B1 & B2 & _ & B4). now apply blank_set_loading.
  - apply (HC p Hp); [|now apply same_deps_same_source].
    now rewrite (source_disabled_same_source cfg p (state s))
      by (now apply same_deps_same_source).
Qed.

Lemma committed_commit (cfg : RuntimeConfig) (u : option string) (s : Session) :
  committed (commit cfg u s) = Some (state s).
Proof. reflexivity. Qed.

Lemma rerender_Unsent_Cleared (cfg : RuntimeConfig) (u : option string) (s : Session) :
  Inv s -> (committed s <> None -> isInitializedRef s = true) ->
  Unsent cfg s -> Cleared cfg s ->
  Unsent cfg (rerender cfg u s) /\ Cleared cfg (rerender cfg u s).
Proof.
  intros HI Hi HU HC. unfold rerender.
  pose proof (commit_Inv cfg u s HI) as HI1.
  pose proof (commit_Inv cfg u _ HI1) as HI2.
  assert (Hi1 : isInitializedRef (commit cfg u s) = true).
  { apply initialized_commit. destruct (committed s); [left; apply Hi; discriminate|now right]. }
  assert (Hi2 : isInitializedRef (commit cfg u (commit cfg u s)) = true)
    by (apply initialized_commit; now left).
  split.
  - apply commit_Unsent; [exact HI2|].
    apply commit_Unsent; [exact HI1|].
    now apply commit_Unsent.
  - apply commit_Cleared; [intros _; exact Hi2|].
    apply commit_Cleared; [intros _; exact Hi1|].
    now apply commit_Cleared.
Qed.

(** A call that is not live settles without a write to the state. *)
Lemma settle_not_live (cfg : RuntimeConfig) (i : Input) (s : Session) :
  Inv s -> (forall c p, ~ live s c p) ->
  match i with FetchSettles _ _ | JsonSettles _ _ => True | _ => False end ->
  state (handle cfg i s) = state s.
Proof.
  intros HI Hn Hi. destruct i; try destruct Hi; cbn [handle].
  - destruct (is_aborted s c) eqn:Ha.
    + destruct (fetch_settles_stale c raw s HI Ha) as [->| ->]; reflexivity.
    + unfold fetch_settles. destruct (inflight s !! c) as [q|] eqn:Hl; [|reflexivity].
      now destruct (Hn c q).
  - destruct (is_aborted s c) eqn:Ha.
    + destruct (json_settles_stale c raw s HI Ha) as [->| ->]; reflexivity.
    + unfold json_settles. destruct (inflight s !! c) as [q|] eqn:Hl; [|reflexivity].
      now destruct (Hn c q).
Qed.

Lemma handle_blank (cfg : RuntimeConfig) (i : Input) (s : Session) :
  Inv s -> (forall c p, ~ live s c p) ->
  blank (state s) -> blank (state (handle cfg i s)).
Proof.
  intros HI Hn B.
  destruct i as [v|k|v|v| |p|u0|b|c raw|c raw|res].
  9: { now rewrite (settle_not_live cfg (FetchSettles c raw) s HI Hn I). }
  9: { now rewrite (settle_not_live cfg (JsonSettles c raw) s HI Hn I). }
  all: destruct B as (B1 & B2 & B3 & B4); cbn [handle].
  1-6: now repeat split.
  - unfold initEffect.
    repeat match goal with |- context [if ?b then _ else _] => destruct b end;
      now repeat split.
  - unfold observer_fire. destruct (_ && _); now repeat split.
  - unfold handleXiaoyaSearch. destruct res as [d|e]; [destruct (truthy d)|];
      now repeat split.
Qed.

Lemma handle_Unsent_Cleared (cfg : RuntimeConfig) (i : Input) (s : Session) :
  Inv s -> committed s = Some (state s) ->
  (source_disabled cfg (state s) = true ->
   blank (state s) /\ forall c p, ~ live s c p) ->
  Unsent cfg (handle cfg i s) /\ Cleared cfg (handle cfg i s).
Proof.
  intros HI Hc H. split.
  - intros r Hr Hd c q Hl. rewrite committed_handle, Hc in Hr. injection Hr as <-.
    destruct (live_handle cfg i s c q Hl) as (q0 & Hl0 & _).
    now apply (proj2 (H Hd) c q0).
  - intros r Hr Hd _. rewrite committed_handle, Hc in Hr. injection Hr as <-.
    destruct (H Hd) as [B Hn]. now apply handle_blank.
Qed.

(** In every session, under a source that is switched off the listing
    is empty and nothing is in flight. *)
Lemma session_disabled (cfg : RuntimeConfig) (u : option string) (inputs : list Input) :
  source_disabled cfg (state (session cfg u inputs)) = true ->
  blank (state (session cfg u inputs))
  /\ forall c p, ~ live (session cfg u inputs) c p.
Proof.
  assert (H : Unsent cfg (session cfg u inputs) /\ Cleared cfg (session cfg u inputs)).
  { induction inputs as [|i inputs IH] using rev_ind.
    - apply rerender_Unsent_Cleared.
      + apply initial_session_Inv.
      + intros E. now destruct E.
      + intros r E. discriminate E.
      + intros r E. discriminate E.
    - rewrite session_snoc. unfold step.
      pose proof (session_Inv cfg u inputs) as HI.
      pose proof (session_settled cfg u inputs) as Hc.
      pose proof (session_initialized cfg u inputs) as Hi.
      destruct IH as [HU HC].
      destruct (handle_Unsent_Cleared cfg i _ HI Hc) as [HU1 HC1].
      { intros Hd. split.
        - apply (HC _ Hc Hd). now split.
        - apply (HU _ Hc Hd). }
      apply rerender_Unsent_Cleared; auto.
      + now apply handle_Inv.
      + intros _. now apply initialized_handle. }
  intros Hd. destruct H as [HU HC].
  pose proof (session_settled cfg u inputs) as Hc. split.
  - apply (HC _ Hc Hd). now split.
  - apply (HU _ Hc Hd).
Qed.


Lemma reset_effects_error (cfg : RuntimeConfig) (u : option string)
    (which : Effect -> bool) (s : Session) :
  which InitEffect = false ->
  error (state (reset_effects cfg u which s)) = error (state s)
  \/ error (state (reset_effects cfg u which s)) = "".
Proof.
  intros H. unfold reset_effects, resetOnSort, resetOnView, resetOnSource. rewrite H.
  repeat match goal with
         | |- context [if ?b then _ else _] => destruct b
         end; cbn; auto.
Qed.

(** A render of a source that is switched off, after the first: its
    effects send nothing and set no error. *)
Lemma commit_disabled (cfg : RuntimeConfig) (u : option string) (s : Session) :
  committed s <> None -> source_disabled cfg (state s) = true ->
  requests (commit cfg u s) = requests s
  /\ same_source (state s) (state (commit cfg u s))
  /\ (error (state (commit cfg u s)) = error (state s)
      \/ error (state (commit cfg u s)) = "").
Proof.
  intros Hc Hd.
  destruct (commit_cases cfg u s) as [[_ E]|(p & Hp & Hs & E)]; rewrite E;
    cbn [state requests with_committed].
  - destruct (committed s) as [p|] eqn:Hp; [clear Hc | now destruct Hc].
    set (X := reset_effects cfg u (changed (Some p) (state s)) s).
    destruct (state_fetchEffect_disabled cfg (state s) X Hd) as [-> ->].
    split; [apply (calm_requests _ _ (reset_effects_Calm cfg u _ s))|].
    split; [apply (reset_effects_same_source cfg u _ s eq_refl)|].
    apply (reset_effects_error cfg u _ s eq_refl).
  - split; [reflexivity|]. split; [now split | now left].
Qed.

Lemma step_disabled (cfg : RuntimeConfig) (u : option string) (s : Session) (i : Input) :
  committed s <> None ->
  source_disabled cfg (state (handle cfg i s)) = true ->
  requests (step cfg u s i) = requests s
  /\ source_disabled cfg (state (step cfg u s i)) = true
  /\ (error (state (step cfg u s i)) = error (state (handle cfg i s))
      \/ error (state (step cfg u s i)) = "").
Proof.
  intros Hc Hd. unfold step, rerender.
  set (h := handle cfg i s) in *.
  assert (Hh : committed h <> None) by (subst h; now rewrite committed_handle).
  assert (Rh : requests h = requests s) by (apply (calm_requests _ _ (handle_Calm cfg i s))).
  destruct (commit_disabled cfg u h Hh Hd) as (R1 & S1 & E1).
  set (c1 := commit cfg u h) in *.
  assert (D1 : source_disabled cfg (state c1) = true)
    by (now rewrite <- (source_disabled_same_source cfg _ _ S1)).
  destruct (commit_disabled cfg u c1 ltac:(discriminate) D1) as (R2 & S2 & E2).
  set (c2 := commit cfg u c1) in *.
  assert (D2 : source_disabled cfg (state c2) = true)
    by (now rewrite <- (source_disabled_same_source cfg _ _ S2)).
  destruct (commit_disabled cfg u c2 ltac:(discriminate) D2) as (R3 & S3 & E3).
  split; [congruence|]. split.
  - now rewrite <- (source_disabled_same_source cfg _ _ S3).
  - destruct E3 as [E3|E3]; [|now right]. rewrite E3.
    destruct E2 as [E2|E2]; [|now right]. rewrite E2. exact E1.
Qed.


(** ** A change of the source, the view or the sort *)

Lemma fetchEffect_at_start (cfg : RuntimeConfig) (r : State) (s : Session) :
  at_start (state s) -> at_start (state (fetchEffect cfg r s)).
Proof.
  intros (H1 & H2 & H3 & H4). destruct (source_disabled cfg r) eqn:Hd.
  - destruct (state_fetchEffect_disabled cfg r s Hd) as [-> _]. now repeat split.
  - rewrite (state_fetchEffect_enabled cfg r s Hd).
    destruct (page r =? 1); now repeat split.
Qed.

Lemma fetchEffect_loading (cfg : RuntimeConfig) (r : State) (s : Session) :
  page r = 1 ->
  loading (state (fetchEffect cfg r s)) = negb (source_disabled cfg r)
  /\ loadingMore (state (fetchEffect cfg r s)) = loadingMore (state s)
  /\ page (state (fetchEffect cfg r s)) = page (state s).
Proof.
  intros Hp. destruct (source_disabled cfg r) eqn:Hd.
  - destruct (state_fetchEffect_disabled cfg r s Hd) as [-> _]. now repeat split.
  - rewrite (state_fetchEffect_enabled cfg r s Hd), Hp. now repeat split.
Qed.

Lemma commit_at_start (cfg : RuntimeConfig) (u : option string) (s : Session) :
  committed s <> None -> at_start (state s) -> at_start (state (commit cfg u s)).
Proof.
  intros Hc H.
  destruct (commit_cases cfg u s) as [[_ E]|(p & Hp & Hs & E)]; rewrite E;
    cbn [state with_committed]; [|exact H].
  destruct (committed s) as [p|] eqn:Hp; [clear Hc | now destruct Hc].
  apply fetchEffect_at_start. now apply reset_effects_at_start.
Qed.

Lemma commit_Spinner (cfg : RuntimeConfig) (u : option string) (s : Session) :
  Spinner cfg s \/ changed (committed s) (state s) FetchEffect = true ->
  Spinner cfg (commit cfg u s).
Proof.
  intros H r Hr Hp. rewrite committed_commit in Hr. injection Hr as <-.
  destruct (commit_cases cfg u s) as [[_ E]|(p & Hc & Hs & E)]; rewrite E;
    cbn [state with_committed].
  - now apply fetchEffect_loading.
  - destruct H as [H|H].
    + rewrite (H p Hc) by (destruct Hs as (_ & _ & -> & _); exact Hp).
      f_equal. now apply source_disabled_same_source, same_deps_same_source.
    + rewrite Hc, (changed_same_deps p (state s) FetchEffect Hs) in H. discriminate H.
Qed.

Lemma reset_effects_first_page (cfg : RuntimeConfig) (u : option string)
    (which : Effect -> bool) (s : Session) :
  which InitEffect = false ->
  page (state s) = 1 -> loadingMore (state s) = false ->
  page (state (reset_effects cfg u which s)) = 1
  /\ loadingMore (state (reset_effects cfg u which s)) = false.
Proof.
  intros H H1 H2. unfold reset_effects, resetOnSort, resetOnView, resetOnSource.
  rewrite H.
  repeat match goal with
         | |- context [if ?b then _ else _] => destruct b
         end; cbn; now split.
Qed.

Lemma commit_first_page (cfg : RuntimeConfig) (u : option string) (s : Session) :
  committed s <> None -> page (state s) = 1 -> loadingMore (state s) = false ->
  page (state (commit cfg u s)) = 1 /\ loadingMore (state (commit cfg u s)) = false.
Proof.
  intros Hc H1 H2.
  destruct (commit_cases cfg u s) as [[_ E]|(p & Hp & Hs & E)]; rewrite E;
    cbn [state with_committed]; [|now split].
  destruct (committed s) as [p|] eqn:Hp; [clear Hc | now destruct Hc].
  destruct (reset_effects_first_page cfg u (changed (Some p) (state s)) s eq_refl H1 H2)
    as [R1 R2].
  destruct (fetchEffect_loading cfg (state s)
              (reset_effects cfg u (changed (Some p) (state s)) s) H1) as (_ & -> & ->).
  now split.
Qed.

Lemma axis_changed_deps (p r : State) : axis_changed p r -> ~ same_deps p r.
Proof.
  intros H (H1 & H2 & _ & H4 & _ & H6 & H7).
  destruct H as [H|[H|[H|[[H|H] _]]]]; congruence.
Qed.

(** The render that follows a change of an axis: the listing is reset
    and the load of the new listing has started. *)
Lemma commit_axis_changed (cfg : RuntimeConfig) (u : option string)
    (s : Session) (p : State) :
  committed s = Some p -> isInitializedRef s = true -> axis_changed p (state s) ->
  at_start (state (commit cfg u s))
  /\ Spinner cfg (commit cfg u s)
  /\ (page (state s) = 1 ->
      page (state (commit cfg u s)) = 1 /\ loadingMore (state (commit cfg u s)) = false).
Proof.
  intros Hc Hi Hax.
  assert (Hch : changed (committed s) (state s) FetchEffect = true).
  { rewrite Hc. now apply changed_fetch, axis_changed_deps. }
  assert (R : is_reset (reset_effects cfg u (changed (committed s) (state s)) s)).
  { rewrite Hc, reset_effects_later. apply reset_chain; [exact Hi|].
    destruct Hax as [H|[H|[H|[H He]]]].
    - left. apply changed_source. now left.
    - left. apply changed_source. now right.
    - right; left. now apply changed_view.
    - right; right. split; [now apply changed_sort | exact He]. }
  split; [|split].
  - rewrite (busy_commit cfg u s Hch). cbn [state with_committed].
    apply fetchEffect_at_start. now apply is_reset_blank.
  - apply commit_Spinner. now right.
  - intros Hp. rewrite (busy_commit cfg u s Hch). cbn [state with_committed].
    destruct (fetchEffect_loading cfg (state s)
                (reset_effects cfg u (changed (committed s) (state s)) s) Hp)
      as (_ & -> & ->).
    destruct R as (_ & R2 & _ & _ & _ & R6). now split.
Qed.

(** The step of a change of an axis. *)
Lemma rerender_axis_changed (cfg : RuntimeConfig) (u : option string)
    (s : Session) (p : State) :
  committed s = Some p -> isInitializedRef s = true -> axis_changed p (state s) ->
  let s' := rerender cfg u s in
  at_start (state s')
  /\ loading (state s') = negb (source_disabled cfg (state s'))
  /\ (page (state s) = 1 -> loadingMore (state s') = false).
Proof.
  intros Hc Hi Hax s'.
  destruct (commit_axis_changed cfg u s p Hc Hi Hax) as (A1 & S1 & P1).
  set (c1 := commit cfg u s) in *.
  pose proof (commit_at_start cfg u c1 ltac:(discriminate) A1) as A2.
  pose proof (commit_Spinner cfg u c1 (or_introl S1)) as S2.
  set (c2 := commit cfg u c1) in *.
  pose proof (commit_at_start cfg u c2 ltac:(discriminate) A2) as A3.
  pose proof (commit_Spinner cfg u c2 (or_introl S2)) as S3.
  change (commit cfg u c2) with s' in A3, S3.
  split; [exact A3|]. split.
  - apply S3; [apply rerender_settled | apply A3].
  - intros Hp. destruct (P1 Hp) as [Q1 M1].
    destruct (commit_first_page cfg u c1 ltac:(discriminate) Q1 M1) as [Q2 M2].
    fold c2 in Q2, M2.
    now destruct (commit_first_page cfg u c2 ltac:(discriminate) Q2 M2).
Qed.

Lemma changed_source_same (p r : State) :
  same_source p r -> changed (Some p) r ResetSourceEffect = false.
Proof.
  intros [H1 H2]. cbn. now rewrite !bool_decide_eq_true_2 by assumption.
Qed.

Lemma changed_view_same (p r : State) :
  selectedView p = selectedView r -> changed (Some p) r ResetViewEffect = false.
Proof. intros H. cbn. now rewrite bool_decide_eq_true_2 by assumption. Qed.

(** A render under a source other than emby, of the source and the
    view of the render before: no effect resets the listing. *)
Lemma commit_other_source (cfg : RuntimeConfig) (u : option string)
    (s : Session) (p : State) :
  committed s = Some p -> same_source p (state s) ->
  selectedView p = selectedView (state s) -> sourceType (state s) <> "emby" ->
  videos (state (commit cfg u s)) = videos (state s)
  /\ hasMore (state (commit cfg u s)) = hasMore (state s)
  /\ same_deps (state s) (state (commit cfg u s)).
Proof.
  intros Hc Hs Hv He.
  destruct (commit_cases cfg u s) as [[_ E]|(q & Hq & Hd & E)]; rewrite E;
    cbn [state with_committed].
  - assert (X : reset_effects cfg u (changed (committed s) (state s)) s = s).
    { rewrite Hc, reset_effects_later. cbn zeta.
      rewrite (changed_source_same _ _ Hs), (changed_view_same _ _ Hv).
      destruct (changed (Some p) (state s) ResetSortEffect); [|reflexivity].
      now apply resetOnSort_other_source. }
    rewrite X. split; [|split; [|apply state_fetchEffect]].
    + destruct (source_disabled cfg (state s)) eqn:D.
      * now destruct (state_fetchEffect_disabled cfg (state s) s D) as [-> _].
      * rewrite (state_fetchEffect_enabled cfg (state s) s D).
        now destruct (page (state s) =? 1).
    + destruct (source_disabled cfg (state s)) eqn:D.
      * now destruct (state_fetchEffect_disabled cfg (state s) s D) as [-> _].
      * rewrite (state_fetchEffect_enabled cfg (state s) s D).
        now destruct (page (state s) =? 1).
  - split; [reflexivity|]. split; [reflexivity | apply same_deps_refl].
Qed.

Lemma rerender_other_source (cfg : RuntimeConfig) (u : option string)
    (s : Session) (p : State) :
  committed s = Some p -> same_source p (state s) ->
  selectedView p = selectedView (state s) -> sourceType (state s) <> "emby" ->
  let s' := rerender cfg u s in
  videos (state s') = videos (state s)
  /\ hasMore (state s') = hasMore (state s)
  /\ page (state s') = page (state s).
Proof.
  intros Hc Hs Hv He s'.
  destruct (commit_other_source cfg u s p Hc Hs Hv He) as (V1 & M1 & D1).
  set (c1 := commit cfg u s) in *.
  assert (E1 : sourceType (state c1) <> "emby")
    by (destruct D1 as (<- & _); exact He).
  destruct (commit_other_source cfg u c1 (state s) eq_refl
              (same_deps_same_source _ _ D1)
              ltac:(now destruct D1 as (_ & _ & _ & ? & _)) E1) as (V2 & M2 & D2).
  set (c2 := commit cfg u c1) in *.
  assert (E2 : sourceType (state c2) <> "emby")
    by (destruct D2 as (<- & _); exact E1).
  destruct (commit_other_source cfg u c2 (state c1) eq_refl
              (same_deps_same_source _ _ D2)
              ltac:(now destruct D2 as (_ & _ & _ & ? & _)) E2) as (V3 & M3 & D3).
  change (commit cfg u c2) with s' in V3, M3, D3.
  split; [congruence|]. split; [congruence|].
  destruct D1 as (_ & _ & P1 & _), D2 as (_ & _ & P2 & _), D3 as (_ & _ & P3 & _).
  congruence.
Qed.


Lemma page_handle (cfg : RuntimeConfig) (i : Input) (s : Session) :
  match i with Intersect _ => False | _ => True end ->
  page (state (handle cfg i s)) = page (state s).
Proof.
  intros Hi. destruct i as [v|k|v|v| |p|u0|b|c raw|c raw|res]; cbn [handle];
    try reflexivity.
  - unfold initEffect.
    repeat match goal with |- context [if ?b then _ else _] => destruct b end;
      reflexivity.
  - destruct Hi.
  - unfold fetch_settles. destruct (inflight s !! c) as [[req [|]]|]; try reflexivity.
    pose proof (after_fetch_Quiet req (under_signal s c raw) s) as Q.
    destruct (after_fetch req (under_signal s c raw) s) as [s' [|]]; cbn in *;
      apply (quiet_page _ _ Q).
  - unfold json_settles. destruct (inflight s !! c) as [[req [|]]|]; try reflexivity.
    apply (quiet_page _ _ (after_json_Quiet req (under_signal s c raw) s)).
  - apply (quiet_page _ _ (handleXiaoyaSearch_Quiet res s)).
Qed.

Lemma axis_change_keeps_page (cfg : RuntimeConfig) (i : Input) (s : Session) :
  axis_changed (state s) (state (handle cfg i s)) ->
  page (state (handle cfg i s)) = page (state s).
Proof.
  intros H. destruct i as [v|k|v|v| |p|u0|b|c raw|c raw|res];
    try (now apply page_handle).
  exfalso. cbn [handle] in H. unfold observer_fire in H.
  destruct (_ && _); cbn in H; destruct H as [H|[H|[H|[[H|H] _]]]]; now apply H.
Qed.

Lemma fetchVideos_disabled_frame (cfg : RuntimeConfig) (r : State) (s : Session) :
  source_disabled cfg r = true ->
  requests (fetchVideos cfg r s) = requests s
  /\ inflight (fetchVideos cfg r s) = inflight s
  /\ state (fetchVideos cfg r s) = set_loading false (state s).
Proof.
  intros Hd. rewrite fetchVideos_disabled by exact Hd.
  destruct (abort_current_frame s) as (H1 & _ & _ & _ & _ & H2 & H3 & _).
  cbn. now rewrite H1, H2, H3.
Qed.

Lemma source_disabled_spelled (cfg : RuntimeConfig) (r : State) :
  source_disabled cfg r = true <->
  (sourceType r = "openlist" /\ OPENLIST_ENABLED cfg = false)
  \/ (sourceType r = "emby" /\ (EMBY_ENABLED cfg = false \/ truthy (embyKey r) = false))
  \/ (sourceType r = "xiaoya" /\ XIAOYA_ENABLED cfg = false).
Proof.
  unfold source_disabled.
  rewrite !orb_true_iff, !andb_true_iff, !negb_true_iff, !String.eqb_eq.
  rewrite orb_true_iff, !negb_true_iff. tauto.
Qed.

(** C5, as the code has it.  In every session, the step of an input
    that changes the source type, the emby key or the selected view, or
    that changes the sort field or direction while the source type is
    ['emby'], ends with the listing reset: the videos empty, the page 1,
    has-more true and the error empty.  The reset effects clear both
    loading flags before the fetch effect of the same render runs; that
    effect starts the load of the new listing, so that after the step
    the initial-loading flag is set exactly when the source is not
    switched off.  The load-more flag is cleared after a change made on
    page 1, and under a source that is switched off.  A change of the
    sort under any other source type resets nothing: the videos, the
    page and has-more stay as they are. *)
Theorem axis_change_resets (cfg : RuntimeConfig) (urlSource : option string)
    (inputs : list Input) :
  let s := session cfg urlSource inputs in
  (forall i,
      let s' := step cfg urlSource s i in
      axis_changed (state s) (state (handle cfg i s)) ->
      videos (state s') = [] /\ page (state s') = 1 /\ hasMore (state s') = true
      /\ error (state s') = ""
      /\ loading (state s') = negb (source_disabled cfg (state s'))
      /\ (page (state s) = 1 \/ source_disabled cfg (state s') = true ->
          loadingMore (state s') = false))
  /\ (forall i,
      i = ToggleSortOrder \/ (exists v, i = HandleSortOptionSelect v) ->
      sourceType (state s) <> "emby" ->
      let s' := step cfg urlSource s i in
      videos (state s') = videos (state s) /\ page (state s') = page (state s)
      /\ hasMore (state s') = hasMore (state s))
  /\ is_reset (resetOnSource s)
  /\ is_reset (resetOnView s)
  /\ (forall r, sourceType r = "emby" -> is_reset (resetOnSort r s))
  /\ (forall r, sourceType r <> "emby" -> resetOnSort r s = s).
Proof.
  intros s.
  pose proof (session_initialized cfg urlSource inputs) as Hi.
  pose proof (session_settled cfg urlSource inputs) as Hc.
  fold s in Hi, Hc.
  split; [|split; [|split; [|split; [|split]]]].
  - intros i s' Hax.
    assert (Hc1 : committed (handle cfg i s) = Some (state s))
      by (now rewrite committed_handle).
    pose proof (initialized_handle cfg i s Hi) as Hi1.
    destruct (rerender_axis_changed cfg urlSource _ _ Hc1 Hi1 Hax) as (A & L & M).
    fold (step cfg urlSource s i) in A, L, M. fold s' in A, L, M.
    destruct A as (A1 & A2 & A3 & A4).
    repeat (split; [assumption|]).
    intros [Hp|Hd].
    + apply M. now rewrite (axis_change_keeps_page cfg i s Hax).
    + pose proof (session_disabled cfg urlSource (inputs ++ [i])) as D.
      rewrite session_snoc in D. fold s in D. fold s' in D.
      now destruct (D Hd) as ((_ & _ & _ & D4) & _).
  - intros i Hsort He s'.
    assert (Hc1 : committed (handle cfg i s) = Some (state s))
      by (now rewrite committed_handle).
    assert (F : same_source (state s) (state (handle cfg i s))
                /\ selectedView (state s) = selectedView (state (handle cfg i s))
                /\ videos (state (handle cfg i s)) = videos (state s)
                /\ hasMore (state (handle cfg i s)) = hasMore (state s)
                /\ page (state (handle cfg i s)) = page (state s)).
    { destruct Hsort as [->|[v ->]]; cbn; now repeat split. }
    destruct F as (F1 & F2 & F3 & F4 & F5).
    assert (He1 : sourceType (state (handle cfg i s)) <> "emby")
      by (destruct F1 as [<- _]; exact He).
    destruct (rerender_other_source cfg urlSource _ _ Hc1 F1 F2 He1) as (V & M & P).
    fold (step cfg urlSource s i) in V, M, P. fold s' in V, M, P.
    split; [congruence|]. split; congruence.
  - now apply resetOnSource_is_reset.
  - now apply resetOnView_is_reset.
  - intros r E. now apply resetOnSort_is_reset.
  - intros r E. now apply resetOnSort_other_source.
Qed.

Lemma axis_change_resets_witness :
  let s := session all_enabled emby_url first_page_shown in
  let i := SetSelectedView "movies" in
  let s' := step all_enabled emby_url s i in
  let o := session all_enabled emby_url openlist_after_emby in
  axis_changed (state s) (state (handle all_enabled i s))
  /\ videos (state s) = [a_video "m1"]
  /\ videos (state s') = []
  /\ source_disabled all_enabled (state s') = false
  /\ loading (state s') = true
  /\ sourceType (state o) <> "emby"
  /\ videos (state (step all_enabled emby_url o ToggleSortOrder)) = [a_video "o1"].
Proof.
  intros s i s' o.
  assert (H : axis_changed (state s) (state (handle all_enabled i s))).
  { right; right; left. vm_compute. discriminate. }
  assert (Ho : sourceType (state o) <> "emby") by (vm_compute; discriminate).
  assert (Hd : source_disabled all_enabled (state s') = false)
    by (vm_compute; reflexivity).
  destruct (axis_change_resets all_enabled emby_url first_page_shown)
    as (E1 & _).
  destruct (axis_change_resets all_enabled emby_url openlist_after_emby)
    as (_ & E2 & _).
  destruct (E1 i H) as (V & _ & _ & _ & L & _).
  destruct (E2 ToggleSortOrder (or_introl eq_refl) Ho) as (V2 & _).
  assert (Vo : videos (state o) = [a_video "o1"]) by (vm_compute; reflexivity).
  exact (conj H (conj eq_refl (conj V (conj Hd
           (conj (eq_trans L (f_equal negb Hd)) (conj Ho (eq_trans V2 Vo))))))).
Defined.

(** C5, as stated, fails: openlist is shown after emby, the sort
    field is changed, the effect on the sort runs, and the listing is
    not reset; the videos of openlist stay.  And after a change of the
    view on the first page of emby the loading flags are not both
    cleared: the load of the new listing has started, and the
    initial-loading flag is set. *)
Lemma sort_change_without_reset :
  let s := session all_enabled emby_url openlist_after_emby in
  let i := HandleSortOptionSelect "DateCreated" in
  let s1 := handle all_enabled i s in
  let e := session all_enabled emby_url first_page_shown in
  sortBy (state s1) <> sortBy (state s)
  /\ changed (committed s1) (state s1) ResetSortEffect = true
  /\ ~ is_reset (reset_effects all_enabled emby_url
                   (changed (committed s1) (state s1)) s1)
  /\ videos (state (step all_enabled emby_url s i)) = [a_video "o1"]
  /\ selectedView (state e) <> "movies"
  /\ loading (state (step all_enabled emby_url e (SetSelectedView "movies"))) = true.
Proof.
  intros s i s1 e. split; [|split; [|split; [|split; [|split]]]].
  - vm_compute. discriminate.
  - vm_compute. reflexivity.
  - intros (H & _). vm_compute in H. discriminate.
  - vm_compute. reflexivity.
  - vm_compute. discriminate.
  - vm_compute. reflexivity.
Qed.

(** C7, as the code has it.  A source is switched off when the source
    type is ['openlist'], ['emby'] or ['xiaoya'] and the flag of that
    source is off in the runtime configuration, or when it is ['emby']
    without a key.  [fetchVideos] of such a render sends no request and
    suspends no call; it sets the initial-loading flag to false and
    writes no other state cell, so it sets no error.  In every session,
    under a source that is switched off the videos are empty, has-more
    is true (nothing sets it to false), both loading flags are false
    and no call is live; the step of every input that leaves such a
    source selected sends no request, sets no error (the error is the
    one the handler left, or is cleared) and ends with the listing
    empty. *)
Theorem disabled_source_sends_nothing (cfg : RuntimeConfig)
    (urlSource : option string) (inputs : list Input) :
  let s := session cfg urlSource inputs in
  (forall r,
      source_disabled cfg r = true <->
      (sourceType r = "openlist" /\ OPENLIST_ENABLED cfg = false)
      \/ (sourceType r = "emby"
          /\ (EMBY_ENABLED cfg = false \/ truthy (embyKey r) = false))
      \/ (sourceType r = "xiaoya" /\ XIAOYA_ENABLED cfg = false))
  /\ (forall r s0,
      source_disabled cfg r = true ->
      let s' := fetchVideos cfg r s0 in
      requests s' = requests s0 /\ inflight s' = inflight s0
      /\ state s' = set_loading false (state s0))
  /\ (source_disabled cfg (state s) = true ->
      videos (state s) = [] /\ hasMore (state s) = true
      /\ loading (state s) = false /\ loadingMore (state s) = false
      /\ forall c p, ~ live s c p)
  /\ (forall i,
      source_disabled cfg (state (handle cfg i s)) = true ->
      let s' := step cfg urlSource s i in
      requests s' = requests s
      /\ source_disabled cfg (state s') = true
      /\ (error (state s') = error (state (handle cfg i s)) \/ error (state s') = "")
      /\ videos (state s') = [] /\ hasMore (state s') = true
      /\ loading (state s') = false).
Proof.
  intros s. split; [|split; [|split]].
  - apply source_disabled_spelled.
  - intros r s0 Hd. now apply fetchVideos_disabled_frame.
  - intros Hd. destruct (session_disabled cfg urlSource inputs Hd) as [(B1 & B2 & B3 & B4) L].
    fold s in B1, B2, B3, B4, L. auto.
  - intros i Hd s'.
    assert (Hc : committed s <> None).
    { subst s. rewrite session_settled. discriminate. }
    destruct (step_disabled cfg urlSource s i Hc Hd) as (R & D & E).
    fold s' in R, D, E.
    pose proof (session_disabled cfg urlSource (inputs ++ [i])) as B.
    rewrite session_snoc in B. fold s in B. fold s' in B.
    destruct (B D) as ((B1 & B2 & B3 & _) & _). auto 10.
Qed.

Lemma disabled_source_sends_nothing_witness :
  let s := session xiaoya_off emby_url first_page_shown in
  let i := SetSourceType "xiaoya" in
  let s' := step xiaoya_off emby_url s i in
  source_disabled xiaoya_off (state (handle xiaoya_off i s)) = true
  /\ videos (state s) = [a_video "m1"]
  /\ requests s' = requests s
  /\ source_disabled xiaoya_off (state s') = true
  /\ videos (state s') = []
  /\ hasMore (state s') = true
  /\ loading (state s') = false.
Proof.
  intros s i s'.
  assert (H : source_disabled xiaoya_off (state (handle xiaoya_off i s)) = true)
    by (vm_compute; reflexivity).
  destruct (disabled_source_sends_nothing xiaoya_off emby_url first_page_shown)
    as (_ & _ & _ & E).
  destruct (E i H) as (R & D & _ & V & M & L).
  exact (conj H (conj eq_refl (conj R (conj D (conj V (conj M L)))))).
Defined.

(** C7, as stated, fails: with every source switched off the page
    sends nothing and the videos are empty, but has-more is true after
    the load, not false.  Nor does the check cover the other names of
    an emby source: with emby switched off, the address
    [?source=emby_main] selects the source type ['emby_main'], and the
    page requests its listing from the emby endpoint. *)
Lemma disabled_source_keeps_hasMore :
  let s := mount all_disabled None in
  let m := mount all_disabled (Some "emby_main") in
  source_disabled all_disabled (state s) = true
  /\ requests s = []
  /\ videos (state s) = []
  /\ loading (state s) = false
  /\ hasMore (state s) = true
  /\ EMBY_ENABLED all_disabled = false
  /\ sourceType (state m) = "emby_main"
  /\ requests m = [(0%nat, EmbyList (emby_searchParams (state m)))].
Proof. vm_compute. repeat split. Qed.

End ListingProperties.

(** * Further properties of the toolbar and of the address *)

Module ToolbarExtras.
Import Api Page Toolbar.

(** ** The source parameter, written and read back *)





Lemma split_colon_head (s : string) :
  exists first others, split_colon s = first :: others.
Proof.
  induction s as [|c s (first & others & IH)]; [now exists "", []|].
  cbn [split_colon]. destruct (Ascii.eqb c ":"); [now eexists _, _|].
  rewrite IH. now eexists _, _.
Qed.




(** ** The default sort, in the toolbar and in the endpoint *)

Section Endpoint.
Context `{C : Collaborators}.

(** X13. For each of the sort options, and a key and a view free of
    [&], [#], [+], [%], tabs and newlines, the toolbar shows the
    default sort exactly when the endpoint, reading the address of the
    render, takes the request for the default sort, that is, exactly
    when the endpoint reads its cache for it. *)
Theorem toolbar_default_sort_is_cached_sort (store : Cache) (r : State) :
  In (sortBy r) (map snd sortOptions) ->
  Url.is_plain (default "undefined" (embyKey r)) = true ->
  Url.is_plain (selectedView r) = true ->
  let searchParams := searchParams_of (emby_address r) in
  Api.isDefaultSort (sortBy_of searchParams) (sortOrder_of searchParams)
  = Toolbar.isDefaultSort r
  /\ ((exists e, In e (log (snd (serve store searchParams)))
                 /\ is_cache_read e = true)
      <-> Toolbar.isDefaultSort r = true).
Proof.
  intros Hin Hk Hv searchParams.
  assert (Hs : Url.is_plain (sortBy r) = true).
  { cbn in Hin. repeat (destruct Hin as [<-|Hin]; [reflexivity|]). destruct Hin. }
  assert (Er : searchParams = emby_searchParams r)
    by (now apply NumeralExtras.address_read).
  clearbody searchParams. subst searchParams.
  assert (E : Api.isDefaultSort (sortBy_of (emby_searchParams r))
                (sortOrder_of (emby_searchParams r))
              = Toolbar.isDefaultSort r).
  { unfold Api.isDefaultSort, Toolbar.isDefaultSort, sortBy_of, sortOrder_of.
    cbn in Hin. cbn [emby_searchParams q_sortBy q_sortOrder].
    destruct (sortOrder r);
      repeat (destruct Hin as [<-|Hin]; [reflexivity|]); destruct Hin. }
  split; [exact E|].
  ApiExtras.unfold_handler. rewrite E.
  destruct (Toolbar.isDefaultSort r); cbn.
  - split; [reflexivity|]. intros _.
    destruct (getCachedEmbyList _ _ _ _ _); cbn;
      [|destruct (getClient _); cbn; [|destruct (getItems _ _); cbn]];
      eexists; (split; [left; reflexivity | reflexivity]).
  - split; [|discriminate]. intros (e & He & Hr).
    destruct (getClient _); cbn in He; [|destruct (getItems _ _); cbn in He];
      repeat (destruct He as [<-|He]; [discriminate Hr|]); destruct He.
Qed.

End Endpoint.

Lemma toolbar_default_sort_is_cached_sort_witness :
  let r := set_sortBy "DateCreated" (set_embyKey (Some "main") initial_state) in
  let searchParams := searchParams_of (emby_address r) in
  In (sortBy r) (map snd sortOptions)
  /\ Url.is_plain (default "undefined" (embyKey r)) = true
  /\ Url.is_plain (selectedView r) = true
  /\ Toolbar.isDefaultSort r = false
  /\ Api.isDefaultSort (sortBy_of searchParams) (sortOrder_of searchParams)
     = Toolbar.isDefaultSort r.
Proof.
  intros r searchParams.
  assert (H : In (sortBy r) (map snd sortOptions)) by (right; left; reflexivity).
  exact (conj H (conj eq_refl (conj eq_refl (conj eq_refl
           (proj1 (toolbar_default_sort_is_cached_sort
                     (C := Scenario.library) (EmbyCache.empty 0)
                     r H eq_refl eq_refl)))))).
Defined.

End ToolbarExtras.

(** * Further properties of the page talking to the endpoint *)

Module WireExtras.
Import Api Page Wire Invariants Discipline Scenario PageProperties SessionExtras.

Lemma endpoint_of_emby (r : State) :
  sourceType r <> "openlist" -> sourceType r <> "xiaoya" ->
  endpoint_of r = EmbyList (emby_searchParams r).
Proof.
  intros Ho Hx. unfold endpoint_of.
  apply String.eqb_neq in Ho, Hx. now rewrite Ho, Hx.
Qed.

Lemma pageSize_of_request (r : State) :
  pageSize_of (emby_searchParams r) = Js.Int 20.
Proof. vm_compute. reflexivity. Qed.

(** [currentPage < totalPages] for the total pages the endpoint
    computes from a record count and the page size 20. *)
Lemma below_total_pages (p total : Z) :
  1 <= p ->
  (p <? or_number (Some (Js.ceil_quot total 20)) 1) = true <-> 20 * p < total.
Proof.
  intros Hp. pose proof (ScenarioProperties.ceil_quot_bounds total 20 ltac:(lia)) as B.
  unfold or_number. rewrite Z.ltb_lt.
  destruct (Z.eqb_spec (Js.ceil_quot total 20) 0) as [E|E]; lia.
Qed.

Lemma finally_clears_ref (req : Request) (s s0 : Session) :
  Quiet s0 s -> is_aborted s0 (controller req) = false ->
  isFetchingRef (on_finally req s) = false.
Proof.
  intros Q H. unfold on_finally. rewrite (Quiet_is_aborted _ _ _ Q), H.
  now destruct (isInitial req).
Qed.

Section Endpoint.
Context `{C : Collaborators}.

(** The body of a success, as the page reads it. *)
Lemma read_json_live (searchParams : SearchParams) (client : Client)
    (result : ItemsResult) :
  read_json (live_response searchParams client result)
  = {| d_error := None;
       d_list := Some (map video_of_item (map (normalize client) (Items result)));
       d_page := None;
       d_totalPages :=
         json_number
           (Some (JNumber (Js.ceil_div (TotalRecordCount result)
                             (pageSize_of searchParams))));
       d_folders := None; d_files := None |}.
Proof. reflexivity. Qed.

(** The handler on a failure of the client manager or of the media
    server. *)
Lemma serve_failure (store : Cache) (searchParams : SearchParams) (e : Js.Error) :
  cache_miss store searchParams ->
  (getClient (embyKey_of searchParams) = inl e
   \/ exists client,
       getClient (embyKey_of searchParams) = inr client
       /\ getItems client (itemsQuery_of searchParams) = inl e) ->
  fst (serve store searchParams)
  = Returned (failure_response e (page_of searchParams)).
Proof.
  intros Hmiss Hfail. ApiExtras.unfold_handler.
  assert (Hread :
           (if isDefaultSort (sortBy_of searchParams) (sortOrder_of searchParams)
            then getCachedEmbyList store (page_of searchParams)
                   (pageSize_of searchParams) (parentId_of searchParams)
                   (embyKey_of searchParams)
            else None) = None).
  { destruct Hmiss as [-> | Hm]; [reflexivity|]. rewrite Hm. now destruct (isDefaultSort _ _). }
  destruct (isDefaultSort _ _); cbn; rewrite ?Hread; cbn;
    (destruct Hfail as [-> | (client & -> & Hit)]; cbn; [reflexivity|];
     rewrite Hit; reflexivity).
Qed.

(** The page after the endpoint has answered the live emby call of a
    session with a response. *)
Lemma answer_returned (cfg : RuntimeConfig) (u : option string) (inputs : list Input)
    (store : Cache) (c : nat) (req : Request) (response : Response) :
  let s := session cfg u inputs in
  live s c (mkPending req AwaitFetch) ->
  sourceType (state s) <> "openlist" -> sourceType (state s) <> "xiaoya" ->
  fst (serve store (emby_searchParams (state s))) = Returned response ->
  let f := on_finally req (on_data req (read_json response) s) in
  let s' := fst (answer cfg u c (s, store)) in
  req = request_of (state s) c
  /\ is_aborted s (controller req) = false
  /\ state s' = state f
  /\ isFetchingRef s' = false
  /\ inflight s' !! c = None
  /\ snd (answer cfg u c (s, store))
     = cache (snd (serve store (emby_searchParams (state s)))).
Proof.
  intros s Hlive Ho Hx Hserve f s'.
  pose proof (live_request cfg u inputs c _ Hlive) as Hreq.
  cbn [request] in Hreq. fold s in Hreq.
  set (s1 := session cfg u (inputs ++ [FetchSettles c (Fulfilled true)])).
  assert (E1 : s1 = with_inflight (<[c := mkPending req AwaitJson]> (inflight s)) s).
  { subst s1. unfold session. rewrite fold_left_app. cbn [fold_left].
    exact (fetch_ok_step cfg u inputs c req Hlive). }
  assert (L1 : live s1 c (mkPending req AwaitJson)).
  { rewrite E1. split; [apply lookup_insert_eq | apply Hlive]. }
  destruct (json_ok_step cfg u (inputs ++ [FetchSettles c (Fulfilled true)]) c req
              (read_json response) L1) as (_ & Hc & Q & Hstep).
  fold s1 in Hc, Q, Hstep.
  set (f1 := on_finally req (on_data req (read_json response) s1)) in *.
  assert (Hans : answer cfg u c (s, store)
                 = (step cfg u s1 (JsonSettles c (Fulfilled (read_json response))),
                    cache (snd (serve store (emby_searchParams (state s)))))).
  { unfold answer. destruct Hlive as [Hl _]. rewrite Hl.
    rewrite Hreq at 1. cbn [request_of endpoint].
    rewrite (endpoint_of_emby (state s) Ho Hx).
    destruct (serve store (emby_searchParams (state s))) as [[r|e] w];
      cbn in Hserve; [|discriminate Hserve].
    injection Hserve as ->. subst s1. unfold session. rewrite fold_left_app.
    reflexivity. }
  assert (Hf : state f1 = state f /\ isFetchingRef f1 = false).
  { split.
    - subst f1 f. unfold on_finally.
      rewrite (Quiet_is_aborted _ _ _ (on_data_Quiet req (read_json response) s1)).
      rewrite (Quiet_is_aborted _ _ _ (on_data_Quiet req (read_json response) s)).
      rewrite E1.
      change (is_aborted (with_inflight _ s) (controller req))
        with (is_aborted s (controller req)).
      unfold on_data.
      repeat match goal with
             | |- context [if ?b then _ else _] => destruct b
             end; reflexivity.
    - subst f1. apply (finally_clears_ref req _ s1 (on_data_Quiet _ _ _) Hc). }
  subst s'. rewrite Hans. cbn [fst snd]. rewrite Hstep.
  cbn [state isFetchingRef inflight with_committed with_inflight].
  split; [exact Hreq|]. split; [now rewrite Hreq; apply Hlive|].
  split; [apply Hf|]. split; [apply Hf|]. split; [apply lookup_delete_eq | reflexivity].
Qed.

(** X14. The endpoint answers the live emby call of a session from the
    media server (the cache misses); the key, the view and the sort
    field of the render are free of [&], [#], [+], [%], tabs and
    newlines, so that the endpoint reads from the address what the
    page wrote.  The page then shows the items of
    the answer in their order, each as the endpoint normalized it, in
    place of the videos when the page is 1 and after them otherwise;
    it has more exactly when 20 times the page is below the record
    count of the media server; the call is over. *)
Theorem served_listing_reaches_page (cfg : RuntimeConfig) (urlSource : option string)
    (inputs : list Input) (store : Cache) (c : nat) (req : Request)
    (client : Client) (result : ItemsResult) :
  let s := session cfg urlSource inputs in
  let searchParams := searchParams_of (emby_address (state s)) in
  live s c (mkPending req AwaitFetch) ->
  sourceType (state s) <> "openlist" -> sourceType (state s) <> "xiaoya" ->
  Url.is_plain (default "undefined" (embyKey (state s))) = true ->
  Url.is_plain (selectedView (state s)) = true ->
  Url.is_plain (sortBy (state s)) = true ->
  cache_miss store searchParams ->
  getClient (embyKey_of searchParams) = inr client ->
  getItems client (itemsQuery_of searchParams) = inr result ->
  let s' := fst (answer cfg urlSource c (s, store)) in
  let shown := map video_of_item (map (normalize client) (Items result)) in
  videos (state s')
  = (if page (state s) =? 1 then shown else videos (state s) ++ shown)%list
  /\ (hasMore (state s') = true <-> 20 * page (state s) < TotalRecordCount result)
  /\ page (state s') = page (state s)
  /\ error (state s') = error (state s)
  /\ isFetchingRef s' = false
  /\ inflight s' !! c = None.
Proof.
  intros s searchParams0 Hlive Ho Hx Pk Pv Ps.
  assert (Er : searchParams0 = emby_searchParams (state s))
    by (now apply NumeralExtras.address_read).
  clearbody searchParams0. subst searchParams0.
  set (searchParams := emby_searchParams (state s)).
  intros Hmiss Hcl Hit s' shown.
  pose proof (ApiProperties.serve_live store searchParams client result Hmiss Hcl Hit)
    as Hserve.
  destruct (answer_returned cfg urlSource inputs store c req _ Hlive Ho Hx Hserve)
    as (Hreq & Hc & Hst & Hf & Hi & _).
  fold s in Hreq, Hc, Hst, Hf, Hi. fold s' in Hst, Hf, Hi.
  pose proof (state_success req (read_json (live_response searchParams client result))
                s Hc eq_refl) as H. cbn zeta in H.
  rewrite <- Hst in H. destruct H as (H1 & _ & H3 & H4 & _).
  assert (Hsrc : req_sourceType req <> "xiaoya") by (now rewrite Hreq).
  destruct (H1 Hsrc) as (V & _ & _ & M).
  rewrite read_json_live in V, M. cbn [d_list d_page d_totalPages default] in V, M.
  subst searchParams. rewrite pageSize_of_request in M.
  rewrite Hreq in V, M. cbn [request_of isInitial req_page] in V, M.
  cbn [Js.ceil_div json_number or_number] in M.
  change (match Js.ceil_quot (TotalRecordCount result) 20 with
          | 0 => 1 | _ => Js.ceil_quot (TotalRecordCount result) 20 end)
    with (or_number (Some (Js.ceil_quot (TotalRecordCount result) 20)) 1) in M.
  split; [exact V|]. split.
  { rewrite M. apply below_total_pages. apply (inv_page s (session_Inv _ _ _)). }
  split; [exact H4|]. split; [exact H3|]. split; [exact Hf | exact Hi].
Qed.

(** X15. The endpoint fails on the live emby call of a session: the
    client manager or the media server rejects; the key, the view and
    the sort field of the render are free of [&], [#], [+], [%], tabs
    and newlines, so that the endpoint reads from the address what the
    page wrote.  The endpoint answers
    with its failure object under an ok status, so the page shows the
    message of the endpoint (the fixed prefix and the message of the
    error), not its own; it empties the videos when the page is 1 and
    keeps them otherwise, and keeps has-more and the page; the call is
    over. *)
Theorem endpoint_failure_reaches_page (cfg : RuntimeConfig)
    (urlSource : option string) (inputs : list Input) (store : Cache) (c : nat)
    (req : Request) (e : Js.Error) :
  let s := session cfg urlSource inputs in
  let searchParams := searchParams_of (emby_address (state s)) in
  live s c (mkPending req AwaitFetch) ->
  sourceType (state s) <> "openlist" -> sourceType (state s) <> "xiaoya" ->
  Url.is_plain (default "undefined" (embyKey (state s))) = true ->
  Url.is_plain (selectedView (state s)) = true ->
  Url.is_plain (sortBy (state s)) = true ->
  cache_miss store searchParams ->
  (getClient (embyKey_of searchParams) = inl e
   \/ exists client,
       getClient (embyKey_of searchParams) = inr client
       /\ getItems client (itemsQuery_of searchParams) = inl e) ->
  let s' := fst (answer cfg urlSource c (s, store)) in
  error (state s') = "获取 Emby 列表失败: " +:+ Js.message e
  /\ videos (state s') = (if page (state s) =? 1 then [] else videos (state s))
  /\ hasMore (state s') = hasMore (state s)
  /\ page (state s') = page (state s)
  /\ isFetchingRef s' = false
  /\ inflight s' !! c = None.
Proof.
  intros s searchParams0 Hlive Ho Hx Pk Pv Ps.
  assert (Er : searchParams0 = emby_searchParams (state s))
    by (now apply NumeralExtras.address_read).
  clearbody searchParams0. subst searchParams0.
  set (searchParams := emby_searchParams (state s)).
  intros Hmiss Hfail s'.
  pose proof (serve_failure store searchParams e Hmiss Hfail) as Hserve.
  destruct (answer_returned cfg urlSource inputs store c req _ Hlive Ho Hx Hserve)
    as (Hreq & Hc & Hst & Hf & Hi & _).
  fold s in Hreq, Hc, Hst, Hf, Hi. fold s' in Hst, Hf, Hi.
  pose proof (state_error_response req
                (read_json (failure_response e (page_of searchParams))) s Hc eq_refl)
    as H. cbn zeta in H. rewrite <- Hst in H.
  destruct H as (E & V & M & P & _).
  rewrite Hreq in V. cbn [request_of isInitial] in V.
  cbn in E. injection E as E.
  repeat split; assumption.
Qed.

End Endpoint.

Lemma served_listing_reaches_page_witness :
  let s := session all_enabled emby_url [] in
  let searchParams := searchParams_of (emby_address (state s)) in
  let result := mkItemsResult (listing (itemsQuery_of searchParams)) 45 in
  let s' := fst (answer (H := library) all_enabled emby_url 1%nat
                   (s, EmbyCache.empty 0)) in
  live s 1%nat (mkPending emby_request AwaitFetch)
  /\ Url.is_plain (default "undefined" (embyKey (state s))) = true
  /\ Url.is_plain (selectedView (state s)) = true
  /\ Url.is_plain (sortBy (state s)) = true
  /\ cache_miss (C := library) (EmbyCache.empty 0) searchParams
  /\ (hasMore (state s') = true <-> 20 * page (state s) < 45).
Proof.
  intros s searchParams result s'.
  assert (H1 : live s 1%nat (mkPending emby_request AwaitFetch))
    by (split; vm_compute; reflexivity).
  assert (H2 : sourceType (state s) <> "openlist")
    by (intros E; vm_compute in E; discriminate E).
  assert (H3 : sourceType (state s) <> "xiaoya")
    by (intros E; vm_compute in E; discriminate E).
  assert (H4 : cache_miss (C := library) (EmbyCache.empty 0) searchParams)
    by (right; vm_compute; reflexivity).
  destruct (served_listing_reaches_page (C := library) all_enabled emby_url []
              (EmbyCache.empty 0) 1%nat emby_request (embyKey_of searchParams) result
              H1 H2 H3 eq_refl eq_refl eq_refl H4 eq_refl eq_refl) as (_ & E & _).
  exact (conj H1 (conj eq_refl (conj eq_refl (conj eq_refl (conj H4 E))))).
Defined.

Lemma endpoint_failure_reaches_page_witness :
  let s := session all_enabled emby_url [] in
  let s' := fst (answer (H := Cases.no_instance) all_enabled emby_url 1%nat
                   (s, EmbyCache.empty 0)) in
  live s 1%nat (mkPending emby_request AwaitFetch)
  /\ Url.is_plain (default "undefined" (embyKey (state s))) = true
  /\ Url.is_plain (selectedView (state s)) = true
  /\ Url.is_plain (sortBy (state s)) = true
  /\ error (state s') = "获取 Emby 列表失败: unknown emby source".
Proof.
  intros s s'.
  assert (H1 : live s 1%nat (mkPending emby_request AwaitFetch))
    by (split; vm_compute; reflexivity).
  assert (H2 : sourceType (state s) <> "openlist")
    by (intros E; vm_compute in E; discriminate E).
  assert (H3 : sourceType (state s) <> "xiaoya")
    by (intros E; vm_compute in E; discriminate E).
  assert (H4 : cache_miss (C := Cases.no_instance) (EmbyCache.empty 0)
                 (searchParams_of (emby_address (state s))))
    by (right; vm_compute; reflexivity).
  destruct (endpoint_failure_reaches_page (C := Cases.no_instance) all_enabled
              emby_url [] (EmbyCache.empty 0) 1%nat emby_request
              (Js.mkError "Error" "unknown emby source") H1 H2 H3
              eq_refl eq_refl eq_refl H4 (or_introl eq_refl)) as (E & _).
  exact (conj H1 (conj eq_refl (conj eq_refl (conj eq_refl E)))).
Defined.

End WireExtras.

(** * Further properties of the paths of the xiaoya browser *)

Module PathExtras.
Import Paths.

Lemma has_slash_cons (c : ascii) (s : string) :
  has_slash (String c s) = Ascii.eqb c "/" || has_slash s.
Proof. reflexivity. Qed.

Lemma split_slash_plain (s : string) :
  has_slash s = false -> split_slash s = [s].
Proof.
  induction s as [|c s IH]; [reflexivity|].
  rewrite has_slash_cons. intros H. apply orb_false_iff in H as [Hc Hs].
  cbn [split_slash]. now rewrite Hc, (IH Hs).
Qed.

Lemma split_slash_prefix (pre rest : string) :
  has_slash pre = false ->
  split_slash (pre +:+ String "/" rest) = pre :: split_slash rest.
Proof.
  induction pre as [|c pre IH]; [reflexivity|].
  rewrite has_slash_cons. intros H. apply orb_false_iff in H as [Hc Hs].
  change (String c pre +:+ String "/" rest)
    with (String c (pre +:+ String "/" rest)).
  cbn [split_slash]. now rewrite Hc, (IH Hs).
Qed.

Lemma split_slash_free (s : string) :
  Forall (fun x => has_slash x = false) (split_slash s).
Proof.
  induction s as [|c s IH]; [repeat constructor|].
  cbn [split_slash]. destruct (Ascii.eqb c "/") eqn:Hc.
  - constructor; [reflexivity | exact IH].
  - destruct (split_slash s) as [|first others]; [repeat constructor; cbn; now rewrite Hc|].
    inversion IH as [|? ? H1 H2]; subst. constructor; [|exact H2].
    rewrite has_slash_cons, Hc, H1. reflexivity.
Qed.

Lemma pathParts_segments (path : string) : Forall segment (pathParts path).
Proof.
  unfold pathParts, filter_Boolean. apply List.Forall_forall. intros x Hx.
  apply List.filter_In in Hx as [Hin Hne]. split.
  - apply negb_true_iff in Hne. now apply String.eqb_neq.
  - pose proof (split_slash_free path) as H.
    rewrite List.Forall_forall in H. now apply H.
Qed.

Lemma filter_split_join (l : list string) :
  Forall segment l -> filter_Boolean (split_slash (join_slash l)) = l.
Proof.
  induction 1 as [|x l [Hne Hfree] Hl IH]; [reflexivity|].
  assert (Hx : negb (String.eqb x "") = true)
    by (now apply negb_true_iff, String.eqb_neq).
  destruct l as [|y l].
  - cbn [join_slash String.concat]. rewrite (split_slash_plain x Hfree).
    cbn. now rewrite Hx.
  - change (join_slash (x :: y :: l)) with (x +:+ String "/" (join_slash (y :: l))).
    rewrite (split_slash_prefix x _ Hfree). cbn [filter_Boolean List.filter].
    rewrite Hx. f_equal. exact IH.
Qed.

(** Reading back a path made of segments. *)
Lemma pathParts_join (l : list string) :
  Forall segment l -> pathParts ("/" +:+ join_slash l) = l.
Proof.
  intros H. unfold pathParts.
  change ("/" +:+ join_slash l) with (String "/" (join_slash l)).
  cbn [split_slash]. change (Ascii.eqb "/" "/") with true. cbv iota.
  cbn [filter_Boolean List.filter String.eqb negb].
  now apply filter_split_join.
Qed.

(** X19. The breadcrumbs of the xiaoya browser.  Every label is a
    segment of the path: not empty and free of slashes, doubled and
    trailing slashes giving no crumb.  The button of a crumb sets a
    path whose parts are the parts of the current path up to that
    crumb, so its own breadcrumbs are the crumbs up to it; the button
    of the last crumb sets a path with the parts of the current one. *)
Theorem breadcrumb_paths (xiaoyaPath : string) (index : nat) (part path : string) :
  breadcrumbs xiaoyaPath !! index = Some (part, path) ->
  pathParts xiaoyaPath !! index = Some part
  /\ segment part
  /\ path = "/" +:+ join_slash (take (S index) (pathParts xiaoyaPath))
  /\ pathParts path = take (S index) (pathParts xiaoyaPath)
  /\ breadcrumbs path = take (S index) (breadcrumbs xiaoyaPath)
  /\ (S index = length (breadcrumbs xiaoyaPath) ->
      pathParts path = pathParts xiaoyaPath).
Proof.
  unfold breadcrumbs at 1. cbn zeta. intros H.
  apply list_lookup_imap_Some in H as (y & Hy & E). injection E as -> ->.
  pose proof (pathParts_segments xiaoyaPath) as Hseg.
  assert (Hparts : pathParts ("/" +:+ join_slash (take (S index) (pathParts xiaoyaPath)))
                   = take (S index) (pathParts xiaoyaPath))
    by (apply pathParts_join, Forall_take, Hseg).
  split; [exact Hy|]. split.
  { rewrite Forall_lookup in Hseg. exact (Hseg index y Hy). }
  split; [reflexivity|]. split; [exact Hparts|]. split.
  - unfold breadcrumbs. cbn zeta. rewrite Hparts.
    apply list_eq. intros i. rewrite list_lookup_imap.
    destruct (decide (i < S index)%nat) as [Hlt|Hge].
    + rewrite !lookup_take_lt by exact Hlt. rewrite list_lookup_imap.
      destruct (pathParts xiaoyaPath !! i); [|reflexivity]. cbn.
      rewrite take_take, Nat.min_l by lia. reflexivity.
    + rewrite !lookup_take_ge by lia. reflexivity.
  - intros Hlast. rewrite Hparts. apply take_ge.
    unfold breadcrumbs in Hlast. cbn zeta in Hlast. rewrite length_imap in Hlast. lia.
Qed.

Lemma breadcrumb_paths_witness :
  breadcrumbs "/movies//2024/" !! 1%nat = Some ("2024", "/movies/2024")
  /\ pathParts "/movies/2024" = pathParts "/movies//2024/".
Proof.
  assert (H : breadcrumbs "/movies//2024/" !! 1%nat = Some ("2024", "/movies/2024"))
    by reflexivity.
  destruct (breadcrumb_paths "/movies//2024/" 1 "2024" "/movies/2024" H)
    as (_ & _ & _ & _ & _ & E).
  exact (conj H (E eq_refl)).
Defined.

(** X20. A search result of the xiaoya browser that is a video file
    is split into the directory of the file and its name: the parts of
    the directory followed by the name are the parts of the path of
    the result, and the name is a segment.  A path without parts has
    no name, and the root as its directory. *)
Theorem search_result_split (path : string) :
  (forall name, fileName path = Some name ->
                segment name
                /\ (pathParts (parentDir path) ++ [name])%list = pathParts path)
  /\ (fileName path = None -> pathParts path = [] /\ parentDir path = "/").
Proof.
  unfold fileName, parentDir. pose proof (pathParts_segments path) as Hseg.
  split.
  - intros name Hlast. apply last_Some in Hlast as [l' E]. rewrite E in *.
    apply Forall_app in Hseg as [Hl' Hname].
    rewrite List.removelast_last, (pathParts_join l' Hl').
    split; [now inversion Hname | reflexivity].
  - intros Hnone. apply last_None in Hnone. now rewrite Hnone.
Qed.

End PathExtras.

(** * Further properties of the views of an emby source *)

Module ViewExtras.
Import Page Views.

Lemma fetchEmbyViews_failed (urlView : option string) (outcome : Settled ViewsData)
    (st : ViewsState) :
  failed outcome = true ->
  fetchEmbyViews urlView outcome st
  = mkViewsState [] (selectedView st) (hasRestoredViewRef st).
Proof. destruct outcome as [data|e]; cbn; [intros ->|]; reflexivity. Qed.

Lemma fetchEmbyViews_restored (urlView : option string) (outcome : Settled ViewsData)
    (st : ViewsState) :
  hasRestoredViewRef st = true ->
  selectedView (fetchEmbyViews urlView outcome st) = selectedView st
  /\ hasRestoredViewRef (fetchEmbyViews urlView outcome st) = true.
Proof.
  intros H. destruct outcome as [data|e]; cbn; [|now split].
  destruct (truthy (v_error data)); cbn; [now split|]. rewrite H. now split.
Qed.

Lemma loads_restored (urlView : option string) (outcomes : list (Settled ViewsData))
    (st : ViewsState) :
  hasRestoredViewRef st = true ->
  selectedView (loads urlView outcomes st) = selectedView st
  /\ hasRestoredViewRef (loads urlView outcomes st) = true.
Proof.
  unfold loads. revert st.
  induction outcomes as [|o outcomes IH]; intros st H; [now split|].
  cbn [fold_left]. destruct (fetchEmbyViews_restored urlView o st H) as [E1 E2].
  destruct (IH _ E2) as [F1 F2]. split; [congruence | exact F2].
Qed.

Lemma loads_failed (urlView : option string) (outcomes : list (Settled ViewsData))
    (st : ViewsState) :
  forallb failed outcomes = true ->
  selectedView (loads urlView outcomes st) = selectedView st
  /\ hasRestoredViewRef (loads urlView outcomes st) = hasRestoredViewRef st.
Proof.
  unfold loads. revert st.
  induction outcomes as [|o outcomes IH]; intros st H; [now split|].
  cbn in H. apply andb_true_iff in H as [Ho H]. cbn [fold_left].
  rewrite (fetchEmbyViews_failed urlView o st Ho).
  destruct (IH (mkViewsState [] (selectedView st) (hasRestoredViewRef st)) H) as [F1 F2].
  split; assumption.
Qed.

(** X21. The view of the address is restored by the first load of the
    views that succeeds, and by no other.  Loads that fail change
    neither the selected view nor the ref; the first load that
    succeeds selects the view of the address exactly when that view is
    not empty and is among the views loaded, and sets the ref; from
    then on no load changes the selected view, whatever it brings. *)
Theorem view_restored_by_first_success_only (urlView : option string)
    (before after : list (Settled ViewsData)) (data : ViewsData) (st : ViewsState) :
  hasRestoredViewRef st = false ->
  forallb failed before = true ->
  truthy (v_error data) = false ->
  let found :=
    truthy urlView
    && existsb (fun v => String.eqb (view_id v) (default "" urlView))
         (default [] (v_views data)) in
  selectedView (loads urlView before st) = selectedView st
  /\ hasRestoredViewRef (loads urlView before st) = false
  /\ selectedView (loads urlView (before ++ Fulfilled data :: after) st)
     = (if found then default "" urlView else selectedView st)
  /\ hasRestoredViewRef (loads urlView (before ++ Fulfilled data :: after) st) = true.
Proof.
  intros Hst Hbefore Herr found.
  destruct (loads_failed urlView before st Hbefore) as [B1 B2]. rewrite Hst in B2.
  split; [exact B1|]. split; [exact B2|].
  unfold loads in *. rewrite fold_left_app. cbn [fold_left].
  set (st1 := fold_left _ before st) in *.
  set (st2 := fetchEmbyViews urlView (Fulfilled data) st1).
  assert (E : selectedView st2 = (if found then default "" urlView else selectedView st)
              /\ hasRestoredViewRef st2 = true).
  { subst st2 found. cbn. rewrite Herr, B2. cbn. split; [|reflexivity].
    rewrite B1. destruct (v_views data) as [[|v l]|]; cbn [default existsb length];
      rewrite ?andb_false_r, ?andb_true_r; reflexivity. }
  destruct E as [E1 E2].
  destruct (loads_restored urlView after st2 E2) as [F1 F2]. unfold loads in F1, F2.
  split; [congruence | exact F2].
Qed.

Lemma view_restored_by_first_success_only_witness :
  let st := mkViewsState [] "all" false in
  let failure := Fulfilled (mkViewsData (Some "no such source") None) in
  let views := mkViewsData None (Some [mkEmbyView "v1" "Movies"; mkEmbyView "v2" "Series"]) in
  let other := Fulfilled (mkViewsData None (Some [mkEmbyView "v9" "Music"])) in
  hasRestoredViewRef st = false
  /\ selectedView (loads (Some "v2") ([failure] ++ Fulfilled views :: [other]) st) = "v2".
Proof.
  intros st failure views other.
  destruct (view_restored_by_first_success_only (Some "v2") [failure] [other] views st
              eq_refl eq_refl eq_refl) as (_ & _ & E & _).
  exact (conj eq_refl E).
Defined.

End ViewExtras.
